(** * LinkRight Playwright runner: a shallow embedding and its properties

    The development follows [playwright-runner.js] (class [PlaywrightRunner]):
    the JavaScript values the methods compute with, the fields of the runner
    object, and then the methods themselves as state-passing functions.
    What the browser, the network and the operator do is supplied as
    explicit data, so every definition can be evaluated. *)

From stdpp Require Import gmap strings list pretty.
From Stdlib Require Import ZArith Lia Ascii String.

#[local] Set Warnings "-register-all".

Open Scope string_scope.
Open Scope Z_scope.

(** ** JavaScript values *)

Module JS.

(** Numbers: the integer-valued doubles (which [ToString] renders in plain
    decimal), [NaN] and the two infinities.  Rounding of very large
    integers to the nearest double is not represented. *)
Inductive number :=
| NaN
| Infinity (negative : bool)
| Fin (z : Z).

Inductive value :=
| Undefined
| Null
| Bool (b : bool)
| Num (n : number)
| Str (s : string)
| Arr (items : list value)
| Obj (fields : list (string * value)).

Definition Number_toString (n : number) : string :=
  match n with
  | NaN => "NaN"
  | Infinity false => "Infinity"
  | Infinity true => "-Infinity"
  | Fin z => pretty z
  end.

(** [String(v)]: arrays join their elements with commas, [null] and
    [undefined] elements contributing nothing. *)
Fixpoint ToString (v : value) : string :=
  match v with
  | Undefined => "undefined"
  | Null => "null"
  | Bool true => "true"
  | Bool false => "false"
  | Num n => Number_toString n
  | Str s => s
  | Arr items =>
      (fix join (l : list value) : string :=
         match l with
         | [] => ""
         | x :: rest =>
             let here := match x with
                         | Undefined | Null => ""
                         | _ => ToString x
                         end in
             match rest with
             | [] => here
             | _ => here +:+ "," +:+ join rest
             end
         end) items
  | Obj _ => "[object Object]"
  end.

(** [ToBoolean] on numbers and on values. *)
Definition truthyNumber (n : number) : bool :=
  match n with
  | NaN => false
  | Infinity _ => true
  | Fin z => negb (z =? 0)
  end.

Definition truthy (v : value) : bool :=
  match v with
  | Undefined | Null => false
  | Bool b => b
  | Num n => truthyNumber n
  | Str s => negb (String.eqb s "")
  | Arr _ | Obj _ => true
  end.

(** [a || b] *)
Definition or (a b : value) : value := if truthy a then a else b.
Definition orNumber (a b : number) : number := if truthyNumber a then a else b.

(** Own-property read [o.k]; the last write to a key wins, a missing key
    and any property of a primitive or of an array read as [undefined]. *)
Fixpoint lookupField (k : string) (fields : list (string * value)) : option value :=
  match fields with
  | [] => None
  | (k', v) :: rest =>
      match lookupField k rest with
      | Some later => Some later
      | None => if String.eqb k k' then Some v else None
      end
  end.

Definition get (o : value) (k : string) : value :=
  match o with
  | Obj fields => default Undefined (lookupField k fields)
  | _ => Undefined
  end.

(** [k in o] for an object or an array (own keys only). *)
Definition hasField (o : value) (k : string) : bool :=
  match o with
  | Obj fields => bool_decide (is_Some (lookupField k fields))
  | _ => false
  end.

(** Strict equality of a value with a number ([NaN] equals nothing). *)
Definition strictEqNumber (v : value) (n : number) : bool :=
  match v, n with
  | Num (Fin a), Fin b => a =? b
  | Num (Infinity s), Infinity s' => Bool.eqb s s'
  | _, _ => false
  end.

(** *** Characters and strings *)

Definition code (c : ascii) : Z := Z.of_N (N_of_ascii c).

(** White space and line terminators among the code units below 256. *)
Definition isWhiteSpace (c : ascii) : bool :=
  let n := code c in
  ((9 <=? n) && (n <=? 13)) || (n =? 32) || (n =? 160).

Fixpoint trimStart (s : string) : string :=
  match s with
  | String c rest => if isWhiteSpace c then trimStart rest else s
  | EmptyString => s
  end.

Definition trimEnd (s : string) : string :=
  String.rev (trimStart (String.rev s)).

Definition trim (s : string) : string := trimEnd (trimStart s).

Definition lowerChar (c : ascii) : ascii :=
  let n := code c in
  if (65 <=? n) && (n <=? 90) then ascii_of_N (Z.to_N (n + 32)) else c.

(** [s.toLowerCase()] on the ASCII letters. *)
Fixpoint toLowerCase (s : string) : string :=
  match s with
  | String c rest => String (lowerChar c) (toLowerCase rest)
  | EmptyString => EmptyString
  end.

Fixpoint startsWith (p s : string) : bool :=
  match p, s with
  | EmptyString, _ => true
  | String a p', String b s' => if Ascii.eqb a b then startsWith p' s' else false
  | String _ _, EmptyString => false
  end.

(** [s.includes(p)] *)
Fixpoint includes (s p : string) : bool :=
  startsWith p s ||
  match s with
  | String _ rest => includes rest p
  | EmptyString => false
  end.

(** [s.substring(0, n)] *)
Definition prefix (n : nat) (s : string) : string := String.substring 0 n s.

(** *** [parseInt] without a radix argument *)

Definition digitValue (c : ascii) : option Z :=
  let n := code c in
  if (48 <=? n) && (n <=? 57) then Some (n - 48)
  else if (97 <=? n) && (n <=? 122) then Some (n - 87)
  else if (65 <=? n) && (n <=? 90) then Some (n - 55)
  else None.

(** The longest prefix of radix-[R] digits, as a number; [None] when the
    prefix is empty. *)
Fixpoint readDigits (R : Z) (s : string) (acc : option Z) : option Z :=
  match s with
  | String c rest =>
      match digitValue c with
      | Some d =>
          if d <? R then readDigits R rest (Some (default 0 acc * R + d))
          else acc
      | None => acc
      end
  | EmptyString => acc
  end.

Definition parseInt (v : value) : number :=
  let s := trimStart (ToString v) in
  let '(sign, s) :=
    match s with
    | String "-" rest => (-1, rest)
    | String "+" rest => (1, rest)
    | _ => (1, s)
    end in
  let '(R, s) :=
    if startsWith "0x" s || startsWith "0X" s
    then (16, String.substring 2 (String.length s - 2)%nat s)
    else (10, s) in
  match readDigits R s None with
  | None => NaN
  | Some m => Fin (sign * m)
  end.

(** [a - b] for a value that is a number and an integer. *)
Definition minus (a : value) (b : Z) : number :=
  match a with
  | Num (Fin x) => Fin (x - b)
  | Num (Infinity s) => Infinity s
  | _ => NaN
  end.

(** The integer a finite number holds ([0] for the others). *)
Definition toInteger (n : number) : Z :=
  match n with
  | Fin z => z
  | _ => 0
  end.

(** [Math.max(a, b)] *)
Definition Math_max (a b : number) : number :=
  match a, b with
  | NaN, _ | _, NaN => NaN
  | Infinity false, _ | _, Infinity false => Infinity false
  | Infinity true, x | x, Infinity true => x
  | Fin x, Fin y => Fin (Z.max x y)
  end.

End JS.

(** ** The runner object

    One record for the fields of [PlaywrightRunner] that the methods below
    read or write.  The temporary-data maps, the worker and the request
    queue are left out: no method modelled here reads them. *)

(** [this.page]: [null] before [start] and after [cleanup], a page
    otherwise. *)
Inductive PageRef := PageNull | PageLive.

Record SessionStats := mkStats {
  commentsPosted : Z;
  likesGiven : Z;
  connectionsRequested : Z;
  postsProcessed : Z;
  errors : Z;
  startTime : option Z
}.

(** The object literal of [resetStats] and of the constructor. *)
Definition freshStats : SessionStats := mkStats 0 0 0 0 0 None.

(** The object [isInsidePost] returns for the focused post; [outerHTML] is
    the property the loop adds before it asks for a decision. *)
Record PostData := mkPost {
  postId : string;
  postHTML : string;
  postContent : string;
  authorName : string;
  outerHTML : option string
}.

(** What [checkEngagementDecision] returns: [{ engage, postId }]. *)
Record Decision := mkDecision {
  engage : string;
  decisionPostId : JS.value
}.

(** An entry of [_domCache] under an [engagement_<postId>] key. *)
Record CacheEntry := mkEntry {
  result : Decision;
  timestamp : Z
}.

Record Timing := mkTiming {
  tabDelayMin : Z;
  tabDelayMax : Z;
  pasteDelayMin : Z;
  pasteDelayMax : Z;
  cooldownMin : Z;
  cooldownMax : Z
}.

(** A JavaScript [Error] as the handlers inspect it: [name], [message] and
    [cause.code]. *)
Record JsError := mkError {
  errName : string;
  errMessage : string;
  causeCode : option string
}.

Definition Error (message : string) : JsError := mkError "Error" message None.
Definition TypeError (message : string) : JsError := mkError "TypeError" message None.

(** What the runner does that can be observed from outside: driver
    commands, HUD pushes and the logger lines that matter below. *)
Inductive Event :=
| Press (key : string)
| Wait (ms : Z)
| Evaluate (what : string)
| Goto (url : string)
| Capture (kind : string) (path : string)
| Hud (updates : list (string * JS.value))
| SeenAdd (id : string)
| Decide (id : string)
| Engage (id : string)
| Fetch (url : string) (timeout : Z)
| HttpErrorLogged (status : Z) (body : option string)
| Diagnosed (errorType : string) (e : JsError)
| Remaining (n : JS.number)
| Info (msg : string)
| Warn (msg : string)
| Failure (msg : string).

Record Runner := mkRunner {
  page : PageRef;
  context : bool;
  seenPostIds : gset string;
  domCache : gmap string CacheEntry;
  isRunning : bool;
  sessionId : option string;
  stopRequested : bool;
  isPaused : bool;
  sessionStats : SessionStats;
  thresholds : JS.value;
  thresholdsValidated : bool;
  timing : option Timing;
  optimizeEngagement : bool;
  postAnalysisWebhook : option string;
  keyboardLoopActive : bool;
  hudState : list (string * JS.value);
  clock : Z;
  journal : list (Z * Event)
}.

Definition hasPage (r : Runner) : bool :=
  match page r with
  | PageLive => true
  | PageNull => false
  end.

(** Field assignments. *)
Definition set_page (v : PageRef) (r : Runner) : Runner :=
  mkRunner v (context r) (seenPostIds r) (domCache r) (isRunning r) (sessionId r)
    (stopRequested r) (isPaused r) (sessionStats r) (thresholds r) (thresholdsValidated r)
    (timing r) (optimizeEngagement r) (postAnalysisWebhook r) (keyboardLoopActive r)
    (hudState r) (clock r) (journal r).
Definition set_seenPostIds (v : gset string) (r : Runner) : Runner :=
  mkRunner (page r) (context r) v (domCache r) (isRunning r) (sessionId r)
    (stopRequested r) (isPaused r) (sessionStats r) (thresholds r) (thresholdsValidated r)
    (timing r) (optimizeEngagement r) (postAnalysisWebhook r) (keyboardLoopActive r)
    (hudState r) (clock r) (journal r).
Definition set_domCache (v : gmap string CacheEntry) (r : Runner) : Runner :=
  mkRunner (page r) (context r) (seenPostIds r) v (isRunning r) (sessionId r)
    (stopRequested r) (isPaused r) (sessionStats r) (thresholds r) (thresholdsValidated r)
    (timing r) (optimizeEngagement r) (postAnalysisWebhook r) (keyboardLoopActive r)
    (hudState r) (clock r) (journal r).
Definition set_isRunning (v : bool) (r : Runner) : Runner :=
  mkRunner (page r) (context r) (seenPostIds r) (domCache r) v (sessionId r)
    (stopRequested r) (isPaused r) (sessionStats r) (thresholds r) (thresholdsValidated r)
    (timing r) (optimizeEngagement r) (postAnalysisWebhook r) (keyboardLoopActive r)
    (hudState r) (clock r) (journal r).
Definition set_stopRequested (v : bool) (r : Runner) : Runner :=
  mkRunner (page r) (context r) (seenPostIds r) (domCache r) (isRunning r) (sessionId r)
    v (isPaused r) (sessionStats r) (thresholds r) (thresholdsValidated r)
    (timing r) (optimizeEngagement r) (postAnalysisWebhook r) (keyboardLoopActive r)
    (hudState r) (clock r) (journal r).
Definition set_isPaused (v : bool) (r : Runner) : Runner :=
  mkRunner (page r) (context r) (seenPostIds r) (domCache r) (isRunning r) (sessionId r)
    (stopRequested r) v (sessionStats r) (thresholds r) (thresholdsValidated r)
    (timing r) (optimizeEngagement r) (postAnalysisWebhook r) (keyboardLoopActive r)
    (hudState r) (clock r) (journal r).
Definition set_sessionStats (v : SessionStats) (r : Runner) : Runner :=
  mkRunner (page r) (context r) (seenPostIds r) (domCache r) (isRunning r) (sessionId r)
    (stopRequested r) (isPaused r) v (thresholds r) (thresholdsValidated r)
    (timing r) (optimizeEngagement r) (postAnalysisWebhook r) (keyboardLoopActive r)
    (hudState r) (clock r) (journal r).
Definition set_thresholdsValidated (v : bool) (r : Runner) : Runner :=
  mkRunner (page r) (context r) (seenPostIds r) (domCache r) (isRunning r) (sessionId r)
    (stopRequested r) (isPaused r) (sessionStats r) (thresholds r) v
    (timing r) (optimizeEngagement r) (postAnalysisWebhook r) (keyboardLoopActive r)
    (hudState r) (clock r) (journal r).
Definition set_keyboardLoopActive (v : bool) (r : Runner) : Runner :=
  mkRunner (page r) (context r) (seenPostIds r) (domCache r) (isRunning r) (sessionId r)
    (stopRequested r) (isPaused r) (sessionStats r) (thresholds r) (thresholdsValidated r)
    (timing r) (optimizeEngagement r) (postAnalysisWebhook r) v
    (hudState r) (clock r) (journal r).
Definition set_hudState (v : list (string * JS.value)) (r : Runner) : Runner :=
  mkRunner (page r) (context r) (seenPostIds r) (domCache r) (isRunning r) (sessionId r)
    (stopRequested r) (isPaused r) (sessionStats r) (thresholds r) (thresholdsValidated r)
    (timing r) (optimizeEngagement r) (postAnalysisWebhook r) (keyboardLoopActive r)
    v (clock r) (journal r).
Definition set_clock (v : Z) (r : Runner) : Runner :=
  mkRunner (page r) (context r) (seenPostIds r) (domCache r) (isRunning r) (sessionId r)
    (stopRequested r) (isPaused r) (sessionStats r) (thresholds r) (thresholdsValidated r)
    (timing r) (optimizeEngagement r) (postAnalysisWebhook r) (keyboardLoopActive r)
    (hudState r) v (journal r).
Definition set_journal (v : list (Z * Event)) (r : Runner) : Runner :=
  mkRunner (page r) (context r) (seenPostIds r) (domCache r) (isRunning r) (sessionId r)
    (stopRequested r) (isPaused r) (sessionStats r) (thresholds r) (thresholdsValidated r)
    (timing r) (optimizeEngagement r) (postAnalysisWebhook r) (keyboardLoopActive r)
    (hudState r) (clock r) v.

(** Appends an event, stamped with the current time, to the journal (kept
    oldest first). *)
Definition emit (e : Event) (r : Runner) : Runner :=
  set_journal (journal r ++ [(clock r, e)]) r.

(** The events of a journal, without their time stamps. *)
Definition events (r : Runner) : list Event := (journal r).*2.

(** The state the constructor leaves. *)
Definition newRunner : Runner :=
  mkRunner PageNull false ∅ ∅ false None false false freshStats JS.Null false
    None false None false
    [("action", JS.Str "Idle"); ("postId", JS.Str ""); ("engage", JS.Str "-");
     ("commentsPosted", JS.Num (JS.Fin 0)); ("maxComments", JS.Num (JS.Fin 0))]
    0 [].

(** [get defaults()]: the lazily built object, and its timing entries as a
    record. *)
Definition defaults : JS.value :=
  JS.Obj [("maxActions", JS.Num (JS.Fin 10)); ("strictThresholdMode", JS.Bool true);
          ("tabDelayMin", JS.Num (JS.Fin 1000)); ("tabDelayMax", JS.Num (JS.Fin 2000));
          ("enterDelayMin", JS.Num (JS.Fin 2000)); ("enterDelayMax", JS.Num (JS.Fin 4000));
          ("webhookWaitMin", JS.Num (JS.Fin 3000)); ("webhookWaitMax", JS.Num (JS.Fin 4000));
          ("pasteDelayMin", JS.Num (JS.Fin 1000)); ("pasteDelayMax", JS.Num (JS.Fin 2000));
          ("cooldownMin", JS.Num (JS.Fin 5000)); ("cooldownMax", JS.Num (JS.Fin 10000))].

Definition defaultTiming : Timing := mkTiming 1000 2000 1000 2000 5000 10000.

(** ** [getThresholds] *)

(** [process.env.NAME]: a string, or [undefined] when the variable is unset. *)
Definition getenv (env : gmap string string) (name : string) : JS.value :=
  match env !! name with
  | Some s => JS.Str s
  | None => JS.Undefined
  end.

Definition getThresholds (env : gmap string string) (r : Runner) : JS.value * Runner :=
  let thresholds :=
    JS.or (thresholds r)
      (JS.Obj
         [("minLikes", JS.or (JS.Num (JS.parseInt (getenv env "MIN_REACTIONS_THRESHOLD")))
                         (JS.get defaults "minLikes"));
          ("minComments", JS.or (JS.Num (JS.parseInt (getenv env "MIN_COMMENTS_THRESHOLD")))
                            (JS.get defaults "minComments"));
          ("minReposts", JS.or (JS.Num (JS.parseInt (getenv env "MIN_REPOSTS_THRESHOLD")))
                           (JS.get defaults "minReposts"));
          ("maxActions", JS.or (JS.Num (JS.parseInt (getenv env "MAX_COMMENTS_PER_SESSION")))
                           (JS.get defaults "maxActions"))]) in
  let clampedMax :=
    JS.Math_max (JS.Fin 1)
      (JS.orNumber (JS.parseInt (JS.get thresholds "maxActions")) (JS.Fin 10)) in
  let clamped := JS.Obj [("maxActions", JS.Num clampedMax)] in
  let r :=
    if thresholdsValidated r then r
    else
      let r := if JS.strictEqNumber (JS.get thresholds "maxActions") clampedMax then r
               else emit (Warn "Invalid maxActions detected, clamped to safe value") r in
      set_thresholdsValidated true r in
  (clamped, r).

(** The runner configured through the API with [thresholds.maxActions = v]. *)
Definition withMaxActions (v : JS.value) : Runner :=
  mkRunner PageNull false ∅ ∅ false None false false freshStats
    (JS.Obj [("minLikes", JS.Undefined); ("minComments", JS.Undefined);
             ("minReposts", JS.Undefined); ("maxActions", v)])
    false None false None false [] 0 [].

(** ** The outbound request client *)

(** How a call ends: with a value, or with a thrown error. *)
Inductive Completion (A : Type) :=
| Returns (a : A)
| Throws (e : JsError).
Arguments Returns {A} a.
Arguments Throws {A} e.

Definition andThen {A B : Type} (c : Completion A) (k : A → Completion B) : Completion B :=
  match c with
  | Returns a => k a
  | Throws e => Throws e
  end.

(** The two library calls whose results depend on text: [JSON.parse] and
    [new URL(url).hostname] ([None] when the constructor throws). *)
Record Runtime := mkRuntime {
  JSON_parse : string → Completion JS.value;
  URL_hostname : string → option string
}.

Record Request := mkRequest {
  url : string;
  payload : JS.value;
  timeout : option Z
}.

(** What the endpoint sends back; [body] is what [response.text()] gives. *)
Record Response := mkResponse {
  status : Z;
  statusText : string;
  body : Completion string
}.

Inductive Reply :=
| Rejects (e : JsError)
| Responds (resp : Response).

(** One request as the network carries it out: the reply and the time it
    takes to arrive. *)
Record Exchange := mkExchange {
  latency : Z;
  reply : Reply
}.

Definition AbortError : JsError := mkError "AbortError" "This operation was aborted" None.

(** [fetch] under the abort timer armed for [timeoutMs]. *)
Definition fetch (timeoutMs : Z) (x : Exchange) : Completion Response :=
  if timeoutMs <=? latency x then Throws AbortError
  else match reply x with
       | Rejects e => Throws e
       | Responds resp => Returns resp
       end.

(** [response.ok] *)
Definition ok (resp : Response) : bool := (200 <=? status resp) && (status resp <=? 299).

Definition elapse (ms : Z) (r : Runner) : Runner := set_clock (clock r + Z.max 0 ms) r.

Definition hasCode (e : JsError) (c : string) : bool :=
  match causeCode e with
  | Some c' => String.eqb c' c
  | None => false
  end.

(** The chain of tests that sets [errorInfo.errorType]. *)
Definition errorTypeOf (e : JsError) : string :=
  let msg := errMessage e in
  if String.eqb (errName e) "AbortError" then "TIMEOUT"
  else if hasCode e "ENOTFOUND" || JS.includes msg "ENOTFOUND" || JS.includes msg "getaddrinfo"
  then "DNS_FAILURE"
  else if hasCode e "ECONNREFUSED" || JS.includes msg "ECONNREFUSED"
  then "CONNECTION_REFUSED"
  else if hasCode e "ECONNRESET" || JS.includes msg "ECONNRESET" || JS.includes msg "socket hang up"
  then "CONNECTION_RESET"
  else if hasCode e "ETIMEDOUT" || JS.includes msg "ETIMEDOUT"
  then "NETWORK_TIMEOUT"
  else if hasCode e "EPIPE" || JS.includes msg "EPIPE"
  then "BROKEN_PIPE"
  else if JS.includes msg "certificate" || JS.includes msg "SSL" || JS.includes msg "TLS"
  then "SSL_ERROR"
  else if JS.includes msg "fetch failed"
  then "FETCH_FAILED"
  else "UNKNOWN".

(** [Object.keys(parsed)] and ['engage' in parsed], which the success log
    evaluates inside the [JSON.parse] try block. *)
Definition inspectParsed (parsed : JS.value) : Completion JS.value :=
  match parsed with
  | JS.Undefined | JS.Null => Throws (TypeError "Cannot convert undefined or null to object")
  | JS.Obj _ | JS.Arr _ => Returns parsed
  | _ => Throws (TypeError ("Cannot use 'in' operator to search for 'engage' in "
                             +:+ JS.ToString parsed))
  end.

(** The body of the try block around [fetch]. *)
Definition exchangeAttempt (rt : Runtime) (req : Request) (timeoutMs : Z) (x : Exchange)
    (r : Runner) : Completion JS.value * Runner :=
  match fetch timeoutMs x with
  | Throws e => (Throws e, r)
  | Returns resp =>
      if ok resp then
        match body resp with
        | Throws e => (Throws e, r)
        | Returns responseText =>
            if (String.length (JS.trim responseText) =? 0)%nat
            then (Throws (Error "Webhook returned empty response body"),
                  emit (Failure "Webhook returned empty response") r)
            else
              match andThen (JSON_parse rt responseText) inspectParsed with
              | Returns parsed => (Returns parsed, r)
              | Throws jsonError =>
                  (Throws (Error ("Invalid JSON response: " +:+ errMessage jsonError
                                  +:+ ". Response: " +:+ JS.prefix 100 responseText)),
                   emit (Failure "Failed to parse JSON response") r)
              end
        end
      else
        let responseBody := match body resp with
                            | Returns text => Some text
                            | Throws _ => None
                            end in
        (Throws (Error ("HTTP " +:+ pretty (status resp) +:+ ": " +:+ statusText resp)),
         emit (HttpErrorLogged (status resp) (JS.prefix 500 <$> responseBody)) r)
  end.

Definition executeWebhookRequest (rt : Runtime) (req : Request) (x : Exchange) (r : Runner)
    : Completion JS.value * Runner :=
  let timeoutMs := default 10000 (timeout req) in
  match payload req with
  | JS.Undefined =>
      (Throws (Error ("Payload serialization failed: "
                      +:+ "Cannot read properties of undefined (reading 'length')")),
       emit (Failure "PRE-FETCH: Failed to stringify payload") r)
  | _ =>
      let r := emit (Fetch (url req) timeoutMs) r in
      let r := elapse (Z.min (latency x) timeoutMs) r in
      match exchangeAttempt rt req timeoutMs x r with
      | (Returns parsed, r) => (Returns parsed, r)
      | (Throws error, r) =>
          let errorType := errorTypeOf error in
          if String.eqb errorType "DNS_FAILURE" && negb (bool_decide (is_Some (URL_hostname rt (url req))))
          then (Throws (TypeError "Invalid URL"), r)
          else (Throws error, emit (Diagnosed errorType error) r)
      end
  end.

(** ** The decision service client *)

(** [updateHUD]: nothing without a page; otherwise merges the updates into
    [hudState] and pushes it to the page, ignoring a failed push. *)
Definition updateHUD (updates : list (string * JS.value)) (r : Runner) : Runner :=
  match page r with
  | PageNull => r
  | PageLive => emit (Hud updates) (set_hudState (hudState r ++ updates) r)
  end.

Definition _cacheTimeout : Z := 5000.

Definition cacheKey (post : PostData) : string := "engagement_" +:+ postId post.

(** [postData.outerHTML || postData.postHTML] *)
Definition outer_html (post : PostData) : JS.value :=
  JS.or (from_option JS.Str JS.Undefined (outerHTML post)) (JS.Str (postHTML post)).

Definition decisionRequest (webhook : string) (post : PostData) : Request :=
  mkRequest webhook (JS.Obj [("outer_html", outer_html post)]) (Some 180000).

Definition waitingHud (post : PostData) : list (string * JS.value) :=
  [("postId", JS.Str (postId post)); ("action", JS.Str "Waiting for AI analysis...");
   ("engage", JS.Str "Pending...")].

Definition engageYes : Decision := mkDecision "yes" JS.Undefined.

(** [(result.engage || result.Engage || 'yes').toLowerCase()] and the
    [postId] next to it; only a string has [toLowerCase]. *)
Definition normalize (result : JS.value) (post : PostData) : Completion Decision :=
  match JS.or (JS.or (JS.get result "engage") (JS.get result "Engage")) (JS.Str "yes") with
  | JS.Str verdict =>
      Returns (mkDecision (JS.toLowerCase verdict)
                 (JS.or (JS.or (JS.get result "postId") (JS.get result "PostId"))
                    (JS.Str (postId post))))
  | _ => Throws (TypeError "(result.engage || result.Engage || 'yes').toLowerCase is not a function")
  end.

(** The cached entry that is still fresh for this post, if any. *)
Definition freshEntry (post : PostData) (r : Runner) : option CacheEntry :=
  match domCache r !! cacheKey post with
  | Some cached => if clock r - timestamp cached <? _cacheTimeout then Some cached else None
  | None => None
  end.

Definition configuredWebhook (r : Runner) : option string :=
  match postAnalysisWebhook r with
  | Some w => if String.eqb w "" then None else Some w
  | None => None
  end.

Definition checkEngagementDecision (rt : Runtime) (post : PostData) (x : Exchange)
    (r : Runner) : Decision * Runner :=
  match configuredWebhook r with
  | None =>
      (engageYes, emit (Warn "No post analysis webhook configured, defaulting to engage") r)
  | Some webhook =>
      match freshEntry post r with
      | Some cached => (result cached, emit (Info "Engagement decision from cache") r)
      | None =>
          let r := updateHUD (waitingHud post) r in
          let '(answer, r) := executeWebhookRequest rt (decisionRequest webhook post) x r in
          match andThen answer (λ result, normalize result post) with
          | Returns normalizedResult =>
              let r := set_domCache
                         (<[cacheKey post := mkEntry normalizedResult (clock r)]> (domCache r)) r in
              (normalizedResult, emit (Info "Engagement decision received") r)
          | Throws error =>
              (engageYes, emit (Warn "defaulting to ENGAGE and resuming runner") r)
          end
      end
  end.

(** ** Lifecycle: [pause], [resume], [cleanup], [stop] *)

Definition flag (b : bool) : JS.value := JS.Bool b.
Definition text (s : string) : JS.value := JS.Str s.
Definition int (z : Z) : JS.value := JS.Num (JS.Fin z).

Definition pause (r : Runner) : JS.value * Runner :=
  if negb (keyboardLoopActive r)
  then (JS.Obj [("success", flag false); ("error", text "No active automation")], r)
  else (JS.Obj [("success", flag true); ("status", text "paused")],
        emit (Info "Automation paused by user") (set_isPaused true r)).

Definition resume (r : Runner) : JS.value * Runner :=
  if negb (keyboardLoopActive r)
  then (JS.Obj [("success", flag false); ("error", text "No active automation")], r)
  else if negb (isPaused r)
  then (JS.Obj [("success", flag false); ("error", text "Automation is not paused")], r)
  else (JS.Obj [("success", flag true); ("status", text "running")],
        emit (Info "Automation resumed by user") (set_isPaused false r)).

(** [cleanup]: closes the page and the browser, ignoring errors, and drops
    the references. *)
Definition cleanup (r : Runner) : Runner := set_page PageNull (set_isRunning false r).

Definition resetStats (r : Runner) : Runner := set_sessionStats freshStats r.

(** [cleanupTempData], as far as [_domCache] goes: above 50 entries, those
    older than the cache timeout are deleted. *)
Definition cleanupTempData (r : Runner) : Runner :=
  if (50 <? size (domCache r))%nat
  then set_domCache
         (filter (λ kv, ¬ (_cacheTimeout < clock r - timestamp kv.2)) (domCache r)) r
  else r.

Definition statsValue (s : SessionStats) : JS.value :=
  JS.Obj [("commentsPosted", int (commentsPosted s)); ("likesGiven", int (likesGiven s));
          ("connectionsRequested", int (connectionsRequested s));
          ("postsProcessed", int (postsProcessed s)); ("errors", int (errors s));
          ("startTime", from_option int JS.Null (startTime s))].

Definition nullable (o : option string) : JS.value := from_option JS.Str JS.Null o.

(** The file system and tracing as [stop] meets them: the project
    directory (absolute), whether [tracing.stop] writes the trace, and the
    recording found by [readdirSync] in the session directory, if any. *)
Record StopEnv := mkStopEnv {
  projectDir : string;
  traceWritten : bool;
  recording : option string
}.

Definition sessionDirOf (env : StopEnv) (sid : string) : string :=
  projectDir env +:+ "/runs/" +:+ sid.

(** The first [stop()] of the class body (the one documented "Stop
    Playwright session"). *)
Definition stop_first (env : StopEnv) (r : Runner) : JS.value * Runner :=
  let r := emit (Info "Stopping Playwright runner...") r in
  let r := set_stopRequested true r in
  let r := set_keyboardLoopActive false r in
  let saved :=
    match sessionId r with
    | Some sid => context r && traceWritten env
    | None => false
    end in
  let traceFile :=
    match sessionId r with
    | Some sid => if saved then Some (sessionDirOf env sid +:+ "/trace.zip") else None
    | None => None
    end in
  let sessionDir :=
    match sessionId r with
    | Some sid => if saved then Some (sessionDirOf env sid) else None
    | None => None
    end in
  let videoFile :=
    match sessionId r with
    | Some sid => (λ f, sessionDirOf env sid +:+ "/" +:+ f) <$> recording env
    | None => None
    end in
  let r := cleanup r in
  let finalStats := sessionStats r in
  let r := resetStats r in
  (JS.Obj [("success", flag true); ("message", text "Runner stopped");
           ("stats", statsValue finalStats);
           ("sessionId", nullable (sessionId r));
           ("artifacts", JS.Obj [("traceFile", nullable traceFile);
                                 ("videoFile", nullable videoFile);
                                 ("sessionDir", nullable sessionDir)])],
   emit (Info "Runner stopped and browser closed") r).

(** The second [stop()] of the class body ("Enhanced stop method with
    efficient cleanup"). *)
Definition stop_second (r : Runner) : JS.value * Runner :=
  let r := emit (Info "Stopping Playwright runner...") r in
  let r := set_keyboardLoopActive false r in
  let r := cleanupTempData r in
  let r := cleanup r in
  let finalStats := sessionStats r in
  let r := resetStats r in
  let r := set_seenPostIds ∅ r in
  (JS.Obj [("success", flag true); ("message", text "Runner stopped");
           ("stats", statsValue finalStats)],
   emit (Info "Runner stopped and browser closed") r).

(** A class body that declares a method twice keeps the later declaration:
    [runner.stop] is the second one, whatever the file system holds. *)
Definition stop (r : Runner) : JS.value * Runner := stop_second r.

(** ** The driver, the clock and the operator

    The loop runs against a world it does not control: a browser that
    answers each driver call, a decision endpoint, a random source, and an
    operator whose control-API calls arrive at given times. *)

Inductive Control := CallPause | CallResume | CallStop.

(** What the outside does during one awaited call. *)
Record Tick := mkTick {
  fails : option string;       (* the driver call rejects with this message *)
  focused : option PostData;   (* the post around the focused element *)
  exchange : Exchange;         (* the decision endpoint's behaviour *)
  commented : bool;            (* whether the comment went through *)
  took : Z                     (* how long the call takes, in ms *)
}.

Record World := mkWorld {
  script : list Tick;
  calls : list (Z * Control);  (* control-API calls with their arrival times *)
  randoms : list Z             (* [Math.random()] draws, in units of 2^-53 *)
}.

(** The routes of the control API: each checks its guard, then calls the
    runner. *)
Definition serve (c : Control) (r : Runner) : Runner :=
  match c with
  | CallPause =>
      if negb (isRunning r) || negb (keyboardLoopActive r) then r else (pause r).2
  | CallResume =>
      if negb (isRunning r) || negb (keyboardLoopActive r) then r
      else if negb (isPaused r) then r
      else (resume r).2
  | CallStop => if isRunning r then (stop r).2 else r
  end.

(** Serves the calls that arrive up to time [upto]. *)
Fixpoint deliver (upto : Z) (cs : list (Z * Control)) (r : Runner)
    : list (Z * Control) * Runner :=
  match cs with
  | (arrival, c) :: rest =>
      if arrival <=? upto
      then deliver upto rest (serve c (set_clock (Z.max (clock r) arrival) r))
      else (cs, r)
  | [] => ([], r)
  end.

(** Lets [ms] milliseconds pass. *)
Definition advanceClock (ms : Z) (w : World) (r : Runner) : World * Runner :=
  let upto := clock r + Z.max 0 ms in
  let '(cs, r) := deliver upto (calls w) r in
  (mkWorld (script w) cs (randoms w), set_clock upto r).

(** An awaited computation: it returns, throws, or is still pending when
    the script of the world ends. *)
Inductive Step (A : Type) :=
| Done (a : A) (w : World) (r : Runner)
| Raised (e : JsError) (w : World) (r : Runner)
| Pending (r : Runner).
Arguments Done {A} a w r.
Arguments Raised {A} e w r.
Arguments Pending {A} r.

Definition M (A : Type) : Type := World → Runner → Step A.

Definition ret {A : Type} (a : A) : M A := λ w r, Done a w r.

Definition bind {A B : Type} (m : M A) (k : A → M B) : M B :=
  λ w r, match m w r with
         | Done a w r => k a w r
         | Raised e w r => Raised e w r
         | Pending r => Pending r
         end.

Notation "'let*' x ':=' m 'in' k" := (bind m (λ x, k))
  (at level 10, x name, m at level 100, k at level 200).
Notation "m >> k" := (bind m (λ _, k))
  (at level 100, k at level 200, right associativity).

Definition look : M Runner := λ w r, Done r w r.
Definition update (f : Runner → Runner) : M unit := λ w r, Done tt w (f r).
Definition raise {A : Type} (e : JsError) : M A := λ w r, Raised e w r.
Definition pending {A : Type} : M A := λ _ r, Pending r.

(** [try { m } catch (error) { h error }] *)
Definition catch {A : Type} (m : M A) (h : JsError → M A) : M A :=
  λ w r, match m w r with
         | Raised e w r => h e w r
         | other => other
         end.

(** [try { m } finally { r := f r }] *)
Definition finally {A : Type} (m : M A) (f : Runner → Runner) : M A :=
  λ w r, match m w r with
         | Done a w r => Done a w (f r)
         | Raised e w r => Raised e w (f r)
         | Pending r => Pending r
         end.

Definition closedMessage : string := "Target page, context or browser has been closed".

(** A call on [this.page]: a [TypeError] when the field is [null];
    otherwise the call is made and the world answers it.  A call still in
    flight when the page is torn down rejects. *)
Definition driver {A : Type} (what : Event) (duration : Tick → Z) (answer : Tick → A)
    : M A :=
  λ w r,
    match page r with
    | PageNull => Raised (TypeError "Cannot read properties of null") w r
    | PageLive =>
        let r := emit what r in
        match script w with
        | [] => Pending r
        | t :: rest =>
            let '(w, r) := advanceClock (duration t) (mkWorld rest (calls w) (randoms w)) r in
            match page r with
            | PageNull => Raised (Error closedMessage) w r
            | PageLive =>
                match fails t with
                | Some message => Raised (Error message) w r
                | None => Done (answer t) w r
                end
            end
        end
    end.

Definition press (key : string) : M unit := driver (Press key) took (λ _, tt).

Definition waitForTimeout (ms : Z) : M unit := driver (Wait ms) (λ _, ms) (λ _, tt).

Definition isInsidePost : M (option PostData) :=
  λ w r, match page r with
         | PageNull => Done None w r
         | PageLive => driver (Evaluate "isInsidePost") took focused w r
         end.

Definition Math_random : M Z :=
  λ w r, match randoms w with
         | [] => Done 0 w r
         | u :: rest => Done (u mod 2 ^ 53) (mkWorld (script w) (calls w) rest) r
         end.

(** [Math.floor(u * span)] for a draw [u]. *)
Definition scaled (u span : Z) : Z := (u * span) / 2 ^ 53.

Definition randomDelay (env : gmap string string) : M unit :=
  let min := JS.toInteger (JS.orNumber (JS.parseInt (getenv env "MIN_ACTION_DELAY_MS"))
                             (JS.Fin 3000)) in
  let max := JS.toInteger (JS.orNumber (JS.parseInt (getenv env "MAX_ACTION_DELAY_MS"))
                             (JS.Fin 8000)) in
  let* u := Math_random in
  let delay := scaled u (max - min + 1) + min in
  update (emit (Info "Waiting (human-like delay)")) >>
  waitForTimeout delay.

(** The call of [checkEngagementDecision] from the loop; the tick says
    what the endpoint does if it is asked. *)
Definition awaitDecision (rt : Runtime) (post : PostData) : M Decision :=
  λ w r,
    let r := emit (Decide (postId post)) r in
    match script w with
    | [] => Pending r
    | t :: rest =>
        let '(decision, r) := checkEngagementDecision rt post (exchange t) r in
        let '(w, r) := advanceClock 0 (mkWorld rest (calls w) (randoms w)) r in
        Done decision w r
    end.

(** [engageWithPost] catches whatever its steps throw and answers [false]
    then; without a page its first key press already throws. *)
Definition engageWithPost (post : PostData) : M bool :=
  λ w r,
    let r := emit (Engage (postId post)) r in
    match page r with
    | PageNull => Done false w r
    | PageLive =>
        match script w with
        | [] => Pending r
        | t :: rest =>
            let '(w, r) := advanceClock (took t) (mkWorld rest (calls w) (randoms w)) r in
            Done (match page r with
                  | PageNull => false
                  | PageLive => commented t
                  end) w r
        end
    end.

(** ** The automation loop *)

Inductive Flow := Continue | Break.

Definition isClosure (message : string) : bool :=
  JS.includes message "Target page" || JS.includes message "Target closed"
  || JS.includes message "context closed" || JS.includes message "Browser closed".

(** "Keep tabbing until we find a different post ID": the loop that
    follows a posted comment and the one that follows a failed attempt
    (they differ in the log line). *)
Fixpoint advancePastPost (fuel : nat) (found : string) (currentPostId : string) : M string :=
  match fuel with
  | O => pending
  | S fuel =>
      press "Tab" >>
      waitForTimeout 300 >>
      let* checkPost := isInsidePost in
      match checkPost with
      | Some p =>
          if negb (String.eqb (postId p) "") && negb (String.eqb (postId p) currentPostId)
          then update (emit (Info found)) >> ret (postId p)
          else advancePastPost fuel found currentPostId
      | None => advancePastPost fuel found currentPostId
      end
  end.

Definition markSeen (id : string) (r : Runner) : Runner :=
  emit (SeenAdd id) (set_seenPostIds ({[id]} ∪ seenPostIds r) r).

Definition countComment (r : Runner) : Runner :=
  let s := sessionStats r in
  set_sessionStats (mkStats (commentsPosted s + 1) (likesGiven s) (connectionsRequested s)
                      (postsProcessed s) (errors s) (startTime s)) r.

Definition withOuterHTML (p : PostData) : PostData :=
  mkPost (postId p) (postHTML p) (postContent p) (authorName p) (Some (postHTML p)).

(** Optimized mode: ask the decision service whether to engage. *)
Definition approval (rt : Runtime) (postData : PostData) : M bool :=
  let* r := look in
  if optimizeEngagement r then
    let* decision := awaitDecision rt (withOuterHTML postData) in
    if negb (String.eqb (engage decision) "yes")
    then update (updateHUD [("action", text "Skipped"); ("postId", text (postId postData));
                            ("engage", text "NO")]) >>
         ret false
    else update (updateHUD [("action", text "Approved"); ("postId", text (postId postData));
                            ("engage", text "YES")]) >>
         ret true
  else ret true.

(** What follows [engageWithPost]. *)
Definition afterEngage (fuel : nat) (maxActions : JS.value) (t : Timing)
    (postData : PostData) (commented : bool) : M Flow :=
  if commented then
    update countComment >>
    let* r := look in
    update (emit (Remaining (JS.minus maxActions (commentsPosted (sessionStats r))))) >>
    update (updateHUD [("action", text "Comment Posted");
                       ("commentsPosted", int (commentsPosted (sessionStats r)));
                       ("maxComments", maxActions)]) >>
    let* u := Math_random in
    let cooldown := cooldownMin t + scaled u (cooldownMax t - cooldownMin t) in
    update (emit (Info "Post-comment cooldown")) >>
    waitForTimeout cooldown >>
    advancePastPost fuel "Found new post" (postId postData) >>
    ret Continue
  else
    update (emit (Warn "Failed to engage with post, skipping to next post")) >>
    update (updateHUD [("action", text "Skipped (Failed)"); ("postId", text (postId postData))]) >>
    advancePastPost fuel "Found new post after failure" (postId postData) >>
    ret Continue.

(** A post not seen before: mark it, ask for approval in optimized mode,
    engage. *)
Definition engagePost (rt : Runtime) (fuel : nat) (maxActions : JS.value) (t : Timing)
    (postData : PostData) : M Flow :=
  update (markSeen (postId postData)) >>
  let* r := look in
  update (updateHUD
            [("postId", text (postId postData));
             ("action", text (if optimizeEngagement r then "Analyzing..." else "Engaging"));
             ("engage", text (if optimizeEngagement r then "Checking..." else "YES"))]) >>
  let* approved := approval rt postData in
  if negb approved then ret Continue
  else
    update (updateHUD [("action", text "Posting Comment");
                       ("postId", text (postId postData));
                       ("engage", text "YES")]) >>
    let* commented := engageWithPost postData in
    afterEngage fuel maxActions t postData commented.

(** What the loop does with the result of [isInsidePost]. *)
Definition onFocus (rt : Runtime) (fuel : nat) (maxActions : JS.value) (t : Timing)
    (postData : option PostData) : M Flow :=
  match postData with
  | None => ret Continue
  | Some postData =>
      if String.eqb (postId postData) "" then ret Continue
      else
        let* r := look in
        if bool_decide (postId postData ∈ seenPostIds r)
        then update (emit (Info "Post already processed, skipping")) >> ret Continue
        else engagePost rt fuel maxActions t postData
  end.

(** The body of the inner [try] of the main loop. *)
Definition iteration (rt : Runtime) (fuel : nat) (maxActions : JS.value) : M Flow :=
  let* r := look in
  if stopRequested r
  then update (emit (Info "Stop requested, exiting automation loop gracefully")) >> ret Break
  else
    update (updateHUD [("lastKey", text "Tab")]) >>
    press "Tab" >>
    let* r := look in
    let t := default defaultTiming (timing r) in
    let* u := Math_random in
    let tabDelay := tabDelayMin t + scaled u (tabDelayMax t - tabDelayMin t) in
    waitForTimeout tabDelay >>
    let* r := look in
    if stopRequested r
    then update (emit (Info "Stop requested during Tab delay, exiting gracefully")) >> ret Break
    else
      let* postData := isInsidePost in
      onFocus rt fuel maxActions t postData.

(** The inner [try ... catch]: a closure error leaves the loop, any other
    error is logged and the loop goes on. *)
Definition guarded (body : M Flow) : M Flow :=
  catch body
    (λ error,
       if isClosure (errMessage error)
       then update (emit (Info "Browser/page closed during loop iteration, exiting gracefully")) >>
            ret Break
       else update (emit (Failure "Error in tab automation loop")) >> ret Continue).

(** [while (this.isPaused && this.keyboardLoopActive && !this.stopRequested)] *)
Fixpoint whilePaused (fuel : nat) (env : gmap string string) : M unit :=
  match fuel with
  | O => pending
  | S fuel =>
      let* r := look in
      if isPaused r && keyboardLoopActive r && negb (stopRequested r)
      then randomDelay env >> whilePaused fuel env
      else ret tt
  end.

(** [while (this.keyboardLoopActive && !this.stopRequested)] *)
Fixpoint automationLoop (fuel : nat) (rt : Runtime) (env : gmap string string)
    (maxActions : JS.value) : M unit :=
  match fuel with
  | O => pending
  | S fuel =>
      let* r := look in
      if keyboardLoopActive r && negb (stopRequested r) then
        whilePaused fuel env >>
        let* r := look in
        if negb (keyboardLoopActive r) || stopRequested r then ret tt
        else
          let* flow := guarded (iteration rt fuel maxActions) in
          match flow with
          | Break => ret tt
          | Continue => automationLoop fuel rt env maxActions
          end
      else ret tt
  end.

Definition resetComments (r : Runner) : Runner :=
  let s := sessionStats r in
  set_sessionStats (mkStats 0 (likesGiven s) (connectionsRequested s)
                      (postsProcessed s) (errors s) (startTime s)) r.

Definition startKeyboardAutomation (fuel : nat) (rt : Runtime) (env : gmap string string)
    : M unit :=
  let* r := look in
  if negb (isRunning r) || negb (hasPage r)
  then raise (Error "Runner not active")
  else if keyboardLoopActive r
  then raise (Error "Keyboard automation already running")
  else
    update (set_seenPostIds ∅) >>
    update (set_keyboardLoopActive true) >>
    let* limits := (λ w r, let '(v, r) := getThresholds env r in Done v w r) in
    let maxActions := JS.get limits "maxActions" in
    update resetComments >>
    finally
      (catch
         (update (updateHUD [("action", text "Tab Navigation Active"); ("postId", text "");
                             ("lastKey", text "Tab"); ("commentsPosted", int 0);
                             ("maxComments", maxActions)]) >>
          automationLoop fuel rt env maxActions >>
          update (emit (Info "Tab automation completed")))
         (λ error,
            if isClosure (errMessage error)
            then update (emit (Info "Browser/page closed during automation, stopping gracefully"))
            else update (emit (Failure "Tab automation failed")) >> raise error))
      (set_keyboardLoopActive false).

(** ** The navigation-retry state machine *)

(** What the browser does during one navigation attempt. *)
Record Attempt := mkAttempt {
  gotoFails : option string;      (* [page.goto] rejects with this message *)
  loginNeeded : bool;             (* [checkLoginRequired] *)
  loginCompleted : bool;          (* [waitForLogin] returns instead of throwing *)
  ready : bool;                   (* [waitForPageReadiness] *)
  screenshotTaken : bool;         (* [page.screenshot] succeeds *)
  traceSaved : bool;              (* [tracing.stop] and [tracing.start] succeed *)
  backoffFails : option string    (* the backoff [waitForTimeout] rejects *)
}.

Record Artifact := mkArtifact {
  artifactType : string;
  artifactPath : string;
  artifactAttempt : nat
}.

Record NavResult := mkNavResult {
  success : bool;
  hint : option string;
  artifacts : list Artifact
}.

Definition MAX_ATTEMPTS : nat := 3.
Definition BACKOFF_DELAYS : list Z := [2000; 4000; 6000].

(** [path.resolve(path.join(runsDir, name))], the session directory being
    absolute already. *)
Definition inRunsDir (runsDir name : string) : string := runsDir +:+ "/" +:+ name.

(** The [try] block of one attempt. *)
Definition attemptPage (a : Attempt) : Completion unit :=
  match gotoFails a with
  | Some message => Throws (Error message)
  | None =>
      if loginNeeded a && negb (loginCompleted a)
      then Throws (Error "User did not complete login within 5 minutes")
      else if ready a then Returns tt
      else Throws (Error "Readiness check failed - no stable selectors found")
  end.

(** The two captures of the [catch] block. *)
Definition captures (runsDir : string) (attempt : nat) (a : Attempt) : list Artifact :=
  (if screenshotTaken a
   then [mkArtifact "screenshot"
           (inRunsDir runsDir ("attempt-" +:+ pretty attempt +:+ "-failure.png")) attempt]
   else [])
  ++ (if traceSaved a
      then [mkArtifact "trace"
              (inRunsDir runsDir ("attempt-" +:+ pretty attempt +:+ "-trace.zip")) attempt]
      else []).

Definition captureEvents (found : list Artifact) (r : Runner) : Runner :=
  foldl (λ r x, emit (Capture (artifactType x) (artifactPath x)) r) r found.

(** The [for] loop from [attempt] on, [remaining] attempts being left. *)
Fixpoint navigateFrom (remaining attempt : nat) (feedUrl runsDir : string)
    (browser : nat → Attempt) (artifacts : list Artifact) (r : Runner)
    : Completion NavResult * Runner :=
  match remaining with
  | O =>
      (Returns (mkNavResult false
                  (Some ("LinkedIn didn't load after 3 attempts."
                         +:+ " Check login/connectivity and try again."))
                  artifacts),
       emit (Failure "All navigation attempts failed") r)
  | S remaining =>
      let a := browser attempt in
      let r := updateHUD [("action", text ("Loading LinkedIn (attempt " +:+ pretty attempt
                                           +:+ "/3)"))] r in
      let r := emit (Goto feedUrl) r in
      match attemptPage a with
      | Returns _ => (Returns (mkNavResult true None []), r)
      | Throws error =>
          let r := emit (Failure "Navigation attempt failed") r in
          let found := captures runsDir attempt a in
          let r := captureEvents found r in
          let artifacts := (artifacts ++ found)%list in
          if (attempt <? MAX_ATTEMPTS)%nat then
            let backoffDelay := default 0 (BACKOFF_DELAYS !! (attempt - 1)%nat) in
            let r := emit (Wait backoffDelay) r in
            match backoffFails a with
            | Some message => (Throws (Error message), r)
            | None =>
                navigateFrom remaining (S attempt) feedUrl runsDir browser artifacts
                  (elapse backoffDelay r)
            end
          else navigateFrom remaining (S attempt) feedUrl runsDir browser artifacts r
      end
  end.

Definition navigateToLinkedInWithRetries (feedUrl runsDir : string) (browser : nat → Attempt)
    (r : Runner) : Completion NavResult * Runner :=
  navigateFrom MAX_ATTEMPTS 1 feedUrl runsDir browser [] r.



Definition presses (r : Runner) : list string :=
  omap (λ e, match e with Press k => Some k | _ => None end) (events r).

(** The decide/act pipeline as the journal records it. *)
Definition decided (r : Runner) : list string :=
  omap (λ e, match e with Decide id => Some id | _ => None end) (events r).

Definition engaged (r : Runner) : list string :=
  omap (λ e, match e with Engage id => Some id | _ => None end) (events r).

Definition marked (r : Runner) : list string :=
  omap (λ e, match e with SeenAdd id => Some id | _ => None end) (events r).

(** ** Vocabulary of the properties *)

(** The ways a decision call fails.  The request is the one
    [checkEngagementDecision] sends, with its timeout of 180000 ms. *)
Inductive CallFails (rt : Runtime) (x : Exchange) : Prop :=
| RequestTimeout :
    180000 ≤ latency x → CallFails rt x
| NetworkError (e : JsError) :
    reply x = Rejects e → CallFails rt x
| BadStatus (resp : Response) :
    reply x = Responds resp → ok resp = false → CallFails rt x
| EmptyBody (resp : Response) (responseText : string) :
    reply x = Responds resp → ok resp = true → body resp = Returns responseText →
    JS.trim responseText = "" → CallFails rt x
| MalformedJson (resp : Response) (responseText : string) (e : JsError) :
    reply x = Responds resp → ok resp = true → body resp = Returns responseText →
    JSON_parse rt responseText = Throws e → CallFails rt x.


(** The values [errorInfo.errorType] can take. *)
Definition errorTypes : list string :=
  ["UNKNOWN"; "TIMEOUT"; "DNS_FAILURE"; "CONNECTION_REFUSED"; "CONNECTION_RESET";
   "NETWORK_TIMEOUT"; "BROKEN_PIPE"; "SSL_ERROR"; "FETCH_FAILED"].

(** The kinds section 4.6 of the specification lists (timeout, DNS failure,
    connection refused, connection reset, TLS failure, malformed response,
    empty response), under the labels the client has for the first five;
    it has no label for the last two. *)
Definition documentedKinds : list string :=
  ["TIMEOUT"; "DNS_FAILURE"; "CONNECTION_REFUSED"; "CONNECTION_RESET"; "SSL_ERROR";
   "MALFORMED_RESPONSE"; "EMPTY_RESPONSE"].

(** The text [response.text()] gave, when it gave one. *)
Definition readable (b : Completion string) : option string :=
  match b with
  | Returns text => Some text
  | Throws _ => None
  end.

(** ** Sample data *)

(** A double quote. *)
Definition dq : string := String (ascii_of_nat 34) "".

Definition verdictBody : string :=
  "{" +:+ dq +:+ "Engage" +:+ dq +:+ ":" +:+ dq +:+ "YES" +:+ dq +:+ "}".

(** A runtime whose [JSON.parse] knows [verdictBody] and rejects any other
    text. *)
Definition sampleRuntime : Runtime :=
  mkRuntime
    (λ s, if String.eqb s verdictBody
          then Returns (JS.Obj [("Engage", JS.Str "YES")])
          else Throws (mkError "SyntaxError" "Unexpected token" None))
    (λ _, Some "n8n.example").

Definition samplePost (id : string) : PostData :=
  mkPost id "<div data-id>...</div>" "Hiring engineers" "A. Author" None.

(** A runner after [start]: page open, session allocated, all delays 0. *)
Definition started : Runner :=
  mkRunner PageLive true ∅ ∅ true (Some "session-1700000000000") false false freshStats
    JS.Null false (Some (mkTiming 0 0 0 0 0 0)) false None false [] 0 [].

(** The same in optimized mode, with the decision webhook configured. *)
Definition optimized : Runner :=
  mkRunner PageLive true ∅ ∅ true (Some "session-1700000000000") false false freshStats
    JS.Null false (Some (mkTiming 0 0 0 0 0 0)) true
    (Some "https://n8n.example/webhook/linkedin-parse") false [] 0 [].

Definition answers (statusCode : Z) (reason : string) (b : Completion string) (ms : Z)
    : Exchange :=
  mkExchange ms (Responds (mkResponse statusCode reason b)).

Definition sampleRequest : Request :=
  mkRequest "https://n8n.example/webhook/linkedin-reply"
    (JS.Obj [("postId", JS.Str "urn:li:activity:1")]) None.

(** A browser on which nothing ever becomes ready while every capture
    works, and one on which only the screenshots work. *)
Definition neverReady : nat → Attempt :=
  λ _, mkAttempt None false true false true true None.



(** *** Specifications of awaited computations *)

(** From a world and a state satisfying [P], the computation [m] ends in a
    state satisfying [Q] if it returns, [E] if it throws, and [N] if the
    script ends first. *)
Definition triple {A : Type} (P : World → Runner → Prop) (m : M A)
    (Q : A → World → Runner → Prop) (E : JsError → World → Runner → Prop)
    (N : Runner → Prop) : Prop :=
  ∀ w r, P w r →
    match m w r with
    | Done a w' r' => Q a w' r'
    | Raised e w' r' => E e w' r'
    | Pending r' => N r'
    end.

(** The state a computation leaves, however it ends. *)
Definition final {A : Type} (s : Step A) : Runner :=
  match s with
  | Done _ _ r => r
  | Raised _ _ r => r
  | Pending r => r
  end.

(** *** The decide/act pipeline *)

Definition isPipeline (e : Event) : bool :=
  match e with
  | SeenAdd _ | Decide _ | Engage _ => true
  | _ => false
  end.

(** In a journal, every [Decide id] and [Engage id] comes after a
    [SeenAdd id]. *)
Definition Ordered (l : list Event) : Prop :=
  ∀ pre e post id,
    l = (pre ++ e :: post)%list → e = Decide id ∨ e = Engage id → SeenAdd id ∈ pre.

(** The invariant of a session: nothing decided or engaged twice, the
    order above, and - while the page is there - every identifier marked
    still in [seenPostIds]. *)
Definition Once (r : Runner) : Prop :=
  NoDup (decided r) ∧ NoDup (engaged r) ∧ Ordered (events r)
  ∧ (page r = PageLive → ∀ id, id ∈ marked r → id ∈ seenPostIds r).

(** A step that leaves the pipeline alone: it adds no pipeline event, it
    does not bring a page back, and if the page is still there the set of
    seen posts is what it was. *)
Definition benign (r r' : Runner) : Prop :=
  ∃ extra,
    journal r' = (journal r ++ extra)%list
    ∧ Forall (λ e, isPipeline e = false) extra.*2
    ∧ (page r' = PageLive → page r = PageLive ∧ seenPostIds r' = seenPostIds r).

(** A computation all of whose outcomes are benign. *)
Definition quiet {A : Type} (m : M A) : Prop :=
  ∀ w r, benign r (final (m w r)).

(** A session in the middle of its loop, two comments posted, and the
    disk as [stop] finds it. *)
Definition running : Runner :=
  mkRunner PageLive true {["urn:li:activity:1"; "urn:li:activity:2"]} ∅ true
    (Some "session-1700000000000") false false (mkStats 2 0 0 0 0 (Some 1700000000000))
    JS.Null true (Some (mkTiming 0 0 0 0 0 0)) false None true [] 1700000600000 [].

Definition disk : StopEnv := mkStopEnv "/srv/linkright-runner" true (Some "video-1.webm").

(** The state between marking a post as seen and engaging with it, and
    the state before the decision is asked for. *)
Definition Armed (id : string) (r : Runner) : Prop :=
  Once r ∧ SeenAdd id ∈ events r ∧ id ∉ engaged r.

Definition Fresh (id : string) (r : Runner) : Prop :=
  Armed id r ∧ id ∉ decided r.

(** Ticks and worlds for the loop: a call during which nothing is in
    focus, and one during which the post [id] is (and a comment on it goes
    through). *)
Definition idle : Tick :=
  mkTick None None (mkExchange 0 (Rejects (Error "unreachable"))) false 0.

Definition focus (id : string) : Tick :=
  mkTick None (Some (samplePost id)) (mkExchange 0 (Rejects (Error "unreachable"))) true 0.

(** Post A is engaged with, then B, and then the focus comes back to A
    three times. *)
Definition revisits : World :=
  mkWorld [idle; idle; focus "A"; focus "A"; idle; idle; idle; focus "B";
           idle; idle; focus "B"; focus "B"; idle; idle; idle; focus "A";
           idle; idle; focus "A"; idle; idle; focus "A"; idle; idle; focus "A"]
    [] [].

(** A page on which the focus never leaves post A. *)
Definition stuckOn (n : nat) : World := mkWorld (replicate n (focus "A")) [] [].

(** The state in which both stop flags are set while the page is open. *)
Definition stopping : Runner := set_stopRequested true (set_keyboardLoopActive false running).

(** Applies [f] to the state a computation leaves. *)
Definition onFinal {A : Type} (f : Runner → Runner) (s : Step A) : Step A :=
  match s with
  | Done a w r => Done a w (f r)
  | Raised e w r => Raised e w (f r)
  | Pending r => Pending (f r)
  end.

Definition setStopFlags (stop active : bool) (r : Runner) : Runner :=
  set_stopRequested stop (set_keyboardLoopActive active r).

(** The values [JSON.parse] gives that the request client accepts. *)
Definition isContainer (v : JS.value) : bool :=
  match v with
  | JS.Obj _ | JS.Arr _ => true
  | _ => false
  end.

(** [getStatus] *)
Definition getStatus (env : gmap string string) (r : Runner) : JS.value :=
  let limit name fallback :=
    JS.Num (JS.orNumber (JS.parseInt (getenv env name)) (JS.Fin fallback)) in
  JS.Obj [("isRunning", flag (isRunning r));
          ("keyboardLoopActive", flag (keyboardLoopActive r));
          ("isPaused", flag (isPaused r));
          ("status", text (if isPaused r then "paused"
                           else if keyboardLoopActive r then "running" else "stopped"));
          ("stats", statsValue (sessionStats r));
          ("thresholds",
           JS.Obj [("maxComments", limit "MAX_COMMENTS_PER_SESSION" 20);
                   ("maxLikes", limit "MAX_LIKES_PER_SESSION" 50);
                   ("maxConnections", limit "MAX_CONNECTIONS_PER_SESSION" 10)]);
          ("sessionId", nullable (sessionId r))].

(** The events of a runner that only waits: log lines, HUD pushes and
    timeouts. *)
Definition isWaiting (e : Event) : bool :=
  match e with
  | Wait _ | Hud _ | Info _ | Warn _ | Failure _ => true
  | _ => false
  end.

(** [r'] is [r] held in pause: still paused, and only waiting since. *)
Definition Held (r0 : Runner) (w : World) (r : Runner) : Prop :=
  calls w = [] ∧ isPaused r = true
  ∧ ∃ extra, events r = (events r0 ++ extra)%list ∧ Forall (λ e, isWaiting e = true) extra.

Definition Waited (r0 r : Runner) : Prop :=
  ∃ extra, events r = (events r0 ++ extra)%list ∧ Forall (λ e, isWaiting e = true) extra.

(** The draw [Math.random()] gives next. *)
Definition nextDraw (w : World) : Z :=
  match randoms w with
  | [] => 0
  | u :: _ => u mod 2 ^ 53
  end.

(** The bounds of [randomDelay], read from the environment. *)
Definition minActionDelay (env : gmap string string) : Z :=
  JS.toInteger (JS.orNumber (JS.parseInt (getenv env "MIN_ACTION_DELAY_MS")) (JS.Fin 3000)).

Definition maxActionDelay (env : gmap string string) : Z :=
  JS.toInteger (JS.orNumber (JS.parseInt (getenv env "MAX_ACTION_DELAY_MS")) (JS.Fin 8000)).

(** Computations that leave the pause flag alone as long as no control
    call is served. *)
Definition calm {A : Type} (m : M A) : Prop :=
  ∀ w r,
    calls w = [] →
    isPaused (final (m w r)) = isPaused r
    ∧ ∀ a w' r', m w r = Done a w' r' → calls w' = [].


(** A world in which three posts come into focus one after the other and
    every comment goes through. *)
Definition threePosts : World :=
  mkWorld [idle; idle; focus "A"; focus "A"; idle; idle; idle; focus "B";
           idle; idle; focus "B"; focus "B"; idle; idle; idle; focus "C";
           idle; idle; focus "C"; focus "C"; idle; idle; idle; focus "D"]
    [] [].

(** ** The reply service client

    [callWebhookFromRunner] asks the reply endpoint for a comment.  Its
    whole body is one [try]; the [catch] logs and answers [null].  The
    URL and the token only go into the request, which the exchange stands
    for. *)







(** ** [start] *)

Definition set_context (v : bool) (r : Runner) : Runner :=
  mkRunner (page r) v (seenPostIds r) (domCache r) (isRunning r) (sessionId r)
    (stopRequested r) (isPaused r) (sessionStats r) (thresholds r) (thresholdsValidated r)
    (timing r) (optimizeEngagement r) (postAnalysisWebhook r) (keyboardLoopActive r)
    (hudState r) (clock r) (journal r).
Definition set_sessionId (v : option string) (r : Runner) : Runner :=
  mkRunner (page r) (context r) (seenPostIds r) (domCache r) (isRunning r) v
    (stopRequested r) (isPaused r) (sessionStats r) (thresholds r) (thresholdsValidated r)
    (timing r) (optimizeEngagement r) (postAnalysisWebhook r) (keyboardLoopActive r)
    (hudState r) (clock r) (journal r).

(** What the machine does while the session is set up: each entry is the
    message of the exception the step throws, if it throws. *)
Record Launch := mkLaunch {
  launchFails : option string;   (* creating the directories, launching the context *)
  pageFails : option string;     (* starting the trace, opening the page *)
  hudFails : option string;      (* default timeout, HUD injection, stop hotkeys *)
  frontFails : option string     (* [page.bringToFront] *)
}.

Definition artifactValue (a : Artifact) : JS.value :=
  JS.Obj [("type", JS.Str (artifactType a)); ("path", JS.Str (artifactPath a));
          ("attempt", JS.Num (JS.Fin (Z.of_nat (artifactAttempt a))))].

(** The [catch] of [start]: clean up and answer a structured error. *)
Definition startError (message : string) (r : Runner) : Completion JS.value * Runner :=
  let r := emit (Failure "Failed to start runner") r in
  let r := cleanup r in
  (Returns (JS.Obj [("success", flag false); ("code", text "START_ERROR");
                    ("hint", text ("Failed to start: " +:+ message));
                    ("sessionId", nullable (sessionId r))]),
   r).

Definition markStarted (r : Runner) : Runner :=
  let s := sessionStats r in
  set_sessionStats (mkStats (commentsPosted s) (likesGiven s) (connectionsRequested s)
                      (postsProcessed s) (errors s) (Some (clock r)))
    (set_isRunning true (set_page PageLive r)).

Definition start (feedUrl : option string) (env : gmap string string) (projectDir : string)
    (launch : Launch) (browser : nat → Attempt) (r : Runner)
    : Completion JS.value * Runner :=
  if isRunning r then (Throws (Error "Runner already active"), r)
  else
    let r := emit (Info "Starting Playwright runner...") r in
    let sid := "session-" +:+ pretty (clock r) in
    let r := set_stopRequested false (set_sessionId (Some sid) r) in
    let FEED_URL :=
      JS.ToString (JS.or (JS.or (from_option JS.Str JS.Undefined feedUrl)
                            (getenv env "LINKEDIN_FEED_URL"))
                     (JS.Str "https://www.linkedin.com/feed/")) in
    let runsDir := projectDir +:+ "/runs/" +:+ sid in
    match launchFails launch with
    | Some message => startError message r
    | None =>
        let r := set_context true r in
        match pageFails launch with
        | Some message => startError message r
        | None =>
            let r := markStarted r in
            match hudFails launch with
            | Some message => startError message r
            | None =>
                match navigateToLinkedInWithRetries FEED_URL runsDir browser r with
                | (Throws error, r) => startError (errMessage error) r
                | (Returns navResult, r) =>
                    if negb (success navResult) then
                      let r := cleanup r in
                      (Returns
                         (JS.Obj [("success", flag false); ("code", text "NAV_TIMEOUT");
                                  ("hint",
                                   JS.or (nullable (hint navResult))
                                     (text ("LinkedIn didn't load. "
                                            +:+ "Check login/connectivity and try again.")));
                                  ("sessionId", nullable (sessionId r));
                                  ("artifacts", JS.Arr (artifactValue <$> artifacts navResult))]),
                       r)
                    else
                      match frontFails launch with
                      | Some message => startError message r
                      | None =>
                          let r := emit (Info "Page brought to front") r in
                          let r := updateHUD [("action", text "Ready - Logged in")] r in
                          (Returns
                             (JS.Obj [("success", flag true);
                                      ("message", text "Runner started successfully");
                                      ("stats", statsValue (sessionStats r));
                                      ("sessionId", nullable (sessionId r));
                                      ("runsDir", text runsDir)]),
                           r)
                      end
                end
            end
        end
    end.

Definition cleanLaunch : Launch := mkLaunch None None None None.

(** A browser on which the page is ready at the second attempt. *)
Definition readyAtSecond : nat → Attempt :=
  λ k, mkAttempt None false true (2 <=? k)%nat true true None.

(** ** Batched requests

    The request queue and its timer are fields no other method reads;
    they are modelled on their own.  [sentBatches] records the arrays
    handed to [batchWebhookRequests]. *)

(** An entry of the array [Promise.allSettled] resolves to. *)
Inductive Settled (A : Type) :=
| Fulfilled (value : A)
| Rejected (reason : JsError).
Arguments Fulfilled {A} value.
Arguments Rejected {A} reason.

Definition settle {A : Type} (c : Completion A) : Settled A :=
  match c with
  | Returns a => Fulfilled a
  | Throws e => Rejected e
  end.

Definition batchSize : nat := 5.

(** [for (let i = 0; i < requests.length; i += this.batchSize)
      batches.push(requests.slice(i, i + this.batchSize))];
    [fuel] bounds the number of rounds. *)
Fixpoint batchesFrom {A : Type} (fuel : nat) (requests : list A) : list (list A) :=
  match fuel with
  | O => []
  | S fuel =>
      match requests with
      | [] => []
      | _ => take batchSize requests :: batchesFrom fuel (drop batchSize requests)
      end
  end.

Definition batches {A : Type} (requests : list A) : list (list A) :=
  batchesFrom (List.length requests) requests.

(** [processBatch]: every request of the batch is sent; each outcome is
    settled, so the promise never rejects.  The outcome of a request does
    not depend on the state of the runner. *)
Definition processBatch (rt : Runtime) (batch : list (Request * Exchange)) (r : Runner)
    : list (Settled JS.value) :=
  (λ sent, settle (executeWebhookRequest rt sent.1 sent.2 r).1) <$> batch.

(** [batchWebhookRequests]: the outer [Promise.allSettled] settles each
    batch; [flat()] finds objects, not arrays, and leaves them. *)
Definition batchWebhookRequests (rt : Runtime) (requests : list (Request * Exchange))
    (r : Runner) : list (Settled (list (Settled JS.value))) :=
  match requests with
  | [] => []
  | _ => (λ batch, Fulfilled (processBatch rt batch r)) <$> batches requests
  end.

Record Batcher := mkBatcher {
  requestQueue : list Request;
  batchTimer : bool;             (* [_batchTimer] holds a handle *)
  timerPending : bool;           (* a timer is armed and has not fired *)
  sentBatches : list (list Request)
}.

Definition newBatcher : Batcher := mkBatcher [] false false [].

(** [processRequestQueue], up to its first [await]. *)
Definition processRequestQueue (b : Batcher) : Batcher :=
  match requestQueue b with
  | [] => b
  | requests =>
      mkBatcher [] false (if batchTimer b then false else timerPending b)
        (sentBatches b ++ [requests])
  end.

Definition addToRequestQueue (request : Request) (b : Batcher) : Batcher :=
  let b := mkBatcher (requestQueue b ++ [request]) (batchTimer b) (timerPending b)
             (sentBatches b) in
  if (batchSize <=? List.length (requestQueue b))%nat then processRequestQueue b
  else if negb (batchTimer b)
       then mkBatcher (requestQueue b) true true (sentBatches b)
       else b.

(** The timer fires, if one is armed. *)
Definition fireBatchTimer (b : Batcher) : Batcher :=
  if timerPending b
  then processRequestQueue (mkBatcher (requestQueue b) (batchTimer b) false (sentBatches b))
  else b.

(** What [cleanupTempData] does to the queue. *)
Definition clearRequestQueue (b : Batcher) : Batcher :=
  mkBatcher [] (batchTimer b) (timerPending b) (sentBatches b).

Inductive QueueStep :=
| Add (request : Request)
| Fire
| Cleanup.

Definition queueStep (b : Batcher) (s : QueueStep) : Batcher :=
  match s with
  | Add request => addToRequestQueue request b
  | Fire => fireBatchTimer b
  | Cleanup => clearRequestQueue b
  end.

Definition added (steps : list QueueStep) : list Request :=
  omap (λ s, match s with Add request => Some request | _ => None end) steps.

(** The queue as [addToRequestQueue] and the timer keep it: fewer than
    five requests, and a timer armed exactly when there is one. *)
Definition Queued (b : Batcher) : Prop :=
  (List.length (requestQueue b) < batchSize)%nat
  ∧ batchTimer b = timerPending b
  ∧ (timerPending b = true ↔ requestQueue b ≠ []).


(** ** The control API

    The routes under [/api] of the Express server, with the middleware
    that guards them.  The routes that read or write files (the log and
    the stored settings) are left out. *)

Definition set_thresholds (v : JS.value) (r : Runner) : Runner :=
  mkRunner (page r) (context r) (seenPostIds r) (domCache r) (isRunning r) (sessionId r)
    (stopRequested r) (isPaused r) (sessionStats r) v (thresholdsValidated r)
    (timing r) (optimizeEngagement r) (postAnalysisWebhook r) (keyboardLoopActive r)
    (hudState r) (clock r) (journal r).
Definition set_timing (v : option Timing) (r : Runner) : Runner :=
  mkRunner (page r) (context r) (seenPostIds r) (domCache r) (isRunning r) (sessionId r)
    (stopRequested r) (isPaused r) (sessionStats r) (thresholds r) (thresholdsValidated r)
    v (optimizeEngagement r) (postAnalysisWebhook r) (keyboardLoopActive r)
    (hudState r) (clock r) (journal r).
Definition set_optimizeEngagement (v : bool) (r : Runner) : Runner :=
  mkRunner (page r) (context r) (seenPostIds r) (domCache r) (isRunning r) (sessionId r)
    (stopRequested r) (isPaused r) (sessionStats r) (thresholds r) (thresholdsValidated r)
    (timing r) v (postAnalysisWebhook r) (keyboardLoopActive r)
    (hudState r) (clock r) (journal r).
Definition set_postAnalysisWebhook (v : option string) (r : Runner) : Runner :=
  mkRunner (page r) (context r) (seenPostIds r) (domCache r) (isRunning r) (sessionId r)
    (stopRequested r) (isPaused r) (sessionStats r) (thresholds r) (thresholdsValidated r)
    (timing r) (optimizeEngagement r) v (keyboardLoopActive r)
    (hudState r) (clock r) (journal r).

Record HttpReply := mkReply {
  replyStatus : Z;
  replyJson : JS.value
}.

Definition errorBody (message : string) : JS.value := JS.Obj [("error", text message)].

(** [authMiddleware]: [None] stands for the call of [next()].  [token] is
    the [x-runner-token] header, if the request has one. *)
Definition authMiddleware (env : gmap string string) (token : option string)
    : option HttpReply :=
  let missing (v : option string) := negb (JS.truthy (from_option JS.Str JS.Undefined v)) in
  if missing (env !! "RUNNER_TOKEN")
  then Some (mkReply 500 (errorBody "Server configuration error"))
  else if missing token
  then Some (mkReply 401 (errorBody "Authentication required. Provide x-runner-token header."))
  else if negb (bool_decide (token = env !! "RUNNER_TOKEN"))
  then Some (mkReply 401 (errorBody "Invalid token"))
  else None.

(** A [{ min, max }] entry of the timing sent by the extension, and the
    body of the start-keyboard request.  The timing values are the
    integers the extension sends; the webhook is a string when given. *)
Record Range := mkRange {
  rangeMin : option Z;
  rangeMax : option Z
}.

Record TimingBody := mkTimingBody {
  waitAction : option Range;
  waitAfterComment : option Range;
  waitBetweenComments : option Range
}.

Record KeyboardBody := mkKeyboardBody {
  bodyTiming : option TimingBody;
  bodyThresholds : JS.value;
  bodyOptimizeEngagement : JS.value;
  bodyPostAnalysisWebhook : option string
}.

(** [range?.side || fallback] *)
Definition orDefault (range : option Range) (side : Range → option Z) (fallback : Z) : Z :=
  match range ≫= side with
  | Some n => if n =? 0 then fallback else n
  | None => fallback
  end.

Definition timingOf (t : TimingBody) : Timing :=
  mkTiming (orDefault (waitAction t) rangeMin (tabDelayMin defaultTiming))
    (orDefault (waitAction t) rangeMax (tabDelayMax defaultTiming))
    (orDefault (waitAfterComment t) rangeMin (pasteDelayMin defaultTiming))
    (orDefault (waitAfterComment t) rangeMax (pasteDelayMax defaultTiming))
    (orDefault (waitBetweenComments t) rangeMin (cooldownMin defaultTiming))
    (orDefault (waitBetweenComments t) rangeMax (cooldownMax defaultTiming)).

Definition thresholdsOf (given : JS.value) : JS.value :=
  JS.Obj [("minLikes", JS.or (JS.Num (JS.parseInt (JS.get given "minReactions")))
                          (JS.get defaults "minLikes"));
          ("minComments", JS.or (JS.Num (JS.parseInt (JS.get given "minComments")))
                             (JS.get defaults "minComments"));
          ("minReposts", JS.or (JS.Num (JS.parseInt (JS.get given "minReposts")))
                            (JS.get defaults "minReposts"));
          ("maxActions", JS.or (JS.Num (JS.parseInt (JS.get given "maxActions")))
                            (JS.get defaults "maxActions"))].

(** What the start-keyboard route stores on the runner. *)
Definition configure (body : KeyboardBody) (r : Runner) : Runner :=
  let r := match bodyTiming body with
           | Some t => set_timing (Some (timingOf t)) r
           | None => r
           end in
  let r := if JS.truthy (bodyThresholds body)
           then set_thresholds (thresholdsOf (bodyThresholds body)) r
           else r in
  let r := set_optimizeEngagement (JS.truthy (bodyOptimizeEngagement body)) r in
  set_postAnalysisWebhook (bodyPostAnalysisWebhook body) r.

(** The part of [startKeyboardAutomation] that runs before the route
    goes on: up to the first [await]. *)
Definition automationPrefix (env : gmap string string) (r : Runner) : Runner :=
  if negb (isRunning r) || negb (hasPage r) || keyboardLoopActive r then r
  else
    let r := set_keyboardLoopActive true (set_seenPostIds ∅ r) in
    let '(limits, r) := getThresholds env r in
    let r := resetComments r in
    updateHUD [("action", text "Tab Navigation Active"); ("postId", text "");
               ("lastKey", text "Tab"); ("commentsPosted", int 0);
               ("maxComments", JS.get limits "maxActions")] r.

Definition timingValue (t : option Timing) : JS.value :=
  match t with
  | None => JS.Null
  | Some t =>
      JS.Obj [("tabDelayMin", int (tabDelayMin t)); ("tabDelayMax", int (tabDelayMax t));
              ("pasteDelayMin", int (pasteDelayMin t)); ("pasteDelayMax", int (pasteDelayMax t));
              ("cooldownMin", int (cooldownMin t)); ("cooldownMax", int (cooldownMax t));
              ("webhookWaitMin", JS.get defaults "webhookWaitMin");
              ("webhookWaitMax", JS.get defaults "webhookWaitMax")]
  end.

(** The machine [start] runs on. *)
Record Machine := mkMachine {
  machineDir : string;
  launching : Launch;
  browsing : nat → Attempt
}.

Inductive Route :=
| PostStart
| PostStop
| PostPause
| PostResume
| GetStatus
| PostStartKeyboard (body : KeyboardBody).

Record ApiRequest := mkApiRequest {
  route : Route;
  runnerToken : option string
}.

Definition startRoute (env : gmap string string) (m : Machine) (r : Runner)
    : HttpReply * Runner :=
  if isRunning r
  then (mkReply 400 (JS.Obj [("error", text "Runner already active");
                             ("status", getStatus env r)]), r)
  else match start None env (machineDir m) (launching m) (browsing m) r with
       | (Returns answer, r) => (mkReply 200 answer, r)
       | (Throws error, r) =>
           (mkReply 500 (JS.Obj [("error", text "Failed to start runner");
                                 ("message", text (errMessage error))]), r)
       end.

Definition stopRoute (r : Runner) : HttpReply * Runner :=
  if negb (isRunning r) then (mkReply 400 (errorBody "Runner not active"), r)
  else let '(answer, r) := stop r in (mkReply 200 answer, r).

Definition pauseRoute (env : gmap string string) (r : Runner) : HttpReply * Runner :=
  if negb (isRunning r) || negb (keyboardLoopActive r)
  then (mkReply 400 (JS.Obj [("error", text "No active automation to pause");
                             ("status", getStatus env r)]), r)
  else
    let '(answer, r) := pause r in
    if negb (JS.truthy (JS.get answer "success")) then (mkReply 400 answer, r)
    else (mkReply 200 (JS.Obj [("success", flag true); ("message", text "Automation paused");
                               ("status", getStatus env r)]), r).

Definition resumeRoute (env : gmap string string) (r : Runner) : HttpReply * Runner :=
  if negb (isRunning r) || negb (keyboardLoopActive r)
  then (mkReply 400 (JS.Obj [("error", text "No active automation to resume");
                             ("status", getStatus env r)]), r)
  else if negb (isPaused r)
  then (mkReply 400 (JS.Obj [("error", text "Automation is not paused");
                             ("status", getStatus env r)]), r)
  else
    let '(answer, r) := resume r in
    if negb (JS.truthy (JS.get answer "success")) then (mkReply 400 answer, r)
    else (mkReply 200 (JS.Obj [("success", flag true); ("message", text "Automation resumed");
                               ("status", getStatus env r)]), r).

(** The start-keyboard route.  The state it answers with is the one the
    automation is started from; the reply is built once the automation
    has run up to its first [await]. *)
Definition startKeyboardRoute (env : gmap string string) (body : KeyboardBody) (r : Runner)
    : HttpReply * Runner :=
  if negb (isRunning r)
  then (mkReply 400
          (errorBody "Runner not active. Start runner first with POST /api/runner/start"), r)
  else if keyboardLoopActive r
  then (mkReply 400 (errorBody "Keyboard automation already running"), r)
  else
    let r := configure body r in
    let begun := automationPrefix env r in
    (mkReply 200
       (JS.Obj [("success", flag true); ("message", text "Keyboard automation started");
                ("mode", text (if optimizeEngagement begun then "Optimized" else "Default"));
                ("thresholds", (getThresholds env begun).1);
                ("timing", timingValue (timing begun));
                ("stats", statsValue (sessionStats begun))]),
     r).

Definition dispatch (env : gmap string string) (m : Machine) (rt : Route) (r : Runner)
    : HttpReply * Runner :=
  match rt with
  | PostStart => startRoute env m r
  | PostStop => stopRoute r
  | PostPause => pauseRoute env r
  | PostResume => resumeRoute env r
  | GetStatus => (mkReply 200 (getStatus env r), r)
  | PostStartKeyboard body => startKeyboardRoute env body r
  end.

(** [app.use('/api', authMiddleware)] in front of the routes. *)
Definition handle (env : gmap string string) (m : Machine) (req : ApiRequest) (r : Runner)
    : HttpReply * Runner :=
  match authMiddleware env (runnerToken req) with
  | Some refusal => (refusal, r)
  | None => dispatch env m (route req) r
  end.

Definition controlRoute (c : Control) : Route :=
  match c with
  | CallPause => PostPause
  | CallResume => PostResume
  | CallStop => PostStop
  end.

Definition sampleMachine : Machine :=
  mkMachine "/srv/linkright-runner" cleanLaunch readyAtSecond.

Definition configured : gmap string string := {["RUNNER_TOKEN" := "s3cret"]}.

(* ================================================================== *)
(** * Properties *)
(* ================================================================== *)

(** ** Sanity checks of the JavaScript primitives *)

Example parseInt_decimal : JS.parseInt (JS.Str "  42px") = JS.Fin 42.
Proof. reflexivity. Qed.
Example parseInt_negative : JS.parseInt (JS.Num (JS.Fin (-5))) = JS.Fin (-5).
Proof. vm_compute. reflexivity. Qed.
Example parseInt_hex : JS.parseInt (JS.Str "0x1F") = JS.Fin 31.
Proof. reflexivity. Qed.
Example parseInt_words : JS.parseInt (JS.Str "ten") = JS.NaN.
Proof. reflexivity. Qed.
Example parseInt_undefined : JS.parseInt JS.Undefined = JS.NaN.
Proof. reflexivity. Qed.
Example parseInt_array : JS.parseInt (JS.Arr [JS.Num (JS.Fin 7); JS.Null]) = JS.Fin 7.
Proof. vm_compute. reflexivity. Qed.
Example includes_middle : JS.includes "read ECONNRESET now" "ECONNRESET" = true.
Proof. reflexivity. Qed.
Example trim_blank : JS.trim (String (ascii_of_nat 10) "  ") = "".
Proof. reflexivity. Qed.
Example getThresholds_zero :
  (getThresholds ∅ (withMaxActions (JS.Num (JS.Fin 0)))).1
  = JS.Obj [("maxActions", JS.Num (JS.Fin 10))].
Proof. reflexivity. Qed.
Example getThresholds_negative :
  (getThresholds ∅ (withMaxActions (JS.Num (JS.Fin (-7))))).1
  = JS.Obj [("maxActions", JS.Num (JS.Fin 1))].
Proof. vm_compute. reflexivity. Qed.
Example getThresholds_text :
  (getThresholds ∅ (withMaxActions (JS.Str "many"))).1
  = JS.Obj [("maxActions", JS.Num (JS.Fin 10))].
Proof. reflexivity. Qed.
Example getThresholds_env :
  (getThresholds {["MAX_COMMENTS_PER_SESSION" := "25"]} newRunner).1
  = JS.Obj [("maxActions", JS.Num (JS.Fin 25))].
Proof. vm_compute. reflexivity. Qed.

(** ** [getThresholds] *)




(** ** The decision service client *)

(** Two equations on the same scrutinee are merged into one on their
    right-hand sides. *)
Ltac merge_equations :=
  repeat match goal with
         | H1 : ?a = _, H2 : ?a = _ |- _ => rewrite H1 in H2; simplify_eq
         end.

(** A failing call makes the request client throw, whatever it is asked
    to send. *)
Lemma executeWebhookRequest_throws (rt : Runtime) (req : Request) (x : Exchange)
    (r : Runner) :
  timeout req = Some 180000 →
  CallFails rt x →
  ∃ e r', executeWebhookRequest rt req x r = (Throws e, r').
Proof.
  intros Htimeout Hfails.
  unfold executeWebhookRequest, exchangeAttempt, fetch.
  rewrite Htimeout; unfold default; cbn [from_option id].
  destruct Hfails as [Hlate | e He | resp Hr Hok | resp t Hr Hok Hb Hblank
                     | resp t e Hr Hok Hb Hparse];
    try apply Z.leb_le in Hlate;
    repeat case_match; simplify_eq; eauto; try congruence; merge_equations;
    try (rewrite Hblank in *; discriminate);
    try (rewrite Hparse in *; discriminate).
Qed.

(** C1.  When the decision call is made (no fresh cached verdict stands in
    for it) and fails - by timeout, network error, non-2xx status, empty
    body or malformed JSON - [checkEngagementDecision] answers
    [engage = 'yes']. *)
Theorem checkEngagementDecision_fails_open (rt : Runtime) (post : PostData)
    (x : Exchange) (r : Runner) :
  freshEntry post r = None →
  CallFails rt x →
  engage (checkEngagementDecision rt post x r).1 = "yes".
Proof.
  intros Hmiss Hfails.
  unfold checkEngagementDecision.
  destruct (configuredWebhook r) as [webhook |]; [| reflexivity].
  rewrite Hmiss.
  destruct (executeWebhookRequest_throws rt (decisionRequest webhook post) x
              (updateHUD (waitingHud post) r) eq_refl Hfails) as (e & r' & ->).
  reflexivity.
Qed.



(** A timed-out decision call, evaluated. *)
Lemma checkEngagementDecision_fails_open_witness :
  engage (checkEngagementDecision sampleRuntime (samplePost "urn:li:activity:1")
            (answers 200 "OK" (Returns verdictBody) 200000) optimized).1 = "yes".
Proof.
  apply checkEngagementDecision_fails_open.
  - reflexivity.
  - apply RequestTimeout. cbn. lia.
Defined.


Example verdict_mixed_case :
  (checkEngagementDecision sampleRuntime (samplePost "urn:li:activity:1")
     (answers 200 "OK" (Returns verdictBody) 1200) optimized).1
  = mkDecision "yes" (JS.Str "urn:li:activity:1").
Proof. vm_compute. reflexivity. Qed.

(** ** The outbound request client *)

Lemma events_emit (e : Event) (r : Runner) : events (emit e r) = (events r ++ [e])%list.
Proof. unfold events, emit. cbn. now rewrite fmap_app. Qed.

Lemma errorTypeOf_known (e : JsError) : errorTypeOf e ∈ errorTypes.
Proof.
  unfold errorTypeOf, errorTypes.
  repeat case_match; set_solver.
Qed.

(** C5, as the code has it.  A request that was sent and fails is logged
    with one of the nine [errorType] labels and the same error is then
    rethrown (unless the DNS diagnosis itself throws on a URL that does
    not parse); a non-2xx answer is turned into the error only after the
    body was asked for, and the diagnostics carry its first 500
    characters whenever that read gave a text. *)
Theorem executeWebhookRequest_diagnoses (rt : Runtime) (req : Request) (x : Exchange)
    (r : Runner) :
  payload req ≠ JS.Undefined →
  let out := executeWebhookRequest rt req x r in
  (∀ e, out.1 = Throws e →
        (last (events out.2) = Some (Diagnosed (errorTypeOf e) e)
         ∧ errorTypeOf e ∈ errorTypes)
        ∨ (e = TypeError "Invalid URL" ∧ URL_hostname rt (url req) = None))
  ∧ (∀ resp, fetch (default 10000 (timeout req)) x = Returns resp → ok resp = false →
        (∃ e, out.1 = Throws e)
        ∧ HttpErrorLogged (status resp) (JS.prefix 500 <$> readable (body resp))
            ∈ events out.2).
Proof.
  intros Hpayload out. subst out.
  unfold executeWebhookRequest.
  set (timeoutMs := default 10000 (timeout req)).
  set (r1 := elapse _ _).
  assert (Hsame : (match payload req with
                   | JS.Undefined => true
                   | _ => false
                   end) = false) by (destruct (payload req); congruence).
  destruct (exchangeAttempt rt req timeoutMs x r1) as [attempt r2] eqn:Hattempt.
  split.
  - intros e He.
    destruct (payload req); try congruence;
      (destruct attempt as [parsed | error]; [discriminate He |];
       cbn [fst snd] in *;
       destruct (String.eqb (errorTypeOf error) "DNS_FAILURE"
                 && negb (bool_decide (is_Some (URL_hostname rt (url req))))) eqn:Hdns;
       cbn [fst snd] in *; simplify_eq;
       [ right; split; [reflexivity |];
         apply andb_true_iff in Hdns as [_ Hdns];
         apply negb_true_iff, bool_decide_eq_false in Hdns;
         destruct (URL_hostname rt (url req)); [exfalso; eauto | reflexivity]
       | left; split; [| apply errorTypeOf_known];
         rewrite events_emit, last_snoc; reflexivity ]).
  - intros resp Hfetch Hok.
    unfold exchangeAttempt in Hattempt. rewrite Hfetch, Hok in Hattempt.
    simplify_eq.
    destruct (payload req); try congruence;
      (split; [repeat case_match; cbn; eauto |];
       repeat case_match; cbn [fst snd];
       rewrite ?events_emit; set_solver).
Qed.

(** An HTTP 500 whose body cannot be read: the error is thrown with no
    body text captured, under a label that is none of the documented
    kinds. *)
Lemma executeWebhookRequest_http_500 :
  let out := executeWebhookRequest sampleRuntime sampleRequest
               (answers 500 "Internal Server Error" (Throws (Error "terminated")) 850)
               started in
  out.1 = Throws (Error "HTTP 500: Internal Server Error")
  ∧ events out.2
    = [Fetch "https://n8n.example/webhook/linkedin-reply" 10000;
       HttpErrorLogged 500 None;
       Diagnosed "UNKNOWN" (Error "HTTP 500: Internal Server Error")]
  ∧ "UNKNOWN" ∉ documentedKinds.
Proof.
  repeat split.
  apply (bool_decide_unpack _). vm_compute. exact I.
Qed.

(** A broken pipe, evaluated: logged as [BROKEN_PIPE], then rethrown. *)
Lemma executeWebhookRequest_diagnoses_witness :
  let e := mkError "TypeError" "fetch failed" (Some "EPIPE") in
  let out := executeWebhookRequest sampleRuntime sampleRequest (mkExchange 40 (Rejects e))
               started in
  last (events out.2) = Some (Diagnosed "BROKEN_PIPE" e).
Proof.
  intros e out.
  destruct (executeWebhookRequest_diagnoses sampleRuntime sampleRequest
              (mkExchange 40 (Rejects e)) started) as [Hlogged _].
  - discriminate.
  - destruct (Hlogged e eq_refl) as [[Hlast _] | [Hurl _]].
    + exact Hlast.
    + discriminate Hurl.
Defined.

(** ** The navigation-retry state machine *)

Lemma events_updateHUD (u : list (string * JS.value)) (r : Runner) :
  events (updateHUD u r) = (events r ++ if hasPage r then [Hud u] else [])%list.
Proof.
  unfold updateHUD, hasPage. destruct (page r).
  - now rewrite app_nil_r.
  - now rewrite events_emit.
Qed.

Lemma events_elapse (ms : Z) (r : Runner) : events (elapse ms r) = events r.
Proof. reflexivity. Qed.

Lemma events_captureEvents (found : list Artifact) (r : Runner) :
  events (captureEvents found r)
  = (events r ++ map (λ x, Capture (artifactType x) (artifactPath x)) found)%list.
Proof.
  unfold captureEvents. revert r.
  induction found as [| x found IH]; intros r; cbn.
  - now rewrite app_nil_r.
  - rewrite IH, events_emit, <- app_assoc. reflexivity.
Qed.



Lemma hasPage_emit (e : Event) (r : Runner) : hasPage (emit e r) = hasPage r.
Proof. reflexivity. Qed.

Lemma hasPage_elapse (ms : Z) (r : Runner) : hasPage (elapse ms r) = hasPage r.
Proof. reflexivity. Qed.

Lemma hasPage_updateHUD (u : list (string * JS.value)) (r : Runner) :
  hasPage (updateHUD u r) = hasPage r.
Proof. unfold updateHUD, hasPage. now destruct (page r) eqn:E; cbn; rewrite ?E. Qed.

Lemma hasPage_captureEvents (found : list Artifact) (r : Runner) :
  hasPage (captureEvents found r) = hasPage r.
Proof.
  unfold captureEvents. revert r.
  induction found as [| x found IH]; intros r; cbn; [reflexivity |].
  now rewrite IH.
Qed.

Create Rewrite HintDb journal.
#[local] Hint Rewrite events_emit events_elapse events_captureEvents events_updateHUD
  hasPage_emit hasPage_elapse hasPage_updateHUD hasPage_captureEvents : journal.

(** Neither a HUD push nor a capture is a navigation or a sleep. *)
Lemma omap_captures {A : Type} (f : Event → option A) (found : list Artifact) :
  (∀ k p, f (Capture k p) = None) →
  omap f (map (λ x, Capture (artifactType x) (artifactPath x)) found) = [].
Proof.
  intros Hf. induction found as [| x found IH]; cbn; [reflexivity |].
  now rewrite Hf.
Qed.

(** Spells out the events of a composed state and filters them. *)
Ltac journal :=
  autorewrite with journal;
  rewrite ?omap_app;
  rewrite ?omap_captures by reflexivity.




(** ** [stop] *)

(** C4, on the code.  The [stop] that the class ends up with returns
    [success], [message] and [stats] only: no [artifacts] field, and the
    [stopRequested] flag is left as it was. *)
Theorem stop_omits_artifacts (r : Runner) :
  JS.hasField (stop r).1 "stats" = true
  ∧ JS.hasField (stop r).1 "artifacts" = false
  ∧ JS.get (stop r).1 "artifacts" = JS.Undefined
  ∧ stopRequested (stop r).2 = stopRequested r
  ∧ keyboardLoopActive (stop r).2 = false.
Proof.
  unfold stop, stop_second, cleanupTempData.
  case_match; repeat split.
Qed.

(** On a running session: what [stop] answers, and what the first
    declaration of [stop] would have answered. *)
Example stop_running :
  (stop running).1
  = JS.Obj [("success", flag true); ("message", text "Runner stopped");
            ("stats", statsValue (mkStats 2 0 0 0 0 (Some 1700000000000)))]
  ∧ stopRequested (stop running).2 = false.
Proof. split; reflexivity. Qed.

Example stop_first_running :
  JS.get (stop_first disk running).1 "artifacts"
  = JS.Obj [("traceFile",
             text "/srv/linkright-runner/runs/session-1700000000000/trace.zip");
            ("videoFile",
             text "/srv/linkright-runner/runs/session-1700000000000/video-1.webm");
            ("sessionDir", text "/srv/linkright-runner/runs/session-1700000000000")]
  ∧ stopRequested (stop_first disk running).2 = true.
Proof. split; reflexivity. Qed.

(** ** Rules for awaited computations *)

Section Rules.
Context {A B : Type}.
Implicit Types (P : World → Runner → Prop) (N : Runner → Prop).
Implicit Types (E : JsError → World → Runner → Prop).

Lemma triple_ret P (a : A) (Q : A → World → Runner → Prop) E N :
  (∀ w r, P w r → Q a w r) → triple P (ret a) Q E N.
Proof. intros H w r HP. now apply H. Qed.

Lemma triple_bind P (m : M A) (k : A → M B) (Q' : A → World → Runner → Prop)
    (Q : B → World → Runner → Prop) E N :
  triple P m Q' E N → (∀ a, triple (Q' a) (k a) Q E N) → triple P (bind m k) Q E N.
Proof.
  intros Hm Hk w r HP. unfold bind.
  specialize (Hm w r HP). destruct (m w r) as [a w' r' | e w' r' | r']; auto.
  now apply Hk.
Qed.

Lemma triple_look P (k : Runner → M B) (Q : B → World → Runner → Prop) E N :
  (∀ r0, triple (λ w r, P w r ∧ r = r0) (k r0) Q E N) → triple P (bind look k) Q E N.
Proof. intros Hk w r HP. unfold bind, look. now apply (Hk r). Qed.

Lemma triple_update P (f : Runner → Runner) (Q : unit → World → Runner → Prop) E N :
  (∀ w r, P w r → Q tt w (f r)) → triple P (update f) Q E N.
Proof. intros H w r HP. now apply H. Qed.

Lemma triple_raise P (e : JsError) (Q : A → World → Runner → Prop) E N :
  (∀ w r, P w r → E e w r) → triple P (raise e) Q E N.
Proof. intros H w r HP. now apply H. Qed.

Lemma triple_pending P (Q : A → World → Runner → Prop) E N :
  (∀ w r, P w r → N r) → triple P pending Q E N.
Proof. intros H w r HP. now apply (H w). Qed.

Lemma triple_catch P (m : M A) (h : JsError → M A) (Q : A → World → Runner → Prop)
    (E' : JsError → World → Runner → Prop) E N :
  triple P m Q E' N → (∀ e, triple (E' e) (h e) Q E N) → triple P (catch m h) Q E N.
Proof.
  intros Hm Hh w r HP. unfold catch.
  specialize (Hm w r HP). destruct (m w r) as [a w' r' | e w' r' | r']; auto.
  now apply Hh.
Qed.

Lemma triple_finally P (m : M A) (f : Runner → Runner) (Q Q' : A → World → Runner → Prop)
    (E' : JsError → World → Runner → Prop) E N :
  triple P m Q' E' N →
  (∀ a w r, Q' a w r → Q a w (f r)) → (∀ e w r, E' e w r → E e w (f r)) →
  triple P (finally m f) Q E N.
Proof.
  intros Hm HQ HE w r HP. unfold finally.
  specialize (Hm w r HP). destruct (m w r) as [a w' r' | e w' r' | r']; auto.
Qed.

Lemma triple_weaken P P' (m : M A) (Q Q' : A → World → Runner → Prop)
    (E' : JsError → World → Runner → Prop) E N N' :
  triple P' m Q' E' N' →
  (∀ w r, P w r → P' w r) → (∀ a w r, Q' a w r → Q a w r) →
  (∀ e w r, E' e w r → E e w r) → (∀ r, N' r → N r) →
  triple P m Q E N.
Proof.
  intros Hm HP HQ HE HN w r Hw.
  specialize (Hm w r (HP w r Hw)). destruct (m w r); auto.
Qed.

End Rules.

(** ** Steps that leave the pipeline alone *)

(** Reads fields through the assignments made to the state. *)
Ltac state :=
  cbn [page context seenPostIds domCache isRunning sessionId stopRequested isPaused
       sessionStats thresholds thresholdsValidated timing optimizeEngagement
       postAnalysisWebhook keyboardLoopActive hudState clock journal
       set_page set_seenPostIds set_domCache set_isRunning set_stopRequested set_isPaused
       set_sessionStats set_thresholdsValidated set_keyboardLoopActive set_hudState
       set_clock set_journal emit elapse cleanup resetStats fst snd] in *.

Lemma benign_refl (r : Runner) : benign r r.
Proof. exists []. rewrite app_nil_r. repeat split; auto. Qed.

Lemma benign_events (r r' : Runner) :
  benign r r' →
  ∃ extra, events r' = (events r ++ extra)%list
           ∧ Forall (λ e, isPipeline e = false) extra
           ∧ (page r' = PageLive → page r = PageLive ∧ seenPostIds r' = seenPostIds r).
Proof.
  intros (extra & Hj & Hx & Hp). exists extra.*2.
  unfold events. now rewrite Hj, fmap_app.
Qed.

Lemma benign_trans (r1 r2 r3 : Runner) : benign r1 r2 → benign r2 r3 → benign r1 r3.
Proof.
  intros (x1 & He1 & Hx1 & Hp1) (x2 & He2 & Hx2 & Hp2).
  exists (x1 ++ x2)%list. split; [| split].
  - now rewrite He2, He1, app_assoc.
  - rewrite fmap_app. now apply Forall_app.
  - intros Hlive. destruct (Hp2 Hlive) as [Hlive2 Hseen2].
    destruct (Hp1 Hlive2) as [Hlive1 Hseen1]. split; congruence.
Qed.

(** A step that changes neither the journal, nor the page, nor the set. *)
Lemma benign_silent (r r' : Runner) :
  journal r' = journal r → page r' = page r → seenPostIds r' = seenPostIds r →
  benign r r'.
Proof.
  intros Hj Hp Hs. exists []. rewrite Hj, app_nil_r.
  repeat split; try constructor; congruence.
Qed.

Lemma benign_emit (e : Event) (r : Runner) : isPipeline e = false → benign r (emit e r).
Proof.
  intros He. exists [(clock r, e)]. repeat split; auto. now repeat constructor.
Qed.

Lemma benign_updateHUD (u : list (string * JS.value)) (r : Runner) :
  benign r (updateHUD u r).
Proof.
  unfold updateHUD. destruct (page r) eqn:Hp; [apply benign_refl |].
  eapply benign_trans; [| apply benign_emit; reflexivity].
  now apply benign_silent.
Qed.

Lemma benign_elapse (ms : Z) (r : Runner) : benign r (elapse ms r).
Proof. now apply benign_silent. Qed.

Lemma benign_page_gone (r r' : Runner) (extra : list (Z * Event)) :
  journal r' = (journal r ++ extra)%list → Forall (λ e, isPipeline e = false) extra.*2 →
  page r' = PageNull → benign r r'.
Proof.
  intros He Hx Hp. exists extra. repeat split; auto; congruence.
Qed.

Lemma benign_pause (r : Runner) : benign r (pause r).2.
Proof.
  unfold pause. destruct (keyboardLoopActive r); cbn; [| apply benign_refl].
  eapply benign_trans; [| apply benign_emit; reflexivity]. now apply benign_silent.
Qed.

Lemma benign_resume (r : Runner) : benign r (resume r).2.
Proof.
  unfold resume. destruct (keyboardLoopActive r), (isPaused r); cbn;
    try apply benign_refl.
  eapply benign_trans; [| apply benign_emit; reflexivity]. now apply benign_silent.
Qed.

Lemma benign_stop (r : Runner) : benign r (stop r).2.
Proof.
  unfold stop, stop_second, cleanupTempData.
  eapply (benign_page_gone _ _ [(clock r, Info "Stopping Playwright runner...");
                                (clock r, Info "Runner stopped and browser closed")]).
  - case_match; state; rewrite <- app_assoc; reflexivity.
  - repeat constructor.
  - case_match; reflexivity.
Qed.

Lemma benign_serve (c : Control) (r : Runner) : benign r (serve c r).
Proof.
  destruct c; cbn; repeat case_match;
    auto using benign_refl, benign_pause, benign_resume, benign_stop.
Qed.

Lemma benign_deliver (upto : Z) (cs : list (Z * Control)) (r : Runner) :
  benign r (deliver upto cs r).2.
Proof.
  revert r. induction cs as [| [arrival c] cs IH]; intros r; cbn.
  - apply benign_refl.
  - destruct (arrival <=? upto); cbn; [| apply benign_refl].
    eapply benign_trans; [| apply IH].
    eapply benign_trans; [| apply benign_serve].
    now apply benign_silent.
Qed.

Lemma benign_advanceClock (ms : Z) (w : World) (r : Runner) :
  benign r (advanceClock ms w r).2.
Proof.
  unfold advanceClock.
  pose proof (benign_deliver (clock r + Z.max 0 ms) (calls w) r) as H.
  destruct (deliver _ _ r) as [cs r']; cbn in *.
  eapply benign_trans; [exact H |]. now apply benign_silent.
Qed.

Lemma quiet_ret {A : Type} (a : A) : quiet (ret a).
Proof. intros w r. apply benign_refl. Qed.

Lemma quiet_bind {A B : Type} (m : M A) (k : A → M B) : quiet m → (∀ a, quiet (k a)) → quiet (bind m k).
Proof.
  intros Hm Hk w r. unfold bind. specialize (Hm w r).
  destruct (m w r) as [a w' r' | e w' r' | r']; cbn in *; auto.
  eapply benign_trans; [exact Hm | apply Hk].
Qed.

Lemma quiet_look {B : Type} (k : Runner → M B) : (∀ r0, quiet (k r0)) → quiet (bind look k).
Proof. intros Hk. apply quiet_bind; [| exact Hk]. intros w r. apply benign_refl. Qed.

Lemma quiet_raise {A : Type} (e : JsError) : quiet (@raise A e).
Proof. intros w r. apply benign_refl. Qed.

Lemma quiet_pending {A : Type} : quiet (@pending A).
Proof. intros w r. apply benign_refl. Qed.

Lemma quiet_catch {A : Type} (m : M A) (h : JsError → M A) :
  quiet m → (∀ e, quiet (h e)) → quiet (catch m h).
Proof.
  intros Hm Hh w r. unfold catch. specialize (Hm w r).
  destruct (m w r) as [a w' r' | e w' r' | r']; cbn in *; auto.
  eapply benign_trans; [exact Hm | apply Hh].
Qed.

Lemma quiet_driver {A : Type} (what : Event) (duration : Tick → Z) (answer : Tick → A) :
  isPipeline what = false → quiet (driver what duration answer).
Proof.
  intros Hwhat w r. unfold driver.
  destruct (page r); [apply benign_refl |].
  destruct (script w) as [| t rest]; cbn; [now apply benign_emit |].
  pose proof (benign_advanceClock (duration t) (mkWorld rest (calls w) (randoms w))
                (emit what r)) as H.
  destruct (advanceClock _ _ _) as [w' r']; cbn in H.
  assert (benign r r') by (eapply benign_trans; [apply benign_emit |]; eauto).
  repeat case_match; assumption.
Qed.


Lemma quiet_update (f : Runner → Runner) : (∀ r, benign r (f r)) → quiet (update f).
Proof. intros Hf w r. apply Hf. Qed.

Lemma quiet_press (key : string) : quiet (press key).
Proof. now apply quiet_driver. Qed.

Lemma quiet_waitForTimeout (ms : Z) : quiet (waitForTimeout ms).
Proof. now apply quiet_driver. Qed.

Lemma quiet_isInsidePost : quiet isInsidePost.
Proof.
  intros w r. unfold isInsidePost.
  destruct (page r) eqn:Hp; [apply benign_refl |].
  now apply quiet_driver.
Qed.

Lemma quiet_Math_random : quiet Math_random.
Proof. intros w r. unfold Math_random. destruct (randoms w); apply benign_refl. Qed.

Create HintDb quiet.
#[local] Hint Resolve quiet_ret quiet_press quiet_waitForTimeout quiet_isInsidePost
  quiet_Math_random quiet_raise quiet_pending benign_updateHUD benign_refl : quiet.

(** Proves a computation quiet from the quietness of its steps. *)
Ltac quiet_steps :=
  repeat match goal with
         | |- quiet (bind look _) => apply quiet_look; intros ?
         | |- quiet (bind _ _) => apply quiet_bind; [| intros ?]
         | |- quiet (catch _ _) => apply quiet_catch; [| intros ?]
         | |- quiet (update _) => apply quiet_update; intros ?
         | |- quiet (if ?b then _ else _) => destruct b
         | |- quiet (match ?x with _ => _ end) => destruct x
         | |- benign _ (emit _ _) => apply benign_emit; reflexivity
         | |- _ => progress eauto with quiet
         end.

Lemma quiet_randomDelay (env : gmap string string) : quiet (randomDelay env).
Proof. unfold randomDelay. quiet_steps. Qed.

Lemma quiet_advancePastPost (fuel : nat) (found currentPostId : string) :
  quiet (advancePastPost fuel found currentPostId).
Proof.
  induction fuel as [| fuel IH]; cbn [advancePastPost]; quiet_steps.
Qed.

Lemma quiet_whilePaused (fuel : nat) (env : gmap string string) :
  quiet (whilePaused fuel env).
Proof.
  induction fuel as [| fuel IH]; cbn [whilePaused]; quiet_steps.
  apply quiet_randomDelay.
Qed.

#[local] Hint Resolve quiet_randomDelay quiet_advancePastPost quiet_whilePaused : quiet.

Lemma benign_countComment (r : Runner) : benign r (countComment r).
Proof. now apply benign_silent. Qed.

Lemma quiet_afterEngage (fuel : nat) (maxActions : JS.value) (t : Timing)
    (postData : PostData) (commented : bool) :
  quiet (afterEngage fuel maxActions t postData commented).
Proof.
  unfold afterEngage. destruct commented; quiet_steps.
  apply benign_countComment.
Qed.

(** ** The session invariant *)

Lemma omap_benign {X : Type} (f : Event → option X) (extra : list Event) :
  (∀ e, isPipeline e = false → f e = None) →
  Forall (λ e, isPipeline e = false) extra → omap f extra = [].
Proof.
  intros Hf. induction 1 as [| e extra He _ IH]; cbn; [reflexivity |].
  now rewrite (Hf e He).
Qed.

Lemma decided_benign (r r' : Runner) : benign r r' → decided r' = decided r.
Proof.
  intros (extra & He & Hx & _)%benign_events. unfold decided.
  rewrite He, omap_app, (omap_benign _ extra), app_nil_r; auto.
  now intros [].
Qed.

Lemma engaged_benign (r r' : Runner) : benign r r' → engaged r' = engaged r.
Proof.
  intros (extra & He & Hx & _)%benign_events. unfold engaged.
  rewrite He, omap_app, (omap_benign _ extra), app_nil_r; auto.
  now intros [].
Qed.

Lemma marked_benign (r r' : Runner) : benign r r' → marked r' = marked r.
Proof.
  intros (extra & He & Hx & _)%benign_events. unfold marked.
  rewrite He, omap_app, (omap_benign _ extra), app_nil_r; auto.
  now intros [].
Qed.

Lemma elem_of_decided (id : string) (r : Runner) : id ∈ decided r ↔ Decide id ∈ events r.
Proof.
  unfold decided. rewrite list_elem_of_omap. split.
  - intros (e & He & Hf). destruct e; simplify_eq. exact He.
  - intros H. exists (Decide id). auto.
Qed.

Lemma elem_of_engaged (id : string) (r : Runner) : id ∈ engaged r ↔ Engage id ∈ events r.
Proof.
  unfold engaged. rewrite list_elem_of_omap. split.
  - intros (e & He & Hf). destruct e; simplify_eq. exact He.
  - intros H. exists (Engage id). auto.
Qed.

Lemma elem_of_marked (id : string) (r : Runner) : id ∈ marked r ↔ SeenAdd id ∈ events r.
Proof.
  unfold marked. rewrite list_elem_of_omap. split.
  - intros (e & He & Hf). destruct e; simplify_eq. exact He.
  - intros H. exists (SeenAdd id). auto.
Qed.

Lemma Ordered_nil : Ordered [].
Proof. intros pre e post id H. now destruct pre. Qed.

Lemma Ordered_snoc (l : list Event) (e : Event) :
  Ordered l → (∀ id, e = Decide id ∨ e = Engage id → SeenAdd id ∈ l) → Ordered (l ++ [e]).
Proof.
  intros Hl He pre e' post id Heq Hkind.
  destruct (decide (post = [])) as [-> | Hpost].
  - apply app_inj_tail in Heq as [-> ->]. now apply He.
  - destruct (exists_last Hpost) as (post' & x & ->).
    change (pre ++ e' :: post' ++ [x])%list with (pre ++ (e' :: post') ++ [x])%list in Heq.
    rewrite app_assoc in Heq. apply app_inj_tail in Heq as [-> ->].
    eapply Hl; eauto.
Qed.

Lemma Ordered_app (l extra : list Event) :
  Ordered l → Forall (λ e, isPipeline e = false) extra → Ordered (l ++ extra).
Proof.
  intros Hl Hx. revert l Hl.
  induction Hx as [| e extra He _ IH]; intros l Hl.
  - now rewrite app_nil_r.
  - change (l ++ e :: extra)%list with (l ++ [e] ++ extra)%list.
    rewrite app_assoc. apply IH, Ordered_snoc; [exact Hl |].
    intros id [-> | ->]; discriminate.
Qed.

Lemma Ordered_marked (id : string) (r : Runner) :
  Ordered (events r) → Decide id ∈ events r ∨ Engage id ∈ events r → id ∈ marked r.
Proof.
  intros Hord [H | H]; apply list_elem_of_split in H as (pre & post & Heq);
    apply elem_of_marked; rewrite Heq;
    apply elem_of_app; left; eapply Hord; eauto.
Qed.

Lemma Once_benign (r r' : Runner) : Once r → benign r r' → Once r'.
Proof.
  intros (Hd & He & Ho & Hs) Hb.
  pose proof (benign_events _ _ Hb) as (extra & Hev & Hx & Hp).
  repeat split.
  - now rewrite (decided_benign _ _ Hb).
  - now rewrite (engaged_benign _ _ Hb).
  - rewrite Hev. now apply Ordered_app.
  - intros Hlive id. rewrite (marked_benign _ _ Hb).
    destruct (Hp Hlive) as [Hlive' ->]. now apply Hs.
Qed.

Lemma Armed_benign (id : string) (r r' : Runner) : Armed id r → benign r r' → Armed id r'.
Proof.
  intros (Ho & Hm & He) Hb. split; [| split].
  - eapply Once_benign; eauto.
  - apply elem_of_marked. rewrite (marked_benign _ _ Hb). now apply elem_of_marked.
  - now rewrite (engaged_benign _ _ Hb).
Qed.

Lemma Fresh_benign (id : string) (r r' : Runner) : Fresh id r → benign r r' → Fresh id r'.
Proof.
  intros [Ha Hd] Hb. split.
  - eapply Armed_benign; eauto.
  - now rewrite (decided_benign _ _ Hb).
Qed.

Lemma Once_unmarked (id : string) (r : Runner) :
  Once r → page r = PageLive → id ∉ seenPostIds r → id ∉ decided r ∧ id ∉ engaged r.
Proof.
  intros (_ & _ & Ho & Hs) Hlive Hnot.
  split; intros Hin; apply Hnot, (Hs Hlive), (Ordered_marked _ _ Ho).
  - left. now apply elem_of_decided.
  - right. now apply elem_of_engaged.
Qed.

(** Marking a post not seen before opens the pipeline for it. *)
Lemma Fresh_markSeen (id : string) (r : Runner) :
  Once r → page r = PageLive → id ∉ seenPostIds r → Fresh id (markSeen id r).
Proof.
  intros Honce Hlive Hnot.
  destruct (Once_unmarked id r Honce Hlive Hnot) as [Hd He].
  destruct Honce as (Hnd & Hne & Ho & Hs).
  unfold markSeen, Fresh, Armed, Once, decided, engaged, marked.
  rewrite !events_emit, !omap_app. cbn [omap list_omap]. rewrite !app_nil_r.
  repeat split; auto.
  - apply Ordered_snoc; [exact Ho |]. intros id' [H | H]; discriminate.
  - state. intros _ id'. rewrite elem_of_app, list_elem_of_singleton.
    intros [Hin | ->]; [| set_solver].
    apply elem_of_union; right. now apply Hs.
  - set_solver.
Qed.

Lemma Armed_decide (id : string) (r : Runner) : Fresh id r → Armed id (emit (Decide id) r).
Proof.
  intros [((Hnd & Hne & Ho & Hs) & Hm & He) Hd].
  unfold Armed, Once, decided, engaged, marked in *.
  rewrite !events_emit, !omap_app. cbn [omap list_omap]. rewrite !app_nil_r.
  repeat split; auto.
  - apply NoDup_app. repeat split; auto.
    + intros x Hx. rewrite list_elem_of_singleton. intros ->. contradiction.
    + apply NoDup_singleton.
  - apply Ordered_snoc; [exact Ho |]. intros id' [H | H]; simplify_eq. exact Hm.
  - set_solver.
Qed.

Lemma Once_engage (id : string) (r : Runner) : Armed id r → Once (emit (Engage id) r).
Proof.
  intros ((Hnd & Hne & Ho & Hs) & Hm & He).
  unfold Once, decided, engaged, marked in *.
  rewrite !events_emit, !omap_app. cbn [omap list_omap]. rewrite !app_nil_r.
  repeat split; auto.
  - apply NoDup_app. repeat split; auto.
    + intros x Hx. rewrite list_elem_of_singleton. intros ->. contradiction.
    + apply NoDup_singleton.
  - apply Ordered_snoc; [exact Ho |]. intros id' [H | H]; simplify_eq. exact Hm.
Qed.

(** Chains of journal entries and silent assignments. *)
Ltac benign_chain :=
  repeat first
    [ apply benign_refl
    | now apply benign_silent
    | eapply benign_trans;
      [| first [ apply benign_emit; reflexivity
               | apply benign_elapse
               | apply benign_updateHUD ] ] ].

Lemma benign_executeWebhookRequest (rt : Runtime) (req : Request) (x : Exchange)
    (r : Runner) :
  benign r (executeWebhookRequest rt req x r).2.
Proof.
  unfold executeWebhookRequest, exchangeAttempt.
  repeat case_match; simplify_eq; cbn [fst snd]; benign_chain.
Qed.

Lemma benign_checkEngagementDecision (rt : Runtime) (post : PostData) (x : Exchange)
    (r : Runner) :
  benign r (checkEngagementDecision rt post x r).2.
Proof.
  unfold checkEngagementDecision.
  destruct (configuredWebhook r) as [webhook |]; cbn [snd]; [| benign_chain].
  destruct (freshEntry post r); cbn [snd]; [benign_chain |].
  pose proof (benign_executeWebhookRequest rt (decisionRequest webhook post) x
                (updateHUD (waitingHud post) r)) as Hcall.
  destruct (executeWebhookRequest _ _ _ _) as [answer r1]; cbn [snd] in Hcall.
  assert (benign r r1) by (eapply benign_trans; [apply benign_updateHUD | exact Hcall]).
  destruct (andThen answer _); cbn [snd];
    (eapply benign_trans; [eassumption |]); benign_chain.
Qed.

Lemma Armed_Once (id : string) (r : Runner) : Armed id r → Once r.
Proof. now intros [Ho _]. Qed.

Lemma Fresh_Once (id : string) (r : Runner) : Fresh id r → Once r.
Proof. now intros [[Ho _] _]. Qed.

(** A quiet computation keeps whatever benign steps keep. *)
Lemma quiet_triple {A : Type} (m : M A) (P N : Runner → Prop) :
  quiet m → (∀ r r', P r → benign r r' → P r') → (∀ r, P r → N r) →
  triple (λ _ r, P r) m (λ _ _ r, P r) (λ _ _ r, N r) N.
Proof.
  intros Hm HP HN w r Hr. specialize (Hm w r).
  destruct (m w r); cbn in Hm; eauto.
Qed.

Lemma triple_look_any {B : Type} (P : World → Runner → Prop) (k : Runner → M B)
    (Q : B → World → Runner → Prop) (E : JsError → World → Runner → Prop)
    (N : Runner → Prop) :
  (∀ r0, triple P (k r0) Q E N) → triple P (bind look k) Q E N.
Proof.
  intros Hk. apply triple_look. intros r0.
  eapply triple_weaken; [apply (Hk r0) | | | |]; cbn; intuition.
Qed.

(** The call of the decision service: one [Decide] for a fresh post. *)
Lemma Armed_after_decide (rt : Runtime) (post : PostData) :
  triple (λ _ r, Fresh (postId post) r) (awaitDecision rt post)
    (λ _ _ r, Armed (postId post) r) (λ _ _ r, Once r) Once.
Proof.
  intros w r Hfresh. unfold awaitDecision.
  pose proof (Armed_decide _ _ Hfresh) as Harmed.
  destruct (script w) as [| t rest]; [apply Harmed |].
  pose proof (benign_checkEngagementDecision rt post (exchange t)
                (emit (Decide (postId post)) r)) as Hb.
  destruct (checkEngagementDecision _ _ _ _) as [d r1]; cbn [snd] in Hb.
  pose proof (benign_advanceClock 0 (mkWorld rest (calls w) (randoms w)) r1) as Hb2.
  destruct (advanceClock _ _ _) as [w2 r2]; cbn [snd] in Hb2.
  eapply Armed_benign; [| exact Hb2]. eapply Armed_benign; eauto.
Qed.

(** Steps a triple whose next computation is quiet. *)
Ltac quiet_step P HP :=
  eapply triple_bind;
  [ apply (quiet_triple _ P Once);
    [ quiet_steps | exact HP | first [exact (λ r H, H) | apply Armed_Once | apply Fresh_Once] ]
  | intros ? ].

(** Ends a triple with a quiet computation that keeps [Once]. *)
Ltac quiet_end :=
  apply (quiet_triple _ Once Once); [quiet_steps | apply Once_benign | exact (λ r H, H)].

Lemma Armed_after_approval (rt : Runtime) (post : PostData) :
  triple (λ _ r, Fresh (postId post) r) (approval rt post)
    (λ _ _ r, Armed (postId post) r) (λ _ _ r, Once r) Once.
Proof.
  unfold approval. apply triple_look_any. intros r0.
  destruct (optimizeEngagement r0).
  - eapply triple_bind; [apply (Armed_after_decide rt (withOuterHTML post)) |].
    intros d. cbn [withOuterHTML postId].
    destruct (negb _);
      (quiet_step (Armed (postId post)) (Armed_benign (postId post));
       apply triple_ret; auto).
  - apply triple_ret. now intros w r [Ha _].
Qed.

Lemma Once_after_engageWithPost (post : PostData) :
  triple (λ _ r, Armed (postId post) r) (engageWithPost post)
    (λ _ _ r, Once r) (λ _ _ r, Once r) Once.
Proof.
  intros w r Harmed. unfold engageWithPost.
  pose proof (Once_engage _ _ Harmed) as Honce.
  cbn [page emit set_journal].
  destruct (page r); [exact Honce |].
  destruct (script w) as [| t rest]; [exact Honce |].
  pose proof (benign_advanceClock (took t) (mkWorld rest (calls w) (randoms w))
                (emit (Engage (postId post)) r)) as Hb.
  destruct (advanceClock _ _ _) as [w2 r2]; cbn [snd] in Hb.
  eapply Once_benign; eauto.
Qed.

Lemma Once_engagePost (rt : Runtime) (fuel : nat) (maxActions : JS.value) (t : Timing)
    (post : PostData) :
  triple (λ _ r, Once r ∧ page r = PageLive ∧ postId post ∉ seenPostIds r)
    (engagePost rt fuel maxActions t post)
    (λ _ _ r, Once r) (λ _ _ r, Once r) Once.
Proof.
  unfold engagePost.
  eapply triple_bind.
  { apply triple_update with (Q := λ _ _ r, Fresh (postId post) r).
    intros w r (Honce & Hlive & Hnot). now apply Fresh_markSeen. }
  intros ?. apply triple_look_any. intros r0.
  quiet_step (Fresh (postId post)) (Fresh_benign (postId post)).
  eapply triple_bind; [apply Armed_after_approval |].
  intros approved. destruct approved; cbn [negb].
  - quiet_step (Armed (postId post)) (Armed_benign (postId post)).
    eapply triple_bind; [apply Once_after_engageWithPost |].
    intros commented.
    apply (quiet_triple _ Once Once);
      [apply quiet_afterEngage | apply Once_benign | exact (λ r H, H)].
  - apply triple_ret. now intros w r [Ho _].
Qed.

Lemma Once_after_isInsidePost :
  triple (λ _ r, Once r) isInsidePost
    (λ a _ r, Once r ∧ (is_Some a → page r = PageLive)) (λ _ _ r, Once r) Once.
Proof.
  intros w r Honce. pose proof (quiet_isInsidePost w r) as Hq.
  destruct (isInsidePost w r) as [a w' r' | e w' r' | r'] eqn:Hrun; cbn in Hq;
    try (eapply Once_benign; eauto).
  split; [eapply Once_benign; eauto |].
  intros Hsome. unfold isInsidePost, driver in Hrun.
  repeat case_match; simplify_eq; try assumption.
  now destruct Hsome.
Qed.

Lemma Once_onFocus (rt : Runtime) (fuel : nat) (maxActions : JS.value) (t : Timing)
    (focus : option PostData) :
  triple (λ _ r, Once r ∧ (is_Some focus → page r = PageLive))
    (onFocus rt fuel maxActions t focus)
    (λ _ _ r, Once r) (λ _ _ r, Once r) Once.
Proof.
  unfold onFocus. destruct focus as [post |].
  - destruct (String.eqb (postId post) ""); [apply triple_ret; now intros w r [Ho _] |].
    apply triple_look. intros r0.
    destruct (bool_decide (postId post ∈ seenPostIds r0)) eqn:Hseen.
    + eapply triple_weaken with (P' := λ _ r, Once r);
        [ quiet_end | | | | ]; cbn; intuition.
    + eapply triple_weaken; [apply Once_engagePost | | | |]; cbn; auto.
      intros w r [[Ho Hlive] ->]. split; [exact Ho |]. split; [eauto |].
      now apply bool_decide_eq_false in Hseen.
  - apply triple_ret. now intros w r [Ho _].
Qed.

Lemma Once_iteration (rt : Runtime) (fuel : nat) (maxActions : JS.value) :
  triple (λ _ r, Once r) (iteration rt fuel maxActions)
    (λ _ _ r, Once r) (λ _ _ r, Once r) Once.
Proof.
  unfold iteration. apply triple_look_any. intros r0.
  destruct (stopRequested r0).
  { quiet_end. }
  quiet_step Once Once_benign.
  quiet_step Once Once_benign.
  apply triple_look_any. intros r1.
  quiet_step Once Once_benign.
  quiet_step Once Once_benign.
  apply triple_look_any. intros r2.
  destruct (stopRequested r2).
  { quiet_end. }
  eapply triple_bind; [apply Once_after_isInsidePost |].
  intros focus. apply Once_onFocus.
Qed.

Lemma Once_guarded (body : M Flow) :
  triple (λ _ r, Once r) body (λ _ _ r, Once r) (λ _ _ r, Once r) Once →
  triple (λ _ r, Once r) (guarded body) (λ _ _ r, Once r) (λ _ _ r, Once r) Once.
Proof.
  intros Hbody. unfold guarded. eapply triple_catch; [exact Hbody |].
  intros e. quiet_end.
Qed.

Lemma Once_automationLoop (fuel : nat) (rt : Runtime) (env : gmap string string)
    (maxActions : JS.value) :
  triple (λ _ r, Once r) (automationLoop fuel rt env maxActions)
    (λ _ _ r, Once r) (λ _ _ r, Once r) Once.
Proof.
  induction fuel as [| fuel IH]; cbn [automationLoop].
  - now apply triple_pending.
  - apply triple_look_any. intros r0.
    destruct (keyboardLoopActive r0 && negb (stopRequested r0));
      [| now apply triple_ret].
    quiet_step Once Once_benign.
    apply triple_look_any. intros r1.
    destruct (negb (keyboardLoopActive r1) || stopRequested r1); [now apply triple_ret |].
    eapply triple_bind; [apply Once_guarded, Once_iteration |].
    intros [|]; [exact IH | now apply triple_ret].
Qed.

(** A journal without pipeline events satisfies the invariant. *)
Lemma Once_blank (r : Runner) : Forall (λ e, isPipeline e = false) (events r) → Once r.
Proof.
  intros Hblank.
  assert (Hd : decided r = []) by (apply omap_benign; [now intros [] | exact Hblank]).
  assert (He : engaged r = []) by (apply omap_benign; [now intros [] | exact Hblank]).
  assert (Hm : marked r = []) by (apply omap_benign; [now intros [] | exact Hblank]).
  unfold Once. rewrite Hd, He, Hm. repeat split; try apply NoDup_nil_2.
  - intros pre e post id Heq Hkind.
    rewrite Forall_forall in Hblank.
    assert (Hin : e ∈ events r) by (rewrite Heq; set_solver).
    specialize (Hblank e Hin). destruct Hkind as [-> | ->]; discriminate.
  - intros _ id Hin. now apply elem_of_nil in Hin.
Qed.

Lemma getThresholds_journal (env : gmap string string) (r : Runner) :
  Forall (λ e, isPipeline e = false) (events r) →
  Forall (λ e, isPipeline e = false) (events (getThresholds env r).2).
Proof.
  intros H. unfold getThresholds. cbn [snd].
  repeat case_match; try assumption; unfold events in *; state;
    rewrite ?fmap_app; try apply Forall_app; repeat split; try assumption;
    repeat constructor.
Qed.

Lemma Once_startKeyboardAutomation (fuel : nat) (rt : Runtime) (env : gmap string string) :
  triple (λ _ r, journal r = []) (startKeyboardAutomation fuel rt env)
    (λ _ _ r, Once r) (λ _ _ r, Once r) Once.
Proof.
  unfold startKeyboardAutomation.
  assert (Hstart : ∀ (w : World) r, journal r = [] → Once r).
  { intros _ r Hj. apply Once_blank. unfold events. rewrite Hj. constructor. }
  apply triple_look_any. intros r0.
  destruct (negb (isRunning r0) || negb (hasPage r0)); [now apply triple_raise |].
  destruct (keyboardLoopActive r0); [now apply triple_raise |].
  eapply triple_bind.
  { apply triple_update with (Q := λ _ _ r, journal r = []). auto. }
  intros ?. eapply triple_bind.
  { apply triple_update with (Q := λ _ _ r, journal r = []). auto. }
  intros ?. eapply triple_bind with (Q' := λ _ _ r, Once r).
  { intros w r Hj. pose proof (getThresholds_journal env r) as H.
    destruct (getThresholds env r) as [v r1]; cbn [snd] in H.
    apply Once_blank, H. unfold events. rewrite Hj. constructor. }
  intros limits.
  quiet_step Once Once_benign.
  { now apply benign_silent. }
  eapply triple_finally with (Q' := λ _ _ r, Once r) (E' := λ _ _ r, Once r).
  - eapply triple_catch with (E' := λ _ _ r, Once r).
    + quiet_step Once Once_benign.
      eapply triple_bind; [apply Once_automationLoop |].
      intros ?. quiet_end.
    + intros e. quiet_end.
  - intros v w1 r1 Ho. eapply Once_benign; [exact Ho | now apply benign_silent].
  - intros e w1 r1 Ho. eapply Once_benign; [exact Ho | now apply benign_silent].
Qed.

(** C2.  In a session observed from its start, whatever the page, the
    endpoint and the operator do: no identifier is decided on twice or
    engaged with twice, and each [Decide] and [Engage] comes after the
    [SeenAdd] of its identifier.  And a post in focus whose identifier is
    already in [seenPostIds] makes the iteration end at once, back to
    tabbing, with nothing decided, engaged or marked. *)
Theorem decide_act_once_per_post (fuel : nat) (rt : Runtime) (env : gmap string string)
    (w : World) (r : Runner) :
  journal r = [] →
  let r' := final (startKeyboardAutomation fuel rt env w r) in
  (∀ id,
     (count_occ string_dec (decided r') id ≤ 1)%nat
     ∧ (count_occ string_dec (engaged r') id ≤ 1)%nat
     ∧ ∀ pre e post,
         events r' = (pre ++ e :: post)%list → e = Decide id ∨ e = Engage id →
         SeenAdd id ∈ pre)
  ∧ (∀ n maxActions t post w0 r0,
       postId post ∈ seenPostIds r0 →
       ∃ r1, onFocus rt n maxActions t (Some post) w0 r0 = Done Continue w0 r1
             ∧ decided r1 = decided r0 ∧ engaged r1 = engaged r0
             ∧ marked r1 = marked r0 ∧ seenPostIds r1 = seenPostIds r0).
Proof.
  intros Hj r'. split.
  - assert (Honce : Once r').
    { subst r'. pose proof (Once_startKeyboardAutomation fuel rt env w r Hj) as H.
      destruct (startKeyboardAutomation fuel rt env w r); exact H. }
    destruct Honce as (Hd & He & Ho & _).
    intros id. repeat split.
    + apply NoDup_count_occ. now apply NoDup_ListNoDup.
    + apply NoDup_count_occ. now apply NoDup_ListNoDup.
    + intros pre e post. apply Ho.
  - intros n maxActions t post w0 r0 Hseen. unfold onFocus.
    destruct (String.eqb (postId post) ""); [now exists r0 |].
    unfold bind, look. rewrite (bool_decide_eq_true_2 _ Hseen).
    exists (emit (Info "Post already processed, skipping") r0).
    unfold decided, engaged, marked. rewrite events_emit, !omap_app.
    cbn. now rewrite !app_nil_r.
Qed.

(** The focus returns to post A after A and B were engaged with: one
    [Engage "A"] all the same. *)
Lemma decide_act_once_per_post_witness :
  (count_occ string_dec
     (engaged (final (startKeyboardAutomation 40 sampleRuntime ∅ revisits started))) "A"
   ≤ 1)%nat.
Proof.
  exact (proj1 (proj2 (proj1 (decide_act_once_per_post 40 sampleRuntime ∅ revisits started
                                eq_refl) "A"))).
Defined.

Example revisits_engaged :
  engaged (final (startKeyboardAutomation 40 sampleRuntime ∅ revisits started)) = ["A"; "B"]
  ∧ presses (final (startKeyboardAutomation 40 sampleRuntime ∅ revisits started))
    = replicate 8 "Tab".
Proof. split; vm_compute; reflexivity. Qed.

(** ** The advancing phase *)

Lemma bind_Done {A B : Type} (m : M A) (k : A → M B) (w w' : World) (r r' : Runner) (b : B) :
  bind m k w r = Done b w' r' →
  ∃ a w1 r1, m w r = Done a w1 r1 ∧ k a w1 r1 = Done b w' r'.
Proof.
  unfold bind. destruct (m w r) as [a w1 r1 | |]; try discriminate. eauto.
Qed.

Lemma advanceClock_script (ms : Z) (w : World) (r : Runner) :
  script (advanceClock ms w r).1 = script w.
Proof. unfold advanceClock. now destruct (deliver _ _ _). Qed.

Lemma driver_Done {A : Type} (what : Event) (duration : Tick → Z) (answer : Tick → A)
    (w w' : World) (r r' : Runner) (a : A) :
  driver what duration answer w r = Done a w' r' →
  ∃ t, script w = t :: script w' ∧ a = answer t.
Proof.
  unfold driver. intros H.
  destruct (page r); [discriminate |].
  destruct (script w) as [| t rest] eqn:Hs; [discriminate |].
  pose proof (advanceClock_script (duration t) (mkWorld rest (calls w) (randoms w))
                (emit what r)) as Hscript.
  destruct (advanceClock _ _ _) as [w1 r1]; cbn in Hscript.
  repeat case_match; simplify_eq. eauto.
Qed.

Lemma isInsidePost_Done (w w' : World) (r r' : Runner) (p : PostData) :
  isInsidePost w r = Done (Some p) w' r' →
  ∃ t, script w = t :: script w' ∧ focused t = Some p.
Proof.
  unfold isInsidePost. destruct (page r); [discriminate |].
  intros (t & Hs & Ha)%driver_Done. eauto.
Qed.

Lemma isInsidePost_script (w w' : World) (r r' : Runner) (a : option PostData) :
  isInsidePost w r = Done a w' r' → ∀ t, t ∈ script w' → t ∈ script w.
Proof.
  unfold isInsidePost. destruct (page r).
  - intros [= _ <- _]. auto.
  - intros (t & Hs & _)%driver_Done t' Hin. rewrite Hs. now apply list_elem_of_further.
Qed.

Lemma advancePastPost_Done (fuel : nat) (found cur : string) (w w' : World)
    (r r' : Runner) (id : string) :
  advancePastPost fuel found cur w r = Done id w' r' →
  id ≠ "" ∧ id ≠ cur ∧ ∃ t, t ∈ script w ∧ postId <$> focused t = Some id.
Proof.
  revert w r. induction fuel as [| fuel IH]; intros w r; cbn [advancePastPost];
    [discriminate |].
  intros ([] & w1 & r1 & Hpress & Hrest)%bind_Done.
  apply bind_Done in Hrest as ([] & w2 & r2 & Hwait & Hrest).
  apply bind_Done in Hrest as (checkPost & w3 & r3 & Hprobe & Hrest).
  apply driver_Done in Hpress as (t1 & Hs1 & _).
  apply driver_Done in Hwait as (t2 & Hs2 & _).
  assert (Hsub : ∀ t, t ∈ script w3 → t ∈ script w).
  { intros t Hin. rewrite Hs1, Hs2. do 2 apply list_elem_of_further.
    eapply isInsidePost_script; eauto. }
  destruct checkPost as [p |].
  - destruct (negb (String.eqb (postId p) "") && negb (String.eqb (postId p) cur))
      eqn:Hnew.
    + unfold bind, update, ret in Hrest. simplify_eq.
      apply andb_true_iff in Hnew as [Hne Hcur].
      apply negb_true_iff, String.eqb_neq in Hne, Hcur.
      repeat split; auto.
      apply isInsidePost_Done in Hprobe as (t & Hs3 & Hf).
      exists t. split; [| now rewrite Hf].
      rewrite Hs1, Hs2, Hs3. do 2 apply list_elem_of_further. apply list_elem_of_here.
    + destruct (IH _ _ Hrest) as (? & ? & t & Hin & Hf). eauto 10.
  - destruct (IH _ _ Hrest) as (? & ? & t & Hin & Hf). eauto 10.
Qed.

(** Computations that neither read nor write the two stop flags, as long
    as no control call is served. *)
Definition blind {A : Type} (m : M A) : Prop :=
  ∀ stop active w r,
    calls w = [] →
    m w (setStopFlags stop active r) = onFinal (setStopFlags stop active) (m w r)
    ∧ ∀ a w' r', m w r = Done a w' r' → calls w' = [].

Lemma blind_bind {A B : Type} (m : M A) (k : A → M B) :
  blind m → (∀ a, blind (k a)) → blind (bind m k).
Proof.
  intros Hm Hk stop active w r Hcalls. unfold bind.
  destruct (Hm stop active w r Hcalls) as [-> Hw].
  destruct (m w r) as [a w1 r1 | e w1 r1 | r1]; cbn; [| now split..].
  apply Hk. now apply (Hw a w1 r1).
Qed.

Lemma blind_ret {A : Type} (a : A) : blind (ret a).
Proof. intros stop active w r Hcalls. split; [reflexivity |]. now intros ? ? ? [= _ <- _]. Qed.

Lemma blind_emit (e : Event) : blind (update (emit e)).
Proof. intros stop active w r Hcalls. split; [reflexivity |]. now intros ? ? ? [= _ <- _]. Qed.

Lemma blind_driver {A : Type} (what : Event) (duration : Tick → Z) (answer : Tick → A) :
  blind (driver what duration answer).
Proof.
  intros stop active w r Hcalls. unfold driver, advanceClock, setStopFlags. state.
  destruct (page r) eqn:Hp; [split; [reflexivity | discriminate] |].
  destruct (script w) as [| t rest]; [split; [reflexivity | discriminate] |].
  cbn [calls script randoms]. rewrite Hcalls. cbn [deliver]. state. rewrite Hp.
  destruct (fails t); (split; [reflexivity |]); [discriminate |].
  now intros ? ? ? [= _ <- _].
Qed.

Lemma blind_isInsidePost : blind isInsidePost.
Proof.
  intros stop active w r Hcalls. unfold isInsidePost.
  replace (page (setStopFlags stop active r)) with (page r) by reflexivity.
  destruct (page r) eqn:Hp.
  - split; [reflexivity |]. now intros ? ? ? [= _ <- _].
  - exact (blind_driver (Evaluate "isInsidePost") took focused stop active w r Hcalls).
Qed.

Lemma blind_advancePastPost (fuel : nat) (found cur : string) :
  blind (advancePastPost fuel found cur).
Proof.
  induction fuel as [| fuel IH]; cbn [advancePastPost].
  - intros stop active w r Hcalls. split; [reflexivity | discriminate].
  - repeat (apply blind_bind; [first [apply blind_driver | apply blind_isInsidePost] |];
            intros ?).
    repeat case_match; try assumption.
    apply blind_bind; [apply blind_emit | intros ?; apply blind_ret].
Qed.

(** C6, as the code has it.  The advancing phase returns only with a
    non-empty identifier different from the current one, reported by the
    page; while no control call is served its run is the same whatever
    the two stop flags hold, which it neither reads nor writes; and
    without a page - as [stop] leaves the runner - its first key press
    throws, which ends it without a new item. *)
Theorem advancePastPost_ends (fuel : nat) (found cur : string) (w : World) (r : Runner) :
  (∀ id w' r',
     advancePastPost fuel found cur w r = Done id w' r' →
     id ≠ "" ∧ id ≠ cur ∧ ∃ t, t ∈ script w ∧ postId <$> focused t = Some id)
  ∧ (calls w = [] →
     ∀ stop active,
       advancePastPost fuel found cur w (setStopFlags stop active r)
       = onFinal (setStopFlags stop active) (advancePastPost fuel found cur w r))
  ∧ (page r = PageNull →
     advancePastPost (S fuel) found cur w r
     = Raised (TypeError "Cannot read properties of null") w r)
  ∧ page (stop r).2 = PageNull.
Proof.
  split; [| split; [| split]].
  - intros id w' r' Hdone. eapply advancePastPost_Done; eauto.
  - intros Hcalls stop active.
    now apply (blind_advancePastPost fuel found cur stop active w r).
  - intros Hnull. cbn [advancePastPost]. unfold bind, press, driver. now rewrite Hnull.
  - unfold stop, stop_second, cleanupTempData. now case_match.
Qed.

(** Both stop flags set, the page open and the focus staying on post A:
    after thirty answers of the page the phase has pressed Tab eleven
    times and is still going. *)
Lemma advancePastPost_runs_on_when_stopped :
  stopRequested stopping = true
  ∧ keyboardLoopActive stopping = false
  ∧ match advancePastPost 100 "Found new post" "A" (stuckOn 30) stopping with
    | Pending r' => presses r' = replicate 11 "Tab" ∧ stopRequested r' = true
    | _ => False
    end.
Proof.
  split; [reflexivity |]. split; [reflexivity |].
  vm_compute. split; reflexivity.
Qed.

(** The same run with the flags clear, and the run once [stop] is done. *)
Lemma advancePastPost_ends_witness :
  advancePastPost 100 "Found new post" "A" (stuckOn 30) (setStopFlags true false running)
  = onFinal (setStopFlags true false)
      (advancePastPost 100 "Found new post" "A" (stuckOn 30) running)
  ∧ advancePastPost 100 "Found new post" "A" (stuckOn 30) (stop running).2
    = Raised (TypeError "Cannot read properties of null") (stuckOn 30) (stop running).2.
Proof.
  split.
  - apply (advancePastPost_ends 100 "Found new post" "A" (stuckOn 30) running).
    reflexivity.
  - apply (advancePastPost_ends 99 "Found new post" "A" (stuckOn 30) (stop running).2).
    reflexivity.
Defined.

Lemma exchangeAttempt_result (rt : Runtime) (req : Request) (timeoutMs : Z) (x : Exchange)
    (r r' : Runner) :
  (exchangeAttempt rt req timeoutMs x r).1 = (exchangeAttempt rt req timeoutMs x r').1.
Proof. unfold exchangeAttempt. repeat case_match; reflexivity. Qed.

Lemma executeWebhookRequest_result (rt : Runtime) (req : Request) (x : Exchange)
    (r r' : Runner) :
  (executeWebhookRequest rt req x r).1 = (executeWebhookRequest rt req x r').1.
Proof.
  unfold executeWebhookRequest.
  destruct (payload req); try reflexivity;
    match goal with
    | |- context [exchangeAttempt ?rt ?req ?t ?x ?a] =>
        match goal with
        | |- context [exchangeAttempt rt req t x ?b] =>
            lazymatch a with b => fail | _ => idtac end;
            pose proof (exchangeAttempt_result rt req t x a b) as Hsame;
            destruct (exchangeAttempt rt req t x a) as [[] ?],
                     (exchangeAttempt rt req t x b) as [[] ?];
            cbn [fst] in Hsame; simplify_eq; try reflexivity;
            case_match; reflexivity
        end
    end.
Qed.

Lemma clock_updateHUD (u : list (string * JS.value)) (r : Runner) :
  clock (updateHUD u r) = clock r.
Proof. unfold updateHUD. now destruct (page r). Qed.

Lemma domCache_updateHUD (u : list (string * JS.value)) (r : Runner) :
  domCache (updateHUD u r) = domCache r.
Proof. unfold updateHUD. now destruct (page r). Qed.

Lemma executeWebhookRequest_frame (rt : Runtime) (req : Request) (x : Exchange) (r : Runner) :
  let r' := (executeWebhookRequest rt req x r).2 in
  domCache r' = domCache r ∧ postAnalysisWebhook r' = postAnalysisWebhook r
  ∧ clock r ≤ clock r'.
Proof.
  unfold executeWebhookRequest, exchangeAttempt.
  repeat case_match; simplify_eq; cbn; repeat split; lia.
Qed.

(** A verdict the endpoint gave is cached under the post's identifier: a
    later call for a post with the same identifier, made less than
    [_cacheTimeout] ms after the verdict was stored and with the cache
    untouched since, answers the same verdict from the cache, asks no
    endpoint and logs one line. *)
Theorem checkEngagementDecision_cache_hit (rt : Runtime) (post again : PostData)
    (x x' : Exchange) (r later : Runner) (webhook : string) (answer : JS.value)
    (d : Decision) :
  configuredWebhook r = Some webhook →
  freshEntry post r = None →
  (executeWebhookRequest rt (decisionRequest webhook post) x r).1 = Returns answer →
  normalize answer post = Returns d →
  let out := checkEngagementDecision rt post x r in
  out.1 = d
  ∧ (postId again = postId post →
     postAnalysisWebhook later = postAnalysisWebhook r →
     domCache later = domCache out.2 →
     clock later - clock out.2 < _cacheTimeout →
     checkEngagementDecision rt again x' later
     = (d, emit (Info "Engagement decision from cache") later)).
Proof.
  intros Hweb Hmiss Hcall Hnorm out.
  rewrite (executeWebhookRequest_result _ _ _ _ (updateHUD (waitingHud post) r)) in Hcall.
  destruct (executeWebhookRequest _ _ _ _) as [answer' r1] eqn:Hout.
  cbn [fst] in Hcall. subst answer'.
  assert (Hshape : out = (d, emit (Info "Engagement decision received")
                               (set_domCache
                                  (<[cacheKey post := mkEntry d (clock r1)]> (domCache r1)) r1))).
  { subst out. unfold checkEngagementDecision.
    rewrite Hweb, Hmiss, Hout. cbn [andThen]. now rewrite Hnorm. }
  rewrite Hshape. cbn [fst snd]. clear Hshape out.
  split; [reflexivity |].
  intros Hid Hw Hcache Hclock.
  unfold checkEngagementDecision, configuredWebhook. rewrite Hw.
  unfold configuredWebhook in Hweb. rewrite Hweb.
  unfold freshEntry, cacheKey. rewrite Hid, Hcache.
  change ("engagement_" +:+ postId post) with (cacheKey post).
  cbn [domCache set_domCache emit set_journal].
  rewrite lookup_insert_eq. cbn [timestamp result].
  cbn [clock set_domCache emit set_journal] in Hclock.
  destruct (Z.ltb_spec (clock later - clock r1) _cacheTimeout); [reflexivity | lia].
Qed.

Lemma executeWebhookRequest_sends (rt : Runtime) (req : Request) (x : Exchange) (r : Runner) :
  payload req ≠ JS.Undefined →
  ∃ rest, events (executeWebhookRequest rt req x r).2
          = (events r ++ Fetch (url req) (default 10000 (timeout req)) :: rest)%list.
Proof.
  intros Hpayload. unfold executeWebhookRequest, exchangeAttempt.
  destruct (payload req); try congruence;
    repeat case_match; simplify_eq; cbn [snd];
    rewrite ?events_emit, ?events_elapse, ?events_emit, <- ?app_assoc; cbn [app]; eauto.
Qed.

Lemma checkEngagementDecision_asks (rt : Runtime) (post : PostData) (x : Exchange)
    (r : Runner) (webhook : string) :
  configuredWebhook r = Some webhook →
  freshEntry post r = None →
  ∃ before after, events (checkEngagementDecision rt post x r).2
                  = (events r ++ before ++ Fetch webhook 180000 :: after)%list.
Proof.
  intros Hweb Hmiss. unfold checkEngagementDecision. rewrite Hweb, Hmiss.
  destruct (executeWebhookRequest_sends rt (decisionRequest webhook post) x
              (updateHUD (waitingHud post) r)) as [rest Hsent]; [discriminate |].
  destruct (executeWebhookRequest _ _ _ _) as [answer r1].
  cbn [snd decisionRequest url timeout default from_option id] in Hsent.
  rewrite events_updateHUD in Hsent.
  exists (if hasPage r then [Hud (waitingHud post)] else []).
  destruct (andThen answer _); cbn [snd]; rewrite !events_emit;
    try (change (events (set_domCache ?c r1)) with (events r1));
    rewrite Hsent, <- !app_assoc; cbn [app]; eauto.
Qed.

(** The ['yes'] that stands in for a failed decision call is not cached:
    the cache is what it was, and the next call for the same post, however
    much later, sends its request to the endpoint again. *)
Theorem checkEngagementDecision_failure_not_cached (rt : Runtime) (post : PostData)
    (x x' : Exchange) (r : Runner) (webhook : string) (e : JsError) (ms : Z) :
  configuredWebhook r = Some webhook →
  freshEntry post r = None →
  andThen (executeWebhookRequest rt (decisionRequest webhook post) x r).1
    (λ answer, normalize answer post) = Throws e →
  let out := checkEngagementDecision rt post x r in
  out.1 = engageYes
  ∧ domCache out.2 = domCache r
  ∧ ∃ before after,
      events (checkEngagementDecision rt post x' (elapse ms out.2)).2
      = (events out.2 ++ before ++ Fetch webhook 180000 :: after)%list.
Proof.
  intros Hweb Hmiss Hcall out.
  rewrite (executeWebhookRequest_result _ _ _ _ (updateHUD (waitingHud post) r)) in Hcall.
  pose proof (executeWebhookRequest_frame rt (decisionRequest webhook post) x
                (updateHUD (waitingHud post) r)) as Hframe.
  destruct (executeWebhookRequest _ _ _ _) as [answer r1] eqn:Hout.
  cbn [fst snd] in Hcall, Hframe. destruct Hframe as (Hcache & Hhook & Hclock).
  rewrite domCache_updateHUD in Hcache. rewrite clock_updateHUD in Hclock.
  assert (Hhook' : postAnalysisWebhook r1 = postAnalysisWebhook r).
  { rewrite Hhook. unfold updateHUD. now destruct (page r). }
  assert (Hshape : out = (engageYes,
                          emit (Warn "defaulting to ENGAGE and resuming runner") r1)).
  { subst out. unfold checkEngagementDecision.
    rewrite Hweb, Hmiss, Hout, Hcall. reflexivity. }
  rewrite Hshape. cbn [fst snd]. clear Hshape out.
  split; [reflexivity |]. split; [exact Hcache |].
  change (events (emit (Warn "defaulting to ENGAGE and resuming runner") r1))
    with (events (elapse ms (emit (Warn "defaulting to ENGAGE and resuming runner") r1))).
  apply checkEngagementDecision_asks.
  - unfold configuredWebhook in *. cbn. now rewrite Hhook'.
  - unfold freshEntry in *. cbn. rewrite Hcache.
    destruct (domCache r !! cacheKey post) as [cached |]; [| reflexivity].
    destruct (Z.ltb_spec (clock r - timestamp cached) _cacheTimeout); [discriminate |].
    destruct (Z.ltb_spec (clock r1 + Z.max 0 ms - timestamp cached) _cacheTimeout);
      [lia | reflexivity].
Qed.

Lemma checkEngagementDecision_cache_hit_witness :
  let post := samplePost "urn:li:activity:1" in
  let x := answers 200 "OK" (Returns verdictBody) 1200 in
  let out := checkEngagementDecision sampleRuntime post x optimized in
  checkEngagementDecision sampleRuntime post (answers 503 "Unavailable" (Returns "") 10)
    (elapse 4999 out.2)
  = (mkDecision "yes" (JS.Str "urn:li:activity:1"),
     emit (Info "Engagement decision from cache") (elapse 4999 out.2)).
Proof.
  intros post x out.
  refine (proj2 (checkEngagementDecision_cache_hit sampleRuntime post post x _ optimized
                   (elapse 4999 out.2) _ (JS.Obj [("Engage", JS.Str "YES")]) _
                   eq_refl eq_refl _ eq_refl) eq_refl eq_refl eq_refl _).
  - vm_compute. reflexivity.
  - vm_compute. reflexivity.
Defined.

Lemma checkEngagementDecision_failure_not_cached_witness :
  let post := samplePost "urn:li:activity:1" in
  let out := checkEngagementDecision sampleRuntime post
               (answers 503 "Unavailable" (Returns "") 10) optimized in
  out.1 = engageYes ∧ domCache out.2 = ∅.
Proof.
  intros post out.
  destruct (checkEngagementDecision_failure_not_cached sampleRuntime post
              (answers 503 "Unavailable" (Returns "") 10)
              (answers 503 "Unavailable" (Returns "") 10) optimized
              "https://n8n.example/webhook/linkedin-parse"
              (Error "HTTP 503: Unavailable") 0 eq_refl eq_refl)
    as (Hyes & Hcache & _).
  - vm_compute. reflexivity.
  - split; [exact Hyes | exact Hcache].
Defined.

Lemma executeWebhookRequest_sent (rt : Runtime) (req : Request) (x : Exchange) (r : Runner) :
  payload req ≠ JS.Undefined →
  executeWebhookRequest rt req x r
  = let timeoutMs := default 10000 (timeout req) in
    let r := elapse (Z.min (latency x) timeoutMs) (emit (Fetch (url req) timeoutMs) r) in
    match exchangeAttempt rt req timeoutMs x r with
    | (Returns parsed, r) => (Returns parsed, r)
    | (Throws error, r) =>
        if String.eqb (errorTypeOf error) "DNS_FAILURE"
           && negb (bool_decide (is_Some (URL_hostname rt (url req))))
        then (Throws (TypeError "Invalid URL"), r)
        else (Throws error, emit (Diagnosed (errorTypeOf error) error) r)
    end.
Proof.
  intros Hp. unfold executeWebhookRequest. destruct (payload req); congruence.
Qed.

Lemma exchangeAttempt_returns_iff (rt : Runtime) (req : Request) (timeoutMs : Z)
    (x : Exchange) (r : Runner) (v : JS.value) :
  (exchangeAttempt rt req timeoutMs x r).1 = Returns v ↔
  latency x < timeoutMs
  ∧ ∃ resp responseText,
      reply x = Responds resp ∧ ok resp = true ∧ body resp = Returns responseText
      ∧ JS.trim responseText ≠ ""
      ∧ JSON_parse rt responseText = Returns v
      ∧ isContainer v = true.
Proof.
  unfold exchangeAttempt, fetch. split.
  - intros Hret.
    destruct (Z.leb_spec timeoutMs (latency x)); [discriminate |].
    split; [lia |].
    destruct (reply x) as [e | resp]; [discriminate |]. exists resp.
    destruct (ok resp); [| discriminate].
    destruct (body resp) as [responseText | e]; [| discriminate]. exists responseText.
    destruct (Nat.eqb_spec (String.length (JS.trim responseText)) 0) as [Hlen | Hlen];
      [discriminate |].
    destruct (JSON_parse rt responseText) as [parsed | e]; [| discriminate].
    cbn [andThen] in Hret.
    destruct parsed; cbn in Hret; simplify_eq; repeat split; auto;
      intros Hblank; apply Hlen; now rewrite Hblank.
  - intros (Hlat & resp & responseText & Hreply & Hok & Hbody & Htrim & Hparse & Hc).
    destruct (Z.leb_spec timeoutMs (latency x)); [lia |].
    rewrite Hreply, Hok, Hbody, Hparse.
    destruct (Nat.eqb_spec (String.length (JS.trim responseText)) 0) as [Hlen | Hlen].
    { destruct (JS.trim responseText); [congruence | discriminate]. }
    destruct v; try discriminate; reflexivity.
Qed.

Lemma exchangeAttempt_returns_state (rt : Runtime) (req : Request) (timeoutMs : Z)
    (x : Exchange) (r : Runner) (v : JS.value) :
  (exchangeAttempt rt req timeoutMs x r).1 = Returns v →
  (exchangeAttempt rt req timeoutMs x r).2 = r.
Proof. unfold exchangeAttempt. repeat case_match; cbn; congruence. Qed.

(** When the request client returns.  It returns [v] exactly when the
    payload can be serialized, the answer arrives before the timeout with
    a 2xx status and a body that is not blank, and the body parses to the
    object or array [v]; a body that parses to a number, a string, a
    boolean or [null] is reported as invalid JSON.  A call that returns
    has logged the request and nothing else, and has taken the latency of
    the exchange. *)
Theorem executeWebhookRequest_returns_iff (rt : Runtime) (req : Request) (x : Exchange)
    (r : Runner) (v : JS.value) :
  let out := executeWebhookRequest rt req x r in
  (out.1 = Returns v ↔
   payload req ≠ JS.Undefined
   ∧ latency x < default 10000 (timeout req)
   ∧ ∃ resp responseText,
       reply x = Responds resp ∧ ok resp = true ∧ body resp = Returns responseText
       ∧ JS.trim responseText ≠ ""
       ∧ JSON_parse rt responseText = Returns v
       ∧ isContainer v = true)
  ∧ (out.1 = Returns v →
     events out.2 = (events r ++ [Fetch (url req) (default 10000 (timeout req))])%list
     ∧ clock out.2 = clock r + Z.max 0 (latency x)).
Proof.
  intros out.
  assert (Hundef : payload req = JS.Undefined → out.1 ≠ Returns v).
  { intros Hp. subst out. unfold executeWebhookRequest. now rewrite Hp. }
  assert (Hsent : payload req ≠ JS.Undefined →
                  (out.1 = Returns v ↔
                   (exchangeAttempt rt req (default 10000 (timeout req)) x r).1 = Returns v)
                  ∧ (out.1 = Returns v →
                     out.2 = elapse (Z.min (latency x) (default 10000 (timeout req)))
                               (emit (Fetch (url req) (default 10000 (timeout req))) r))).
  { intros Hp. subst out. rewrite (executeWebhookRequest_sent _ _ _ _ Hp). cbv zeta.
    set (r1 := elapse _ _).
    rewrite (exchangeAttempt_result rt req _ x r r1).
    pose proof (exchangeAttempt_returns_state rt req (default 10000 (timeout req)) x r1)
      as Hstate.
    destruct (exchangeAttempt rt req _ x r1) as [[parsed | error] r2]; cbn [fst snd] in *.
    - split; [tauto |]. intros Hv. simplify_eq. now apply (Hstate v).
    - case_match; cbn; split; try split; congruence. }
  assert (Hdec : payload req = JS.Undefined ∨ payload req ≠ JS.Undefined)
    by (destruct (payload req); auto).
  split.
  - rewrite <- exchangeAttempt_returns_iff with (req := req) (r := r).
    destruct Hdec as [Hp | Hp]; [specialize (Hundef Hp); tauto |].
    destruct (Hsent Hp) as [Hiff _]. tauto.
  - intros Hret.
    destruct Hdec as [Hp | Hp]; [now destruct (Hundef Hp) |].
    destruct (Hsent Hp) as [Hiff Hstate].
    rewrite (Hstate Hret). split; [now rewrite events_elapse, events_emit |].
    apply Hiff, exchangeAttempt_returns_iff in Hret as [Hlat _].
    cbn. lia.
Qed.

Lemma executeWebhookRequest_returns_iff_witness :
  (executeWebhookRequest sampleRuntime sampleRequest
     (answers 200 "OK" (Returns verdictBody) 1200) started).1
  = Returns (JS.Obj [("Engage", JS.Str "YES")]).
Proof.
  apply (executeWebhookRequest_returns_iff sampleRuntime sampleRequest
           (answers 200 "OK" (Returns verdictBody) 1200) started).
  split; [discriminate |]. split; [cbn; lia |].
  exists (mkResponse 200 "OK" (Returns verdictBody)), verdictBody.
  repeat split; try reflexivity. vm_compute. discriminate.
Defined.










(** [stop] leaves [isPaused] as it is.  A session stopped while paused
    reports the status ['paused'] with [isRunning] and
    [keyboardLoopActive] false, and neither [resume] nor the resume route
    can clear the flag, both requiring an active loop. *)
Theorem getStatus_paused_after_stop (env : gmap string string) (r : Runner) :
  isPaused r = true →
  let r' := (stop r).2 in
  JS.get (getStatus env r') "status" = text "paused"
  ∧ JS.get (getStatus env r') "isRunning" = flag false
  ∧ JS.get (getStatus env r') "keyboardLoopActive" = flag false
  ∧ resume r' = (JS.Obj [("success", flag false); ("error", text "No active automation")], r')
  ∧ serve CallResume r' = r'.
Proof.
  intros Hpaused r'. subst r'.
  unfold stop, stop_second, cleanupTempData.
  case_match; unfold getStatus, resume, serve; state; rewrite Hpaused; repeat split.
Qed.

Lemma getStatus_paused_after_stop_witness :
  JS.get (getStatus ∅ (stop (set_isPaused true running)).2) "status" = text "paused".
Proof.
  exact (proj1 (getStatus_paused_after_stop ∅ (set_isPaused true running) eq_refl)).
Defined.

Lemma Held_Waited (r0 : Runner) (w : World) (r : Runner) : Held r0 w r → Waited r0 r.
Proof. now intros (_ & _ & H). Qed.

Lemma Waited_emit (r0 r : Runner) (e : Event) :
  isWaiting e = true → Waited r0 r → Waited r0 (emit e r).
Proof.
  intros He (extra & Hx & Hall). exists (extra ++ [e])%list.
  rewrite events_emit, Hx, app_assoc. split; [reflexivity |].
  apply Forall_app. split; [exact Hall | now repeat constructor].
Qed.

Lemma Held_emit (r0 : Runner) (w : World) (r : Runner) (e : Event) :
  isWaiting e = true → Held r0 w r → Held r0 w (emit e r).
Proof.
  intros He (Hc & Hp & Hw). repeat split; auto. now apply Waited_emit.
Qed.

Lemma Held_updateHUD (r0 : Runner) (w : World) (r : Runner) (u : list (string * JS.value)) :
  Held r0 w r → Held r0 w (updateHUD u r).
Proof.
  intros H. unfold updateHUD. destruct (page r); [exact H |].
  apply Held_emit; [reflexivity |]. exact H.
Qed.

(** A state change that touches neither the journal nor the pause flag. *)
Lemma Held_silent (r0 : Runner) (w w' : World) (r r' : Runner) :
  calls w' = calls w → journal r' = journal r → isPaused r' = isPaused r →
  Held r0 w r → Held r0 w' r'.
Proof.
  intros Hc Hj Hp (Hcalls & Hpaused & Hw). unfold Held, events in *.
  rewrite Hc, Hj, Hp. auto.
Qed.

Lemma Held_driver {A : Type} (r0 : Runner) (what : Event) (duration : Tick → Z)
    (answer : Tick → A) :
  isWaiting what = true →
  triple (Held r0) (driver what duration answer)
    (λ _ w r, Held r0 w r) (λ _ w r, Held r0 w r) (Waited r0).
Proof.
  intros Hwhat w r Hheld. unfold driver.
  destruct (page r) eqn:Hpage; [exact Hheld |].
  pose proof (Held_emit r0 w r what Hwhat Hheld) as Hnext.
  destruct (script w) as [| t rest]; [exact (Held_Waited _ _ _ Hnext) |].
  unfold advanceClock. cbn [calls script randoms].
  destruct Hheld as (Hcalls & _). rewrite Hcalls. cbn [deliver].
  assert (Hafter : Held r0 (mkWorld rest [] (randoms w))
                     (set_clock (clock (emit what r) + Z.max 0 (duration t)) (emit what r))).
  { eapply Held_silent; [| | | exact Hnext]; [now rewrite Hcalls | reflexivity..]. }
  state. rewrite Hpage. destruct (fails t); exact Hafter.
Qed.

Lemma Held_randomDelay (r0 : Runner) (env : gmap string string) :
  triple (Held r0) (randomDelay env)
    (λ _ w r, Held r0 w r) (λ _ w r, Held r0 w r) (Waited r0).
Proof.
  unfold randomDelay.
  eapply triple_bind with (Q' := λ _ w r, Held r0 w r).
  { intros w r H. unfold Math_random. destruct (randoms w); [exact H |].
    eapply Held_silent; [| | | exact H]; reflexivity. }
  intros u. eapply triple_bind with (Q' := λ _ w r, Held r0 w r).
  { apply triple_update. intros w r H. now apply Held_emit. }
  intros ?. now apply Held_driver.
Qed.

(** Paused, and with no control call to come, the pause loop ends only
    because the session is no longer active. *)
Lemma Held_whilePaused (r0 : Runner) (fuel : nat) (env : gmap string string) :
  triple (Held r0) (whilePaused fuel env)
    (λ _ w r, Held r0 w r ∧ keyboardLoopActive r && negb (stopRequested r) = false)
    (λ _ w r, Held r0 w r) (Waited r0).
Proof.
  induction fuel as [| fuel IH]; cbn [whilePaused].
  - apply triple_pending. intros w r. apply Held_Waited.
  - apply triple_look. intros r1.
    destruct (isPaused r1 && keyboardLoopActive r1 && negb (stopRequested r1)) eqn:Hcond.
    + eapply triple_bind with (Q' := λ _ w r, Held r0 w r).
      * eapply triple_weaken; [apply (Held_randomDelay r0) | | | |]; cbn; auto.
        now intros ? ? [? _].
      * intros ?. exact IH.
    + apply triple_ret. intros w r [Hheld ->]. split; [exact Hheld |].
      destruct Hheld as (_ & Hpaused & _). rewrite Hpaused in Hcond. exact Hcond.
Qed.

Lemma Held_automationLoop (r0 : Runner) (fuel : nat) (rt : Runtime)
    (env : gmap string string) (maxActions : JS.value) :
  triple (Held r0) (automationLoop fuel rt env maxActions)
    (λ _ w r, Held r0 w r) (λ _ w r, Held r0 w r) (Waited r0).
Proof.
  destruct fuel as [| fuel]; cbn [automationLoop].
  - apply triple_pending. intros w r. apply Held_Waited.
  - apply triple_look_any. intros r1.
    destruct (keyboardLoopActive r1 && negb (stopRequested r1)); [| now apply triple_ret].
    eapply triple_bind; [apply Held_whilePaused |].
    intros ?. apply triple_look. intros r2.
    destruct (negb (keyboardLoopActive r2) || stopRequested r2) eqn:Hexit.
    + apply triple_ret. now intros w r [[H _] _].
    + intros w r [[_ Hloop] Heq]. exfalso. rewrite Heq in Hloop.
      destruct (keyboardLoopActive r2), (stopRequested r2); discriminate.
Qed.

Lemma Held_getThresholds (r0 : Runner) (env : gmap string string) :
  triple (Held r0) (λ w r, let '(v, r) := getThresholds env r in Done v w r)
    (λ _ w r, Held r0 w r) (λ _ w r, Held r0 w r) (Waited r0).
Proof.
  intros w r H.
  assert (Hstate : Held r0 w (getThresholds env r).2).
  { unfold getThresholds. cbn [snd].
    destruct (thresholdsValidated r); [exact H |].
    destruct (JS.strictEqNumber _ _).
    - eapply Held_silent; [| | | exact H]; reflexivity.
    - eapply Held_silent;
        [| | | apply (Held_emit _ _ _ (Warn "Invalid maxActions detected, clamped to safe value")
                       eq_refl H)]; reflexivity. }
  destruct (getThresholds env r). exact Hstate.
Qed.

(** [startKeyboardAutomation] does not reset [isPaused].  Started with
    the flag set - as a session stopped while paused leaves it - and with
    no control call to come, the automation only waits: whatever the page
    does, it logs, pushes to the HUD and sleeps, and presses no key,
    evaluates nothing, decides on and engages with no post. *)
Theorem startKeyboardAutomation_paused_only_waits (fuel : nat) (rt : Runtime)
    (env : gmap string string) (w : World) (r : Runner) :
  isPaused r = true →
  calls w = [] →
  let r' := final (startKeyboardAutomation fuel rt env w r) in
  (∃ extra, events r' = (events r ++ extra)%list ∧ Forall (λ e, isWaiting e = true) extra)
  ∧ presses r' = presses r ∧ decided r' = decided r ∧ engaged r' = engaged r.
Proof.
  intros Hpaused Hcalls r'.
  assert (Hwaited : Waited r r').
  { assert (Hheld : Held r w r).
    { repeat split; auto. exists []. now rewrite app_nil_r. }
    assert (Htriple : triple (Held r) (startKeyboardAutomation fuel rt env)
                        (λ _ _ r1, Waited r r1) (λ _ _ r1, Waited r r1) (Waited r)).
    { unfold startKeyboardAutomation. apply triple_look_any. intros r1.
      destruct (negb (isRunning r1) || negb (hasPage r1)).
      { apply triple_raise. intros ? ?. apply Held_Waited. }
      destruct (keyboardLoopActive r1).
      { apply triple_raise. intros ? ?. apply Held_Waited. }
      eapply triple_bind with (Q' := λ _ w1 r2, Held r w1 r2).
      { apply triple_update. intros w1 r2 H.
        eapply Held_silent; [| | | exact H]; reflexivity. }
      intros ?. eapply triple_bind with (Q' := λ _ w1 r2, Held r w1 r2).
      { apply triple_update. intros w1 r2 H.
        eapply Held_silent; [| | | exact H]; reflexivity. }
      intros ?. eapply triple_bind with (Q' := λ _ w1 r2, Held r w1 r2);
        [exact (Held_getThresholds r env) |].
      intros limits. eapply triple_bind with (Q' := λ _ w1 r2, Held r w1 r2).
      { apply triple_update. intros w1 r2 H.
        eapply Held_silent; [| | | exact H]; reflexivity. }
      intros ?.
      eapply triple_finally with (Q' := λ _ _ r2, Waited r r2) (E' := λ _ _ r2, Waited r r2);
        [| auto..].
      eapply triple_catch with (E' := λ _ _ r2, Waited r r2).
      - eapply triple_bind with (Q' := λ _ w1 r2, Held r w1 r2).
        { apply triple_update. intros w1 r2 H. now apply Held_updateHUD. }
        intros ?. eapply triple_bind with (Q' := λ _ w1 r2, Held r w1 r2).
        { eapply triple_weaken;
            [ apply (Held_automationLoop r) | auto | auto
            | intros ? ? ?; apply Held_Waited | auto ]. }
        intros ?. apply triple_update. intros w1 r2 H.
        apply Waited_emit; [reflexivity |]. now apply Held_Waited in H.
      - intros e. destruct (isClosure (errMessage e)).
        + apply triple_update. intros w1 r2 H. now apply Waited_emit.
        + eapply triple_bind with (Q' := λ _ _ r2, Waited r r2).
          * apply triple_update. intros w1 r2 H. now apply Waited_emit.
          * intros ?. now apply triple_raise. }
    specialize (Htriple w r Hheld). subst r'.
    destruct (startKeyboardAutomation fuel rt env w r); exact Htriple. }
  split; [exact Hwaited |].
  destruct Hwaited as (extra & Hx & Hall).
  unfold presses, decided, engaged. rewrite Hx, !omap_app. clear Hx.
  assert (Hnone : ∀ {X} (f : Event → option X),
             (∀ e, isWaiting e = true → f e = None) → omap f extra = []).
  { intros X f Hf. induction Hall as [| e extra He _ IH]; cbn; [reflexivity |].
    rewrite (Hf e He). exact IH. }
  rewrite !Hnone, !app_nil_r; auto; intros [] ?; cbn in *; congruence.
Qed.

Lemma startKeyboardAutomation_paused_only_waits_witness :
  presses (final (startKeyboardAutomation 40 sampleRuntime ∅ revisits
                    (set_isPaused true started))) = [].
Proof.
  exact (proj1 (proj2 (startKeyboardAutomation_paused_only_waits 40 sampleRuntime ∅ revisits
                         (set_isPaused true started) eq_refl eq_refl))).
Defined.

Lemma nextDraw_range (w : World) : 0 ≤ nextDraw w < 2 ^ 53.
Proof.
  unfold nextDraw. destruct (randoms w); [lia |].
  apply Z.mod_pos_bound. lia.
Qed.

Lemma Math_random_nextDraw (w : World) (r : Runner) :
  ∃ w', Math_random w r = Done (nextDraw w) w' r
        ∧ script w' = script w ∧ calls w' = calls w.
Proof.
  unfold Math_random, nextDraw. destruct (randoms w); eauto.
Qed.

(** [Math.floor(u * span)] lies between 0 and [span], and below [span]
    when that is positive. *)
Lemma scaled_bounds (u span : Z) :
  0 ≤ u < 2 ^ 53 →
  Z.min 0 span ≤ scaled u span ≤ Z.max 0 span ∧ (0 < span → scaled u span < span).
Proof.
  intros Hu. unfold scaled.
  assert (H53 : 0 < 2 ^ 53) by lia.
  destruct (Z.le_gt_cases 0 span) as [Hs | Hs].
  - assert (Hlow : 0 ≤ u * span / 2 ^ 53) by (apply Z.div_pos; nia).
    assert (Hup : 0 < span → u * span / 2 ^ 53 < span).
    { intros ?. apply Z.div_lt_upper_bound; nia. }
    assert (Hzero : span = 0 → u * span / 2 ^ 53 = 0).
    { intros ->. now rewrite Z.mul_0_r. }
    set (q := u * span / 2 ^ 53) in *. lia.
  - assert (Hlow : span ≤ u * span / 2 ^ 53) by (apply Z.div_le_lower_bound; nia).
    assert (Hup : u * span / 2 ^ 53 < 1) by (apply Z.div_lt_upper_bound; nia).
    set (q := u * span / 2 ^ 53) in *. lia.
Qed.

Lemma page_serve (c : Control) (r : Runner) : c ≠ CallStop → page (serve c r) = page r.
Proof.
  intros Hc. destruct c; [| | congruence]; unfold serve, pause, resume;
    repeat case_match; reflexivity.
Qed.

Lemma deliver_no_stop (upto : Z) (cs : list (Z * Control)) (r : Runner) :
  Forall (λ c, c.2 ≠ CallStop) cs →
  page (deliver upto cs r).2 = page r
  ∧ Forall (λ c, c.2 ≠ CallStop) (deliver upto cs r).1.
Proof.
  intros Hcs. revert r. induction Hcs as [| [arrival c] cs Hc Hcs IH]; intros r.
  - split; [reflexivity | constructor].
  - cbn [deliver]. destruct (arrival <=? upto).
    + destruct (IH (serve c (set_clock (Z.max (clock r) arrival) r))) as [Hp Hrest].
      split; [| exact Hrest]. rewrite Hp. now rewrite page_serve.
    + split; [reflexivity |]. now constructor.
Qed.

(** A driver call on an open page puts its event in the journal at once. *)
Lemma driver_journal {A : Type} (what : Event) (duration : Tick → Z) (answer : Tick → A)
    (w : World) (r : Runner) :
  page r = PageLive →
  ∃ after, journal (final (driver what duration answer w r))
           = (journal r ++ (clock r, what) :: after)%list.
Proof.
  intros Hpage. unfold driver. rewrite Hpage.
  destruct (script w) as [| t rest]; [now exists [] |].
  pose proof (benign_advanceClock (duration t) (mkWorld rest (calls w) (randoms w))
                (emit what r)) as (extra & Hj & _).
  destruct (advanceClock _ _ _) as [w' r']. cbn [snd] in Hj.
  exists extra.
  assert (Hall : journal r' = (journal r ++ (clock r, what) :: extra)%list).
  { rewrite Hj. cbn. now rewrite <- app_assoc. }
  repeat case_match; exact Hall.
Qed.

(** The call returns when the page answers it and no [stop] arrives
    meanwhile; it has then taken the time the page took. *)
Lemma driver_returns {A : Type} (what : Event) (duration : Tick → Z) (answer : Tick → A)
    (w : World) (r : Runner) (t : Tick) (rest : list Tick) :
  page r = PageLive → script w = t :: rest → fails t = None →
  Forall (λ c, c.2 ≠ CallStop) (calls w) →
  ∃ w' r', driver what duration answer w r = Done (answer t) w' r'
           ∧ script w' = rest ∧ randoms w' = randoms w
           ∧ Forall (λ c, c.2 ≠ CallStop) (calls w')
           ∧ clock r' = clock r + Z.max 0 (duration t)
           ∧ page r' = PageLive.
Proof.
  intros Hpage Hscript Hfails Hcalls. unfold driver, advanceClock.
  rewrite Hpage, Hscript. cbn [calls script randoms].
  destruct (deliver_no_stop (clock (emit what r) + Z.max 0 (duration t)) (calls w)
              (emit what r) Hcalls) as [Hp Hrest].
  destruct (deliver _ _ _) as [cs r1]. cbn [fst snd] in Hp, Hrest.
  state. rewrite Hp, Hpage, Hfails.
  eexists _, _. split; [reflexivity |]. repeat split; auto. state. congruence.
Qed.

(** [randomDelay] ignores its arguments: its bounds are those of the
    environment, 3000 and 8000 ms by default.  On an open page it logs
    and then sleeps for a delay between the two bounds, inclusive, and
    returns after exactly that delay when the page answers and no [stop]
    arrives. *)
Theorem randomDelay_within_bounds (env : gmap string string) (w : World) (r : Runner) :
  minActionDelay env ≤ maxActionDelay env →
  page r = PageLive →
  ∃ delay after,
    minActionDelay env ≤ delay ≤ maxActionDelay env
    ∧ journal (final (randomDelay env w r))
      = (journal r ++ (clock r, Info "Waiting (human-like delay)")
                   :: (clock r, Wait delay) :: after)%list
    ∧ (∀ t rest, script w = t :: rest → fails t = None →
         Forall (λ c, c.2 ≠ CallStop) (calls w) →
         ∃ w' r', randomDelay env w r = Done tt w' r'
                  ∧ clock r' = clock r + Z.max 0 delay).
Proof.
  intros Horder Hpage.
  set (delay := scaled (nextDraw w) (maxActionDelay env - minActionDelay env + 1)
                + minActionDelay env).
  destruct (scaled_bounds (nextDraw w) (maxActionDelay env - minActionDelay env + 1)
              (nextDraw_range w)) as [Hbetween Hbelow].
  destruct (Math_random_nextDraw w r) as (w1 & Hdraw & Hscript & Hcalls).
  assert (Hrun : randomDelay env w r
                 = waitForTimeout delay w1 (emit (Info "Waiting (human-like delay)") r)).
  { unfold randomDelay. fold (minActionDelay env) (maxActionDelay env).
    unfold bind at 1. rewrite Hdraw. reflexivity. }
  destruct (driver_journal (Wait delay) (λ _, delay) (λ _, tt) w1
              (emit (Info "Waiting (human-like delay)") r) Hpage) as [after Hj].
  exists delay, after. split; [subst delay; lia |]. split.
  - rewrite Hrun. unfold waitForTimeout. rewrite Hj. cbn. now rewrite <- app_assoc.
  - intros t rest Hs Hf Hc. rewrite Hrun.
    destruct (driver_returns (Wait delay) (λ _, delay) (λ _, tt) w1
                (emit (Info "Waiting (human-like delay)") r) t rest Hpage)
      as (w' & r' & Hdone & _ & _ & _ & Hclock & _); try congruence.
    exists w', r'. split; [exact Hdone | exact Hclock].
Qed.

Lemma randomDelay_within_bounds_witness :
  ∃ delay, 3000 ≤ delay ≤ 8000
           ∧ (0, Wait delay) ∈ journal (final (randomDelay ∅ (mkWorld [idle] [] [2 ^ 52]) started)).
Proof.
  destruct (randomDelay_within_bounds ∅ (mkWorld [idle] [] [2 ^ 52]) started)
    as (delay & after & Hbounds & Hj & _).
  - vm_compute. discriminate.
  - reflexivity.
  - exists delay. split; [exact Hbounds |]. rewrite Hj.
    apply elem_of_app. right. apply list_elem_of_further, list_elem_of_here.
Defined.

Lemma calm_bind {A B : Type} (m : M A) (k : A → M B) :
  calm m → (∀ a, calm (k a)) → calm (bind m k).
Proof.
  intros Hm Hk w r Hcalls. unfold bind.
  destruct (Hm w r Hcalls) as [Hp Hw].
  destruct (m w r) as [a w1 r1 | e w1 r1 | r1]; cbn [final] in *;
    [| split; [exact Hp | discriminate]..].
  destruct (Hk a w1 r1 (Hw a w1 r1 eq_refl)) as [Hp' Hw'].
  split; [congruence | exact Hw'].
Qed.

Lemma calm_ret {A : Type} (a : A) : calm (ret a).
Proof. intros w r Hcalls. split; [reflexivity |]. now intros ? ? ? [= _ <- _]. Qed.

Lemma calm_emit (e : Event) : calm (update (emit e)).
Proof. intros w r Hcalls. split; [reflexivity |]. now intros ? ? ? [= _ <- _]. Qed.

Lemma calm_driver {A : Type} (what : Event) (duration : Tick → Z) (answer : Tick → A) :
  calm (driver what duration answer).
Proof.
  intros w r Hcalls. unfold driver, advanceClock.
  destruct (page r) eqn:Hp; [split; [reflexivity | discriminate] |].
  destruct (script w) as [| t rest]; [split; [reflexivity | discriminate] |].
  cbn [calls script randoms]. rewrite Hcalls. cbn [deliver]. state. rewrite Hp.
  destruct (fails t); (split; [reflexivity |]); [discriminate |].
  now intros ? ? ? [= _ <- _].
Qed.

Lemma calm_isInsidePost : calm isInsidePost.
Proof.
  intros w r Hcalls. unfold isInsidePost.
  destruct (page r) eqn:Hp.
  - split; [reflexivity |]. now intros ? ? ? [= _ <- _].
  - exact (calm_driver (Evaluate "isInsidePost") took focused w r Hcalls).
Qed.

Lemma calm_advancePastPost (fuel : nat) (found cur : string) :
  calm (advancePastPost fuel found cur).
Proof.
  induction fuel as [| fuel IH]; cbn [advancePastPost].
  - intros w r Hcalls. split; [reflexivity | discriminate].
  - repeat (apply calm_bind; [first [apply calm_driver | apply calm_isInsidePost] |];
            intros ?).
    repeat case_match; try assumption.
    apply calm_bind; [apply calm_emit | intros ?; apply calm_ret].
Qed.

(** The first thing the advancing phase does on an open page is to press
    Tab; with no control call to come it leaves the pause flag as it
    was. *)
Lemma advancePastPost_presses_first (fuel : nat) (found cur : string) (w : World)
    (r : Runner) :
  page r = PageLive →
  ∃ after, journal (final (advancePastPost (S fuel) found cur w r))
           = (journal r ++ (clock r, Press "Tab") :: after)%list.
Proof.
  intros Hpage. cbn [advancePastPost]. unfold bind at 1.
  destruct (driver_journal (Press "Tab") took (λ _, tt) w r Hpage) as [after Hj].
  fold (press "Tab") in Hj.
  destruct (press "Tab" w r) as [[] w1 r1 | e w1 r1 | r1] eqn:Hpress; cbn [final] in Hj;
    [| now exists after..].
  match goal with
  | |- context [final (?rest w1 r1)] =>
      assert (Hquiet : quiet rest) by (pose proof (quiet_advancePastPost fuel found cur);
                                       quiet_steps);
      destruct (Hquiet w1 r1) as (extra & Hx & _)
  end.
  exists (after ++ extra)%list. rewrite Hx, Hj, <- app_assoc. reflexivity.
Qed.

Lemma final_bind_ret {A B : Type} (m : M A) (b : B) (w : World) (r : Runner) :
  final (bind m (λ _, ret b) w r) = final (m w r).
Proof. unfold bind. now destruct (m w r). Qed.

(** A driver call during which the operator's [pause] arrives. *)
Lemma driver_serves_pause {A : Type} (what : Event) (duration : Tick → Z)
    (answer : Tick → A) (w : World) (r : Runner) (tk : Tick) (rest : list Tick)
    (arrival : Z) :
  page r = PageLive → isRunning r = true → keyboardLoopActive r = true →
  script w = tk :: rest → fails tk = None →
  calls w = [(arrival, CallPause)] →
  clock r ≤ arrival ≤ clock r + Z.max 0 (duration tk) →
  driver what duration answer w r
  = Done (answer tk) (mkWorld rest [] (randoms w))
      (set_clock (clock r + Z.max 0 (duration tk))
         (emit (Info "Automation paused by user")
            (set_isPaused true (set_clock arrival (emit what r))))).
Proof.
  intros Hpage Hrun Hloop Hscript Hfails Hcalls Harrival.
  unfold driver, advanceClock. rewrite Hpage, Hscript. cbn [calls script randoms].
  rewrite Hcalls. cbn [deliver]. state.
  destruct (Z.leb_spec arrival (clock r + Z.max 0 (duration tk))); [| lia].
  unfold serve, pause. state. rewrite Hrun, Hloop. cbn [negb orb]. state.
  rewrite Hpage, Hfails. rewrite (Z.max_r (clock r) arrival) by lia. reflexivity.
Qed.

(** The cool-down after a comment is a plain timeout.  A [pause] that
    arrives while it runs sets the flag and is logged, and the Tab that
    leaves the post is pressed all the same, at the very time the
    cool-down was due to end; the cool-down itself lies between
    [cooldownMin] and [cooldownMax] when these are in order. *)
Theorem cooldown_not_suspended_by_pause (fuel : nat) (maxActions : JS.value) (t : Timing)
    (post : PostData) (w : World) (r : Runner) (tk : Tick) (rest : list Tick)
    (arrival : Z) :
  page r = PageLive → isRunning r = true → keyboardLoopActive r = true →
  script w = tk :: rest → fails tk = None →
  let cooldown := cooldownMin t + scaled (nextDraw w) (cooldownMax t - cooldownMin t) in
  calls w = [(arrival, CallPause)] →
  clock r ≤ arrival ≤ clock r + Z.max 0 cooldown →
  let r' := final (afterEngage (S fuel) maxActions t post true w r) in
  (cooldownMin t ≤ cooldownMax t → cooldownMin t ≤ cooldown ≤ cooldownMax t)
  ∧ isPaused r' = true
  ∧ ∃ before after,
      journal r' = (journal r ++ before
                      ++ (clock r, Wait cooldown)
                      :: (arrival, Info "Automation paused by user")
                      :: (clock r + Z.max 0 cooldown, Press "Tab") :: after)%list.
Proof.
  intros Hpage Hrun Hloop Hscript Hfails cooldown Hcalls Harrival r'.
  split.
  { intros Horder.
    destruct (scaled_bounds (nextDraw w) (cooldownMax t - cooldownMin t) (nextDraw_range w))
      as [Hbetween _].
    subst cooldown. lia. }
  set (posted := countComment r).
  set (r1 := updateHUD [("action", text "Comment Posted");
                        ("commentsPosted", int (commentsPosted (sessionStats posted)));
                        ("maxComments", maxActions)]
               (emit (Remaining (JS.minus maxActions (commentsPosted (sessionStats posted))))
                  posted)).
  set (r2 := emit (Info "Post-comment cooldown") r1).
  assert (Hr2 : page r2 = PageLive ∧ isRunning r2 = true ∧ keyboardLoopActive r2 = true
                ∧ clock r2 = clock r
                ∧ ∃ before, journal r2 = (journal r ++ before)%list).
  { subst r2 r1 posted. unfold updateHUD, countComment. state. rewrite Hpage. state.
    repeat split; auto. eexists. rewrite <- !app_assoc. reflexivity. }
  destruct Hr2 as (Hpage2 & Hrun2 & Hloop2 & Hclock2 & before & Hbefore).
  destruct (Math_random_nextDraw w r1) as (w1 & Hdraw & Hscript1 & Hcalls1).
  assert (Hwait : waitForTimeout cooldown w1 r2
                  = Done tt (mkWorld rest [] (randoms w1))
                      (set_clock (clock r2 + Z.max 0 cooldown)
                         (emit (Info "Automation paused by user")
                            (set_isPaused true
                               (set_clock arrival (emit (Wait cooldown) r2)))))).
  { apply (driver_serves_pause (Wait cooldown) (λ _, cooldown) (λ _, tt) w1 r2 tk rest);
      try congruence; try (rewrite Hclock2; exact Harrival). }
  set (r3 := set_clock _ _) in Hwait.
  assert (Hshape : r' = final (advancePastPost (S fuel) "Found new post" (postId post)
                                 (mkWorld rest [] (randoms w1)) r3)).
  { subst r'. unfold afterEngage.
    change (final (bind Math_random
                     (λ u, let cooldown := cooldownMin t
                                           + scaled u (cooldownMax t - cooldownMin t) in
                           update (emit (Info "Post-comment cooldown")) >>
                           waitForTimeout cooldown >>
                           advancePastPost (S fuel) "Found new post" (postId post) >>
                           ret Continue) w r1) = final
                     (advancePastPost (S fuel) "Found new post" (postId post)
                        (mkWorld rest [] (randoms w1)) r3)).
    unfold bind at 1. rewrite Hdraw. cbv zeta. fold cooldown.
    unfold bind at 1. unfold update at 1. fold r2.
    unfold bind at 1. rewrite Hwait.
    apply final_bind_ret. }
  assert (Hpage3 : page r3 = PageLive) by exact Hpage2.
  split.
  - rewrite Hshape.
    destruct (calm_advancePastPost (S fuel) "Found new post" (postId post)
                (mkWorld rest [] (randoms w1)) r3 eq_refl) as [Hpaused _].
    rewrite Hpaused. reflexivity.
  - destruct (advancePastPost_presses_first fuel "Found new post" (postId post)
                (mkWorld rest [] (randoms w1)) r3 Hpage3) as [after Hafter].
    exists before, after. rewrite Hshape, Hafter.
    subst r3. state. rewrite Hbefore, Hclock2, <- !app_assoc. reflexivity.
Qed.

Lemma cooldown_not_suspended_by_pause_witness :
  let t := mkTiming 1000 2000 1000 2000 5000 10000 in
  let w := mkWorld [idle; focus "B"; idle; idle] [(7000, CallPause)] [2 ^ 52] in
  let r' := final (afterEngage 5 (int 10) t (samplePost "A") true w
                     (set_keyboardLoopActive true started)) in
  isPaused r' = true ∧ (7500, Press "Tab") ∈ journal r'.
Proof.
  intros t w r'.
  destruct (cooldown_not_suspended_by_pause 4 (int 10) t (samplePost "A") w
              (set_keyboardLoopActive true started) idle [focus "B"; idle; idle] 7000
              eq_refl eq_refl eq_refl eq_refl eq_refl eq_refl)
    as (_ & Hpaused & before & after & Hj).
  - vm_compute. split; discriminate.
  - split; [exact Hpaused |]. subst r'. rewrite Hj.
    apply elem_of_app. right. apply elem_of_app. right.
    do 2 apply list_elem_of_further. apply list_elem_of_here.
Defined.






(** With a limit of one comment, three comments are posted and the loop
    goes on: the count that remains goes below zero. *)
Example automationLoop_past_maxActions :
  let r' := final (automationLoop 40 sampleRuntime ∅ (int 1) threePosts
                     (set_keyboardLoopActive true started)) in
  engaged r' = ["A"; "B"; "C"]
  ∧ omap (λ e, match e with Remaining n => Some n | _ => None end) (events r')
    = [JS.Fin 0; JS.Fin (-1); JS.Fin (-2)]
  ∧ keyboardLoopActive r' = true.
Proof. vm_compute. repeat split. Qed.




Lemma navigateFrom_frame (remaining attempt : nat) (feedUrl runsDir : string)
    (browser : nat → Attempt) (found : list Artifact) (r : Runner) :
  let r' := (navigateFrom remaining attempt feedUrl runsDir browser found r).2 in
  page r' = page r ∧ isRunning r' = isRunning r ∧ isPaused r' = isPaused r
  ∧ stopRequested r' = stopRequested r ∧ sessionId r' = sessionId r
  ∧ keyboardLoopActive r' = keyboardLoopActive r.
Proof.
  revert attempt found r.
  assert (Hhud : ∀ u r, page (updateHUD u r) = page r ∧ isRunning (updateHUD u r) = isRunning r
                        ∧ isPaused (updateHUD u r) = isPaused r
                        ∧ stopRequested (updateHUD u r) = stopRequested r
                        ∧ sessionId (updateHUD u r) = sessionId r
                        ∧ keyboardLoopActive (updateHUD u r) = keyboardLoopActive r).
  { intros u r. unfold updateHUD. destruct (page r) eqn:Hp; cbn; rewrite ?Hp; auto 10. }
  assert (Hcap : ∀ l r, page (captureEvents l r) = page r
                        ∧ isRunning (captureEvents l r) = isRunning r
                        ∧ isPaused (captureEvents l r) = isPaused r
                        ∧ stopRequested (captureEvents l r) = stopRequested r
                        ∧ sessionId (captureEvents l r) = sessionId r
                        ∧ keyboardLoopActive (captureEvents l r) = keyboardLoopActive r).
  { unfold captureEvents. induction l as [| x l IH]; intros r; cbn; [auto 10 |].
    destruct (IH (emit (Capture (artifactType x) (artifactPath x)) r))
      as (-> & -> & -> & -> & -> & ->). auto 10. }
  induction remaining as [| remaining IH]; intros attempt found r; cbn [navigateFrom].
  - cbn. auto 10.
  - destruct (Hhud [("action", text ("Loading LinkedIn (attempt " +:+ pretty attempt
                                       +:+ "/3)"))] r) as (Hp & Hr & Hq & Hs & Hi & Hk).
    destruct (attemptPage (browser attempt)); [cbn; auto 10 |].
    set (r1 := captureEvents _ _).
    assert (H1 : page r1 = page r ∧ isRunning r1 = isRunning r ∧ isPaused r1 = isPaused r
                 ∧ stopRequested r1 = stopRequested r ∧ sessionId r1 = sessionId r
                 ∧ keyboardLoopActive r1 = keyboardLoopActive r).
    { subst r1. destruct (Hcap (captures runsDir attempt (browser attempt))
                            (emit (Failure "Navigation attempt failed")
                               (emit (Goto feedUrl)
                                  (updateHUD [("action", text ("Loading LinkedIn (attempt "
                                                               +:+ pretty attempt +:+ "/3)"))] r))))
        as (-> & -> & -> & -> & -> & ->). cbn. auto 10. }
    destruct H1 as (H1p & H1r & H1q & H1s & H1i & H1k).
    destruct (attempt <? MAX_ATTEMPTS)%nat.
    + destruct (backoffFails (browser attempt)); [cbn; auto 10 |].
      match goal with
      | |- context [navigateFrom remaining ?a feedUrl runsDir browser ?f ?r2] =>
          destruct (IH a f r2) as (-> & -> & -> & -> & -> & ->)
      end. cbn. auto 10.
    + match goal with
      | |- context [navigateFrom remaining ?a feedUrl runsDir browser ?f ?r2] =>
          destruct (IH a f r2) as (-> & -> & -> & -> & -> & ->)
      end. auto 10.
Qed.

Lemma start_returns (feedUrl : option string) (env : gmap string string)
    (projectDir : string) (launch : Launch) (browser : nat → Attempt) (r : Runner) :
  isRunning r = false →
  let out := start feedUrl env projectDir launch browser r in
  ∃ answer,
    out.1 = Returns answer
    ∧ JS.get answer "success" = flag (isRunning out.2)
    ∧ hasPage out.2 = isRunning out.2.
Proof.
  intros Hstopped out. subst out. unfold start. rewrite Hstopped.
  unfold startError, markStarted.
  destruct (launchFails launch); [eexists; repeat split; auto |].
  destruct (pageFails launch); [eexists; repeat split; auto |].
  destruct (hudFails launch); [eexists; repeat split; auto |].
  match goal with
  | |- context [navigateToLinkedInWithRetries ?u ?d browser ?r0] =>
      pose proof (navigateFrom_frame MAX_ATTEMPTS 1 u d browser [] r0) as Hframe;
      fold (navigateToLinkedInWithRetries u d browser r0) in Hframe;
      destruct (navigateToLinkedInWithRetries u d browser r0) as [[navResult | error] r1]
  end; cbn [snd] in Hframe; destruct Hframe as (Hp & Hr & Hq & Hs & Hi & Hk);
    cbn in Hp, Hr, Hq, Hs, Hi, Hk.
  - destruct (success navResult); cbn [negb].
    + destruct (frontFails launch).
      * eexists. cbn. rewrite ?Hp, ?Hr, ?Hq, ?Hs, ?Hi, ?Hk. repeat split; auto.
      * eexists. unfold updateHUD. cbn. rewrite Hp. cbn.
        rewrite ?Hp, ?Hr, ?Hq, ?Hs, ?Hi, ?Hk. repeat split; auto.
        unfold hasPage. cbn. now rewrite ?Hp, ?Hr, ?Hq, ?Hs, ?Hi, ?Hk.
    + eexists. cbn. rewrite ?Hp, ?Hr, ?Hq, ?Hs, ?Hi, ?Hk. repeat split; auto.
  - eexists. cbn. rewrite ?Hp, ?Hr, ?Hq, ?Hs, ?Hi, ?Hk. repeat split; auto.
Qed.

(** [start] throws only on a runner that is already running, which it
    leaves untouched.  Otherwise it answers an object whose [success]
    tells whether the runner is running afterwards; the page is open
    exactly then; the stop flag is cleared, the pause flag kept, a new
    session identifier allocated and reported; and a failed start
    carries the code [NAV_TIMEOUT] or [START_ERROR]. *)
Theorem start_outcomes (feedUrl : option string) (env : gmap string string)
    (projectDir : string) (launch : Launch) (browser : nat → Attempt) (r : Runner) :
  let out := start feedUrl env projectDir launch browser r in
  (isRunning r = true → out = (Throws (Error "Runner already active"), r))
  ∧ (isRunning r = false →
     ∃ answer,
       out.1 = Returns answer
       ∧ JS.get answer "success" = flag (isRunning out.2)
       ∧ hasPage out.2 = isRunning out.2
       ∧ stopRequested out.2 = false
       ∧ isPaused out.2 = isPaused r
       ∧ keyboardLoopActive out.2 = keyboardLoopActive r
       ∧ sessionId out.2 = Some ("session-" +:+ pretty (clock r))
       ∧ JS.get answer "sessionId" = text ("session-" +:+ pretty (clock r))
       ∧ (isRunning out.2 = false →
          JS.get answer "code" = text "NAV_TIMEOUT"
          ∨ JS.get answer "code" = text "START_ERROR")).
Proof.
  intros out. subst out. unfold start. split.
  - intros ->. reflexivity.
  - intros ->. unfold startError, markStarted.
    destruct (launchFails launch); [eexists; repeat split; auto |].
    destruct (pageFails launch); [eexists; repeat split; auto |].
    destruct (hudFails launch); [eexists; repeat split; auto |].
    match goal with
    | |- context [navigateToLinkedInWithRetries ?u ?d browser ?r0] =>
        pose proof (navigateFrom_frame MAX_ATTEMPTS 1 u d browser [] r0) as Hframe;
        fold (navigateToLinkedInWithRetries u d browser r0) in Hframe;
        destruct (navigateToLinkedInWithRetries u d browser r0) as [[navResult | error] r1]
    end; cbn [snd] in Hframe; destruct Hframe as (Hp & Hr & Hq & Hs & Hi & Hk);
      cbn in Hp, Hr, Hq, Hs, Hi, Hk.
    + destruct (success navResult); cbn [negb].
      * destruct (frontFails launch).
        -- eexists. cbn. rewrite ?Hp, ?Hr, ?Hq, ?Hs, ?Hi, ?Hk. repeat split; auto.
        -- eexists. unfold updateHUD. cbn. rewrite Hp. cbn.
           rewrite ?Hp, ?Hr, ?Hq, ?Hs, ?Hi, ?Hk. repeat split; auto.
           ++ unfold hasPage. cbn. now rewrite Hp.
           ++ discriminate.
      * eexists. cbn. rewrite ?Hp, ?Hr, ?Hq, ?Hs, ?Hi, ?Hk. repeat split; auto.
    + eexists. cbn. rewrite ?Hp, ?Hr, ?Hq, ?Hs, ?Hi, ?Hk. repeat split; auto.
Qed.

(** The page ready at the second attempt: the session is up. *)
Lemma start_outcomes_witness :
  let out := start None ∅ "/srv/linkright-runner" cleanLaunch readyAtSecond newRunner in
  ∃ answer, out.1 = Returns answer ∧ JS.get answer "success" = flag true
            ∧ isRunning out.2 = true ∧ hasPage out.2 = true.
Proof.
  intros out.
  destruct (proj2 (start_outcomes None ∅ "/srv/linkright-runner" cleanLaunch readyAtSecond
                     newRunner) eq_refl)
    as (answer & Hanswer & Hsuccess & Hpage & _).
  exists answer. split; [exact Hanswer |].
  assert (Hup : isRunning out.2 = true) by (vm_compute; reflexivity).
  fold out in Hsuccess, Hpage. rewrite Hup in Hsuccess, Hpage. auto.
Defined.

(** Nothing ever ready: the answer of [start] carries the hint and the
    six artifacts, and the runner is left stopped. *)
Example start_nav_timeout :
  let out := start None ∅ "/srv/linkright-runner" cleanLaunch neverReady newRunner in
  ∃ answer, out.1 = Returns answer
            ∧ JS.get answer "code" = text "NAV_TIMEOUT"
            ∧ (∃ items, JS.get answer "artifacts" = JS.Arr items ∧ List.length items = 6%nat)
            ∧ isRunning out.2 = false ∧ page out.2 = PageNull.
Proof. eexists. repeat split. eexists. split; reflexivity. Qed.

Lemma batchesFrom_spec {A : Type} (fuel : nat) (requests : list A) :
  (List.length requests ≤ fuel)%nat →
  List.concat (batchesFrom fuel requests) = requests
  ∧ Forall (λ batch, (1 ≤ List.length batch ≤ batchSize)%nat) (batchesFrom fuel requests)
  ∧ List.length (batchesFrom fuel requests)
    = ((List.length requests + (batchSize - 1)) / batchSize)%nat.
Proof.
  revert requests. induction fuel as [| fuel IH]; intros requests Hlen.
  - destruct requests; [| cbn in Hlen; lia]. cbn. repeat split; constructor.
  - destruct requests as [| x rest]; [cbn; repeat split; constructor |].
    cbn [batchesFrom].
    set (l := x :: rest) in *.
    assert (Hl : (1 ≤ List.length l)%nat) by (subst l; cbn; lia).
    destruct (IH (drop batchSize l)) as (Hcat & Hall & Hcount).
    { rewrite length_drop. unfold batchSize. lia. }
    split; [| split].
    + cbn [List.concat]. rewrite Hcat. apply take_drop.
    + constructor; [| exact Hall]. rewrite length_take. unfold batchSize. lia.
    + cbn [List.length]. rewrite Hcount, length_drop.
      change (batchSize - 1)%nat with 4%nat. change batchSize with 5%nat.
      destruct (le_lt_dec 5 (List.length l)) as [Hbig | Hsmall].
      * replace (List.length l + 4)%nat with ((List.length l - 5 + 4) + 1 * 5)%nat by lia.
        rewrite Nat.div_add by lia. lia.
      * replace (List.length l - 5)%nat with 0%nat by lia.
        rewrite (Nat.div_small (0 + 4) 5) by lia.
        apply Nat.div_unique with (r := (List.length l - 1)%nat); lia.
Qed.

(** [batchWebhookRequests] does not return one outcome per request: it
    returns one fulfilled entry per batch of five, holding the outcomes
    of that batch in the order of the requests. *)
Theorem batchWebhookRequests_one_entry_per_batch (rt : Runtime)
    (requests : list (Request * Exchange)) (r : Runner) :
  let results := batchWebhookRequests rt requests r in
  List.length results = ((List.length requests + 4) / 5)%nat
  ∧ ∃ values,
      results = Fulfilled <$> values
      ∧ Forall (λ value, (1 ≤ List.length value ≤ 5)%nat) values
      ∧ List.concat values
        = (λ sent, settle (executeWebhookRequest rt sent.1 sent.2 r).1) <$> requests.
Proof.
  intros results. subst results. unfold batchWebhookRequests, batches.
  destruct (batchesFrom_spec (List.length requests) requests (le_n _))
    as (Hcat & Hall & Hcount).
  assert (Hmap : ∀ l : list (list (Request * Exchange)),
             List.concat ((λ batch, processBatch rt batch r) <$> l)
             = (λ sent, settle (executeWebhookRequest rt sent.1 sent.2 r).1) <$> List.concat l).
  { induction l as [| b l IH]; [reflexivity |].
    cbn [fmap list_fmap List.concat]. cbn [fmap] in IH. rewrite IH.
    unfold processBatch. now rewrite fmap_app. }
  assert (Hsizes : ∀ l : list (list (Request * Exchange)),
             Forall (λ batch, (1 ≤ List.length batch ≤ batchSize)%nat) l →
             Forall (λ value : list (Settled JS.value), (1 ≤ List.length value ≤ 5)%nat)
               ((λ batch, processBatch rt batch r) <$> l)).
  { intros l Hl. induction Hl as [| b l Hb _ IH]; [constructor |].
    cbn [fmap list_fmap]. constructor; [| exact IH].
    unfold processBatch. rewrite length_fmap. exact Hb. }
  destruct requests as [| x rest] eqn:Hreq.
  { split; [reflexivity |]. exists []. repeat split; constructor. }
  rewrite <- Hreq in *. clear Hreq.
  split; [rewrite length_fmap; exact Hcount |].
  exists ((λ batch, processBatch rt batch r) <$> batchesFrom (List.length requests) requests).
  split; [now rewrite <- list_fmap_compose |].
  split; [apply Hsizes, Hall |].
  rewrite Hmap, Hcat. reflexivity.
Qed.

Lemma batchWebhookRequests_one_entry_per_batch_witness :
  let sent := (sampleRequest, answers 200 "OK" (Returns verdictBody) 1200) in
  List.length (batchWebhookRequests sampleRuntime (replicate 7 sent) started) = 2%nat.
Proof.
  intros sent.
  exact (proj1 (batchWebhookRequests_one_entry_per_batch sampleRuntime (replicate 7 sent)
                  started)).
Defined.

Lemma queueStep_keeps (b : Batcher) (s : QueueStep) :
  Queued b → s ≠ Cleanup →
  Forall (λ batch, (1 ≤ List.length batch ≤ batchSize)%nat) (sentBatches b) →
  Queued (queueStep b s)
  ∧ Forall (λ batch, (1 ≤ List.length batch ≤ batchSize)%nat) (sentBatches (queueStep b s))
  ∧ (List.concat (sentBatches (queueStep b s)) ++ requestQueue (queueStep b s)
     = (List.concat (sentBatches b) ++ requestQueue b) ++ added [s])%list.
Proof.
  intros (Hlen & Htimer & Hpending) Hs Hsent.
  destruct b as [queue timer pending sent]. cbn in Hlen, Htimer, Hpending, Hsent.
  subst timer.
  assert (Hsnoc : ∀ request, (queue ++ [request])%list ≠ []) by (now destruct queue).
  destruct s as [request | |]; [| | congruence].
  - cbn [queueStep added omap list_omap]. unfold addToRequestQueue.
    cbn [requestQueue batchTimer timerPending sentBatches].
    rewrite length_app. cbn [List.length].
    destruct (Nat.leb_spec batchSize (List.length queue + 1)) as [Hfull | Hroom].
    + unfold processRequestQueue. cbn [requestQueue batchTimer timerPending sentBatches].
      specialize (Hsnoc request).
      destruct (queue ++ [request])%list as [| x rest] eqn:Hq; [congruence |].
      rewrite <- Hq. clear Hq x rest Hsnoc.
      split; [| split].
      * unfold Queued. cbn. split; [unfold batchSize; lia |]. split.
        -- now destruct pending.
        -- destruct pending; split; congruence.
      * apply Forall_app. split; [exact Hsent |]. constructor; [| constructor].
        rewrite length_app. cbn. unfold batchSize in *. lia.
      * cbn [requestQueue sentBatches]. rewrite concat_app. cbn [List.concat].
        now rewrite !app_nil_r, <- app_assoc.
    + destruct pending; cbn [negb requestQueue batchTimer timerPending sentBatches].
      * split; [| split]; [| exact Hsent | now rewrite <- app_assoc].
        unfold Queued. cbn. rewrite length_app. cbn. repeat split; auto; lia.
      * split; [| split]; [| exact Hsent | now rewrite <- app_assoc].
        unfold Queued. cbn. rewrite length_app. cbn. repeat split; auto; lia.
  - cbn [queueStep added omap list_omap]. unfold fireBatchTimer.
    cbn [requestQueue batchTimer timerPending sentBatches]. rewrite app_nil_r.
    destruct pending.
    + unfold processRequestQueue. cbn [requestQueue batchTimer timerPending sentBatches].
      destruct queue as [| x rest] eqn:Hq; [now destruct (proj1 Hpending eq_refl) |].
      rewrite <- Hq in *. clear Hq x rest.
      split; [| split].
      * unfold Queued. cbn. split; [unfold batchSize; lia |]. split; [reflexivity |].
        split; congruence.
      * apply Forall_app. split; [exact Hsent |]. constructor; [| constructor].
        destruct queue; [now destruct (proj1 Hpending eq_refl) | cbn in *; lia].
      * cbn [requestQueue sentBatches]. rewrite concat_app. cbn [List.concat].
        now rewrite !app_nil_r.
    + split; [| split]; [| exact Hsent | reflexivity].
      unfold Queued. cbn. auto.
Qed.

(** As long as [cleanupTempData] does not run, the queue loses nothing
    and repeats nothing: the batches handed on, followed by what is still
    queued, are the requests added, in order; no batch is empty or holds
    more than five requests; fewer than five requests are queued, and the
    timer is armed exactly when some are. *)
Theorem requestQueue_nothing_lost (steps : list QueueStep) :
  Forall (λ s, s ≠ Cleanup) steps →
  let b := foldl queueStep newBatcher steps in
  (List.concat (sentBatches b) ++ requestQueue b)%list = added steps
  ∧ Forall (λ batch, (1 ≤ List.length batch ≤ 5)%nat) (sentBatches b)
  ∧ Queued b.
Proof.
  intros Hsteps b. subst b.
  induction steps as [| s steps IH] using rev_ind.
  - cbn. split; [reflexivity |]. split; [constructor |].
    split; [unfold batchSize; cbn; lia |]. split; [reflexivity |].
    split; [discriminate | intros H; now destruct H].
  - apply Forall_app in Hsteps as [Hsteps Hs]. rewrite Forall_singleton in Hs.
    destruct (IH Hsteps) as (Hall & Hsizes & Hq).
    rewrite foldl_app. cbn [foldl].
    destruct (queueStep_keeps _ s Hq Hs Hsizes) as (Hq' & Hsizes' & Hall').
    split; [| split]; [| exact Hsizes' | exact Hq'].
    rewrite Hall', Hall. unfold added. now rewrite omap_app.
Qed.

Lemma requestQueue_nothing_lost_witness :
  let steps := [Add sampleRequest; Add sampleRequest; Fire; Add sampleRequest] in
  let b := foldl queueStep newBatcher steps in
  (List.concat (sentBatches b) ++ requestQueue b)%list = replicate 3 sampleRequest.
Proof.
  intros steps b.
  apply (requestQueue_nothing_lost steps).
  repeat constructor; discriminate.
Defined.

(** [cleanupTempData] empties the queue but leaves the timer and its
    handle.  A request queued before it is dropped; the timer then fires
    on an empty queue, which leaves the stale handle in place; and the
    requests added afterwards wait with no timer armed, until a fifth
    one arrives. *)
Theorem requestQueue_stranded_after_cleanup (first later : Request) (more : list Request) :
  (List.length more < 4)%nat →
  let b := foldl queueStep newBatcher
             ([Add first; Cleanup; Fire; Add later] ++ (Add <$> more) ++ [Fire]) in
  sentBatches b = []
  ∧ requestQueue b = later :: more
  ∧ timerPending b = false.
Proof.
  intros Hmore b. subst b.
  rewrite foldl_app.
  change (foldl queueStep newBatcher [Add first; Cleanup; Fire; Add later])
    with (mkBatcher [later] true false []).
  rewrite foldl_app. cbn [foldl queueStep fireBatchTimer].
  assert (Hadds : ∀ queue, (List.length queue + List.length more < batchSize)%nat →
                           foldl queueStep (mkBatcher queue true false []) (Add <$> more)
                           = mkBatcher (queue ++ more) true false []).
  { clear Hmore. induction more as [| request more IH]; intros queue Hlen.
    - cbn. now rewrite app_nil_r.
    - cbn [fmap list_fmap foldl queueStep]. unfold addToRequestQueue.
      cbn [requestQueue batchTimer timerPending sentBatches negb].
      rewrite length_app. cbn [List.length] in *.
      destruct (Nat.leb_spec batchSize (List.length queue + 1)); [lia |].
      fold (@fmap list _ _ _ Add more). rewrite IH.
      + now rewrite <- app_assoc.
      + rewrite length_app. cbn. lia. }
  rewrite Hadds by (cbn; unfold batchSize; lia).
  cbn. auto.
Qed.

Lemma requestQueue_stranded_after_cleanup_witness :
  let b := foldl queueStep newBatcher
             [Add sampleRequest; Cleanup; Fire; Add sampleRequest; Add sampleRequest; Fire] in
  sentBatches b = [] ∧ List.length (requestQueue b) = 2%nat ∧ timerPending b = false.
Proof.
  intros b.
  destruct (requestQueue_stranded_after_cleanup sampleRequest sampleRequest [sampleRequest])
    as (Hsent & Hqueue & Hpending).
  - cbn. lia.
  - subst b. cbn [app fmap list_fmap] in Hsent, Hqueue, Hpending.
    rewrite Hsent, Hqueue, Hpending. auto.
Defined.

(** *** [parseInt] on integers

    [parseInt] reads back the decimal digits [String] writes. *)







(** No request under [/api] reaches the runner unless it carries the
    token of the environment, which must be set and not empty: any other
    request is answered 500 (no token configured) or 401, and the runner
    is left as it is.  A request with the token gets the answer of its
    route. *)
Theorem handle_requires_token (env : gmap string string) (m : Machine) (req : ApiRequest)
    (r : Runner) :
  let authorized :=
    ∃ expected, env !! "RUNNER_TOKEN" = Some expected ∧ expected ≠ ""
                ∧ runnerToken req = Some expected in
  (authorized → handle env m req r = dispatch env m (route req) r)
  ∧ (¬ authorized →
     (handle env m req r).2 = r
     ∧ replyStatus (handle env m req r).1
       = (if JS.truthy (getenv env "RUNNER_TOKEN") then 401 else 500)).
Proof.
  intros authorized. subst authorized. unfold handle, authMiddleware, getenv. split.
  - intros (expected & -> & Hne & ->). cbn.
    destruct (String.eqb_spec expected ""); [congruence |]. cbn.
    now rewrite bool_decide_eq_true_2.
  - intros Hnot.
    destruct (env !! "RUNNER_TOKEN") as [expected |]; cbn; [| auto].
    destruct (String.eqb_spec expected ""); cbn; [auto |].
    destruct (runnerToken req) as [token |]; cbn; [| auto].
    destruct (String.eqb_spec token ""); cbn; [auto |].
    destruct (bool_decide (Some token = Some expected)) eqn:Hsame; cbn; [| auto].
    exfalso. apply Hnot. apply bool_decide_eq_true in Hsame. simplify_eq. eauto.
Qed.

Lemma handle_requires_token_witness :
  let req := mkApiRequest PostStop (Some "dev-secure-token-12345") in
  (handle configured sampleMachine req running).2 = running
  ∧ replyStatus (handle configured sampleMachine req running).1 = 401.
Proof.
  intros req.
  apply (handle_requires_token configured sampleMachine req running).
  intros (expected & Hset & _ & Hsent).
  vm_compute in Hset. cbn in Hsent. congruence.
Defined.

(** The pause, resume and stop routes do to the runner what [serve] does,
    and answer 200 or, leaving the runner as it is, 400. *)
Theorem dispatch_serves (env : gmap string string) (m : Machine) (c : Control) (r : Runner) :
  let out := dispatch env m (controlRoute c) r in
  out.2 = serve c r
  ∧ (replyStatus out.1 = 200 ∨ replyStatus out.1 = 400 ∧ out.2 = r)
  ∧ (replyStatus out.1 = 200 →
     isRunning r = true
     ∧ match c with
       | CallPause => keyboardLoopActive r = true ∧ isPaused out.2 = true
       | CallResume =>
           keyboardLoopActive r = true ∧ isPaused r = true ∧ isPaused out.2 = false
       | CallStop => isRunning out.2 = false ∧ page out.2 = PageNull
       end).
Proof.
  intros out. subst out.
  destruct c; cbn [controlRoute dispatch serve];
    unfold pauseRoute, resumeRoute, stopRoute, pause, resume, stop, stop_second,
      cleanupTempData.
  - destruct (isRunning r), (keyboardLoopActive r); cbn; repeat split; auto; discriminate.
  - destruct (isRunning r), (keyboardLoopActive r), (isPaused r); cbn; repeat split; auto;
      discriminate.
  - destruct (isRunning r); cbn; repeat case_match; cbn; repeat split; auto; discriminate.
Qed.


(** What [getThresholds] answers depends on the stored thresholds and on
    the environment only. *)
Lemma getThresholds_answer (env : gmap string string) (r r' : Runner) :
  thresholds r = thresholds r' → (getThresholds env r).1 = (getThresholds env r').1.
Proof. unfold getThresholds. cbn [fst]. now intros ->. Qed.





(** The start route answers 200 whenever [start] was called, also when
    the session could not be started: the outcome is in the [success]
    field of the body, which tells whether the runner is running.  On a
    running runner it answers 400 and changes nothing. *)
Theorem startRoute_answers_200 (env : gmap string string) (m : Machine) (r : Runner) :
  let out := startRoute env m r in
  (isRunning r = true → replyStatus out.1 = 400 ∧ out.2 = r)
  ∧ (isRunning r = false →
     replyStatus out.1 = 200
     ∧ JS.get (replyJson out.1) "success" = flag (isRunning out.2)
     ∧ hasPage out.2 = isRunning out.2).
Proof.
  intros out. subst out. unfold startRoute. split.
  - intros ->. now split.
  - intros Hstopped. rewrite Hstopped.
    destruct (start_returns None env (machineDir m) (launching m) (browsing m) r Hstopped)
      as (answer & Hanswer & Hsuccess & Hpage).
    destruct (start None env (machineDir m) (launching m) (browsing m) r) as [[a | e] r'];
      cbn [fst snd] in *; [| discriminate].
    simplify_eq. auto.
Qed.

(** Nothing ever ready: the route answers 200, with [success] false. *)
Lemma startRoute_answers_200_witness :
  let out := startRoute ∅ (mkMachine "/srv/linkright-runner" cleanLaunch neverReady)
               newRunner in
  replyStatus out.1 = 200 ∧ JS.get (replyJson out.1) "success" = flag false.
Proof.
  intros out.
  destruct (proj2 (startRoute_answers_200 ∅
                     (mkMachine "/srv/linkright-runner" cleanLaunch neverReady) newRunner)
              eq_refl) as (Hstatus & Hsuccess & _).
  subst out. split; [exact Hstatus |]. rewrite Hsuccess. reflexivity.
Defined.
